(** * seller-apis: price and stock synchronisation with two marketplaces

    A shallow embedding of [seller.py] (Ozon) and [market.py] (Yandex
    Market) and the properties of their reconciliation core.

    Conventions of the embedding.
    - Python [str] values are [string]s, read as the UTF-8 bytes of the text.
      The digits [0-9], ["."], [">"], the sign characters and the ASCII white
      space are single bytes that never occur inside a multi-byte sequence,
      so the byte view agrees with the character view for everything the
      code does with them.
    - Python [int] is [Z].  [int(s)] reads a literal as the interpreter
      does: white space around it, a sign, digits in groups separated by
      single underscores, at most 4300 digits (the limit the interpreter
      starts with); in a text that is not all ASCII, the white space and
      the decimal digits of the other scripts count as well.
    - A cell of the spreadsheet is [None], an [int] or a [str] ([pyval]);
      [float] cells are outside the model.  An [int] cell is a number of
      the sheet, which [str] can write: the sheet keeps numbers as doubles,
      far below the 4300 digits at which [str] would refuse.
    - A raised exception is the [Err] case of [result]; the constructors of
      [exn] are the exception classes the code can meet.
    - A list that the code mutates in place is threaded through explicitly:
      the function returns the final contents next to its return value. *)

From Stdlib Require Import ZArith Lia Ascii String DecimalString DecimalZ.
From stdpp Require Import base option list strings gmap.

Local Open Scope string_scope.
Local Open Scope list_scope.
Local Open Scope Z_scope.

(** ** Python values, exceptions, builtins *)

Module Py.

Inductive exn : Type :=
| ValueError
| TypeError
| AttributeError
| ReadTimeout
| ConnectionError
| HTTPError
| OtherException (name : string).

Inductive result (A : Type) : Type :=
| Ok (a : A)
| Err (e : exn).
Arguments Ok {A} a.
Arguments Err {A} e.

Definition bind {A B} (m : result A) (k : A → result B) : result B :=
  match m with
  | Ok a => k a
  | Err e => Err e
  end.

Definition is_ok {A} (m : result A) : bool :=
  match m with Ok _ => true | Err _ => false end.

Definition to_option {A} (m : result A) : option A :=
  match m with Ok a => Some a | Err _ => None end.

(** The values found in a spreadsheet cell, or [None] for a missing key. *)
Inductive pyval : Type :=
| PNone
| PInt (n : Z)
| PStr (s : string).

(** [isinstance(v, str)]. *)
Definition is_str (v : pyval) : bool :=
  match v with PStr _ => true | _ => false end.

(** [str(int)]: an optional ["-"] and the decimal digits. *)
Definition str_of_int (n : Z) : string :=
  NilZero.string_of_int (Z.to_int n).

(** [str(v)]. *)
Definition str (v : pyval) : string :=
  match v with
  | PNone => "None"
  | PInt n => str_of_int n
  | PStr s => s
  end.

Definition is_digit (c : ascii) : bool :=
  let n := nat_of_ascii c in (48 <=? n)%nat && (n <=? 57)%nat.

(** The white space [int] skips around an ASCII literal: TAB, LF, VT, FF,
    CR and the space. *)
Definition is_space (c : ascii) : bool :=
  let n := nat_of_ascii c in
  ((9 <=? n)%nat && (n <=? 13)%nat) || (n =? 32)%nat.

Fixpoint lstrip (s : string) : string :=
  match s with
  | String c s' => if is_space c then lstrip s' else s
  | EmptyString => EmptyString
  end.

Fixpoint rstrip (s : string) : string :=
  match s with
  | String c s' =>
      match rstrip s' with
      | EmptyString => if is_space c then EmptyString else String c EmptyString
      | r => String c r
      end
  | EmptyString => EmptyString
  end.

(** The literal without the white space around it. *)
Definition strip (s : string) : string := rstrip (lstrip s).

Definition byte (c : ascii) : Z := Z.of_N (N_of_ascii c).

(** The payload of a continuation byte of UTF-8. *)
Definition continuation (c : ascii) : option Z :=
  let b := byte c in
  if (128 <=? b) && (b <? 192) then Some (b - 128) else None.

(** The code points of a text, read from its UTF-8 bytes; [None] for
    bytes that are the UTF-8 of no text. *)
Fixpoint code_points (s : string) : option (list Z) :=
  match s with
  | EmptyString => Some []
  | String c s1 =>
      let b := byte c in
      if b <? 128 then cons b <$> code_points s1
      else if b <? 194 then None
      else if b <? 224 then
        match s1 with
        | String c1 s2 =>
            match continuation c1 with
            | Some x1 => cons ((b - 192) * 64 + x1) <$> code_points s2
            | None => None
            end
        | _ => None
        end
      else if b <? 240 then
        match s1 with
        | String c1 (String c2 s3) =>
            match continuation c1, continuation c2 with
            | Some x1, Some x2 =>
                let cp := (b - 224) * 4096 + x1 * 64 + x2 in
                if (cp <? 2048) || ((55296 <=? cp) && (cp <? 57344)) then None
                else cons cp <$> code_points s3
            | _, _ => None
            end
        | _ => None
        end
      else if b <? 245 then
        match s1 with
        | String c1 (String c2 (String c3 s4)) =>
            match continuation c1, continuation c2, continuation c3 with
            | Some x1, Some x2, Some x3 =>
                let cp := (b - 240) * 262144 + x1 * 4096 + x2 * 64 + x3 in
                if (cp <? 65536) || (1114111 <? cp) then None
                else cons cp <$> code_points s4
            | _, _, _ => None
            end
        | _ => None
        end
      else None
  end.

(** The white space outside ASCII: NEL, the no-break space, the Ogham
    space mark, the spaces U+2000 to U+200A, the line and paragraph
    separators, the narrow no-break space, the medium mathematical space
    and the ideographic space. *)
Definition unicode_space (cp : Z) : bool :=
  bool_decide (cp ∈ [133; 160; 5760; 8232; 8233; 8239; 8287; 12288])
  || ((8192 <=? cp) && (cp <=? 8202)).

(** The digit zero of every script with decimal digits outside ASCII
    (Unicode 14.0, the data of CPython 3.11); the digits one to nine
    follow each of them. *)
Definition decimal_zeros : list Z :=
  [1632; 1776; 1984; 2406; 2534; 2662; 2790; 2918; 3046;
   3174; 3302; 3430; 3558; 3664; 3792; 3872; 4160; 4240;
   6112; 6160; 6470; 6608; 6784; 6800; 6992; 7088; 7232;
   7248; 42528; 43216; 43264; 43472; 43504; 43600; 44016; 65296;
   66720; 68912; 69734; 69872; 69942; 70096; 70384; 70736; 70864;
   71248; 71360; 71472; 71904; 72016; 72784; 73040; 73120; 92768;
   92864; 93008; 120782; 120792; 120802; 120812; 120822; 123200; 123632;
   125264; 130032].

(** The value of a decimal digit outside ASCII. *)
Definition unicode_decimal (cp : Z) : option Z :=
  (λ zero, cp - zero)
    <$> List.find (λ zero, (zero <=? cp) && (cp <? zero + 10)) decimal_zeros.

(** What [int] makes of a character of a text that is not all ASCII,
    before it reads the literal: ASCII stays, other white space becomes a
    space, other decimal digits become ASCII digits, and nothing else
    passes. *)
Definition to_ascii (cp : Z) : option ascii :=
  if cp <? 127 then Some (ascii_of_N (Z.to_N cp))
  else if unicode_space cp then Some " "%char
  else (λ d, ascii_of_N (Z.to_N (48 + d))) <$> unicode_decimal cp.

Definition is_ascii (s : string) : bool :=
  forallb (λ c, byte c <? 128) (list_ascii_of_string s).

(** The text [int] reads the literal from: an ASCII text as it is, any
    other with its white space and digits brought to ASCII. *)
Definition decimal_and_space_to_ascii (s : string) : option string :=
  if is_ascii s then Some s
  else cps ← code_points s; string_of_list_ascii <$> mapM to_ascii cps.

(** The digits of an integer literal: groups of digits separated by single
    underscores.  [prev] tells whether the previous character was a digit;
    the result is the digits without the underscores. *)
Fixpoint literal_digits (prev : bool) (s : string) : option string :=
  match s with
  | EmptyString => if prev then Some EmptyString else None
  | String c s' =>
      if is_digit c then String c <$> literal_digits true s'
      else if Ascii.eqb c "_" then
        if prev then literal_digits false s' else None
      else None
  end.

(** [sys.get_int_max_str_digits()] as the interpreter starts; the program
    does not change it. *)
Definition max_str_digits : Z := 4300.

(** The number a run of digits writes; a run of more than
    [max_str_digits] digits is refused. *)
Definition digits_value (s : string) : option Z :=
  if Z.of_nat (String.length s) <=? max_str_digits
  then Z.of_uint <$> NilEmpty.uint_of_string s
  else None.

(** An ASCII literal in base 10: white space around, an optional sign,
    then digits. *)
Definition long_from_string (s : string) : option Z :=
  match strip s with
  | String c d =>
      if Ascii.eqb c "-" then Z.opp <$> (literal_digits false d ≫= digits_value)
      else if Ascii.eqb c "+" then literal_digits false d ≫= digits_value
      else literal_digits false (String c d) ≫= digits_value
  | EmptyString => None
  end.

(** [int(s)] for a [str]; [None] stands for the [ValueError]. *)
Definition int_of_str (s : string) : option Z :=
  decimal_and_space_to_ascii s ≫= long_from_string.

(** [int(v)]: the identity on [int], reading the literal of a [str],
    [TypeError] on [None]. *)
Definition int (v : pyval) : result Z :=
  match v with
  | PNone => Err TypeError
  | PInt n => Ok n
  | PStr s => match int_of_str s with Some n => Ok n | None => Err ValueError end
  end.

(** [x in l] for a list of strings. *)
Definition contains (x : string) (l : list string) : bool :=
  bool_decide (x ∈ l).

(** [l.remove(x)]: drops the first occurrence, [ValueError] when there is
    none.  The result is the new contents of the list. *)
Fixpoint remove (x : string) (l : list string) : result (list string) :=
  match l with
  | [] => Err ValueError
  | y :: l' => if decide (x = y) then Ok l' else bind (remove x l') (λ r, Ok (y :: r))
  end.

(** [len(range(start, stop, step))] for a non-zero step. *)
Definition range_len (start stop step : Z) : Z :=
  if (0 <? step) && (start <? stop) then 1 + (stop - 1 - start) / step
  else if (step <? 0) && (stop <? start) then 1 + (start - 1 - stop) / (- step)
  else 0.

(** [list(range(start, stop, step))]; a zero step is a [ValueError]. *)
Definition range (start stop step : Z) : result (list Z) :=
  if step =? 0 then Err ValueError
  else Ok (map (λ k : nat, start + Z.of_nat k * step)
             (seq 0%nat (Z.to_nat (range_len start stop step)))).

(** A slice bound brought into [0 .. len]: negative bounds count from the
    end. *)
Definition slice_bound (len i : Z) : Z :=
  if i <? 0 then Z.max 0 (i + len) else Z.min i len.

(** [l[i:j]]. *)
Definition slice {A} (l : list A) (i j : Z) : list A :=
  let len := Z.of_nat (length l) in
  let a := slice_bound len i in
  let b := slice_bound len j in
  take (Z.to_nat (b - a)) (drop (Z.to_nat a) l).

(** [s.split(sep)[0]] for a one-character separator: the text before its
    first occurrence, the whole text when there is none. *)
Fixpoint split_head (sep : ascii) (s : string) : string :=
  match s with
  | String c s' => if Ascii.eqb c sep then EmptyString else String c (split_head sep s')
  | EmptyString => EmptyString
  end.

(** [re.sub("[^0-9]", "", s)]. *)
Fixpoint sub_non_digits (s : string) : string :=
  match s with
  | String c s' => if is_digit c then String c (sub_non_digits s') else sub_non_digits s'
  | EmptyString => EmptyString
  end.

(** A [for] loop whose body updates the loop state and may raise. *)
Fixpoint for_each {A S} (body : A → S → result S) (xs : list A) (s : S) : result S :=
  match xs with
  | [] => Ok s
  | x :: xs' => bind (body x s) (for_each body xs')
  end.

End Py.

Import Py.

#[global] Instance exn_eq_dec : EqDecision exn.
Proof. solve_decision. Defined.
#[global] Instance result_eq_dec `{EqDecision A} : EqDecision (result A).
Proof. solve_decision. Defined.
#[global] Instance result_fmap : FMap result := λ A B f m,
  match m with Ok a => Ok (f a) | Err e => Err e end.
#[global] Instance result_ret : MRet result := λ A, @Ok A.
#[global] Instance result_bind : MBind result := λ A B k m, Py.bind m k.

(** A spreadsheet row, as [to_dict(orient="records")] gives it. *)
Abbreviation row := (gmap string pyval).

(** [watch.get(key)]. *)
Definition get (watch : row) (key : string) : pyval :=
  default PNone (watch !! key).

(** ** The outside world

    The HTTP wrappers ([get_offer_ids], [update_stocks], [update_price]),
    [download_stock], the clock and [print] are the program's interface with
    the outside.  A run is a function of a [world], which answers every
    call from the history so far, and produces the [trace] of the calls made
    and lines printed, oldest first. *)

Module IO.
Section IO.
Context {stock price : Type}.

Inductive call : Type :=
| GetOfferIds (id token : string)
| DownloadStock
| UpdateStocks (stocks : list stock) (id token : string)
| UpdatePrice (prices : list price) (id token : string).

Inductive event : Type :=
| Called (c : call)
| Printed (error : option exn) (text : string).

Definition trace : Type := list event.

Record world : Type := World {
  offer_ids_of : trace → string → string → result (list string);
  stock_file : trace → result (list row);
  stocks_answer : trace → list stock → string → string → result unit;
  price_answer : trace → list price → string → string → result unit;
  utcnow : trace → string
}.

Definition M (A : Type) : Type := world → trace → trace * result A.

Definition ret {A} (a : A) : M A := λ _ t, (t, Ok a).

Definition bind {A B} (m : M A) (k : A → M B) : M B := λ w t,
  match m w t with
  | (t', Ok a) => k a w t'
  | (t', Err e) => (t', Err e)
  end.

(** A pure computation that may raise. *)
Definition lift {A} (r : result A) : M A := λ _ t, (t, r).

Definition perform {A} (c : call) (answer : world → trace → result A) : M A :=
  λ w t, (t ++ [Called c], answer w t).

Definition get_offer_ids (id token : string) : M (list string) :=
  perform (GetOfferIds id token) (λ w t, offer_ids_of w t id token).

Definition download_stock : M (list row) :=
  perform DownloadStock stock_file.

Definition update_stocks (stocks : list stock) (id token : string) : M unit :=
  perform (UpdateStocks stocks id token) (λ w t, stocks_answer w t stocks id token).

Definition update_price (prices : list price) (id token : string) : M unit :=
  perform (UpdatePrice prices id token) (λ w t, price_answer w t prices id token).

(** [datetime.datetime.utcnow()], rendered as the code renders it. *)
Definition now : M string := λ w t, (t, Ok (utcnow w t)).

Definition print (error : option exn) (text : string) : M unit :=
  λ _ t, (t ++ [Printed error text], Ok tt).

(** [try: m  except ... : handler]. *)
Definition try_except {A} (m : M A) (handler : exn → M A) : M A := λ w t,
  match m w t with
  | (t', Err e) => handler e w t'
  | r => r
  end.

(** [for x in xs: body(x)]. *)
Fixpoint for_ {A} (xs : list A) (body : A → M unit) : M unit :=
  match xs with
  | [] => ret tt
  | x :: xs' => bind (body x) (λ _, for_ xs' body)
  end.

(** The three [except] clauses both [main] functions end with. *)
Definition report (error : exn) : M unit :=
  match error with
  | ReadTimeout => print None "Превышено время ожидания..."
  | ConnectionError => print (Some error) "Ошибка соединения"
  | _ => print (Some error) "ERROR_2"
  end.

(** The line [report] prints for an exception. *)
Definition reported (error : exn) : event :=
  match error with
  | ReadTimeout => Printed None "Превышено время ожидания..."
  | ConnectionError => Printed (Some error) "Ошибка соединения"
  | _ => Printed (Some error) "ERROR_2"
  end.

(** Run in the world [w], from any history, [m] adds only events that
    satisfy [P] to the trace. *)
Definition adds_only (P : event → Prop) (w : world) {A} (m : M A) : Prop :=
  ∀ t, ∃ evs, (m w t).1 = t ++ evs ∧ Forall P evs.

(** The object a call of an [async def] function returns: the body, not
    yet started. *)
Inductive coroutine (A : Type) : Type :=
| Coroutine (body : M A).

(** Calling an [async def] function only builds the coroutine object. *)
Definition call_async {A} (body : M A) : M (coroutine A) :=
  ret (Coroutine A body).

Definition is_price_call (ev : event) : bool :=
  match ev with
  | Called (UpdatePrice _ _ _) => true
  | _ => false
  end.

Definition is_stocks_call (ev : event) : bool :=
  match ev with
  | Called (UpdateStocks _ _ _) => true
  | _ => false
  end.

(** The calls of a trace made for the shop [id]. *)
Definition for_shop (id : string) (ev : event) : bool :=
  match ev with
  | Called (GetOfferIds i _) | Called (UpdateStocks _ i _)
  | Called (UpdatePrice _ i _) => bool_decide (i = id)
  | _ => false
  end.

End IO.
Arguments call : clear implicits.
Arguments event : clear implicits.
Arguments trace : clear implicits.
Arguments world : clear implicits.
Arguments M : clear implicits.
Arguments coroutine : clear implicits.
End IO.

#[global] Instance io_ret {stock price} : MRet (IO.M stock price) := λ A, IO.ret.
#[global] Instance io_bind {stock price} : MBind (IO.M stock price) := λ A B k m, IO.bind m k.

(** ** seller.py *)

Module Seller.

Module Stock.
Record t : Type := Make { offer_id : string; stock : Z }.
End Stock.

Module Price.
Record t : Type := Make {
  auto_action_enabled : string;
  currency_code : string;
  offer_id : string;
  old_price : string;
  price : string
}.
End Price.

Abbreviation M := (IO.M Stock.t Price.t).

(** The body of the first loop of [create_stocks]; the loop state is the
    list being built and the contents of [offer_ids]. *)
Definition create_stocks_row (watch : row) (st : list Stock.t * list string)
  : result (list Stock.t * list string) :=
  let '(stocks, offer_ids) := st in
  if contains (str (get watch "Код")) offer_ids then
    let count := str (get watch "Количество") in
    stock ← (if String.eqb count ">10" then Ok 100
             else if String.eqb count "1" then Ok 0
             else int (get watch "Количество"));
    offer_ids ← remove (str (get watch "Код")) offer_ids;
    Ok (stocks ++ [Stock.Make (str (get watch "Код")) stock], offer_ids)
  else Ok (stocks, offer_ids).

(** [create_stocks(watch_remnants, offer_ids)]: the list returned and the
    contents of [offer_ids] at the return. *)
Definition create_stocks (watch_remnants : list row) (offer_ids : list string)
  : result (list Stock.t * list string) :=
  '(stocks, offer_ids) ← for_each create_stocks_row watch_remnants ([], offer_ids);
  let stocks :=
    foldl (λ stocks offer_id, stocks ++ [Stock.Make offer_id 0]) stocks offer_ids in
  Ok (stocks, offer_ids).

(** [price_conversion(price)]: [re.sub("[^0-9]", "", price.split(".")[0])].
    [split] is looked up on the argument first, so a value that is not a
    [str] stops there with the attribute missing. *)
Definition price_conversion (price : pyval) : result string :=
  match price with
  | PStr s => Ok (sub_non_digits (split_head "." s))
  | PNone | PInt _ => Err AttributeError
  end.

(** [list(divide(lst, n))]: the chunks the generator yields when it is
    run to its end, or the exception it raises on the way. *)
Definition divide {A} (lst : list A) (n : Z) : result (list (list A)) :=
  idx ← range 0 (Z.of_nat (length lst)) n;
  Ok (map (λ i, slice lst i (i + n)) idx).


Definition create_prices_row (offer_ids : list string) (watch : row)
  (prices : list Price.t) : result (list Price.t) :=
  if contains (str (get watch "Код")) offer_ids then
    converted ← price_conversion (get watch "Цена");
    let price :=
      {| Price.auto_action_enabled := "UNKNOWN";
         Price.currency_code := "RUB";
         Price.offer_id := str (get watch "Код");
         Price.old_price := "0";
         Price.price := converted |} in
    Ok (prices ++ [price])
  else Ok prices.

Definition create_prices (watch_remnants : list row) (offer_ids : list string)
  : result (list Price.t) :=
  for_each (create_prices_row offer_ids) watch_remnants [].

Definition main (seller_token client_id : string) : M unit :=
  IO.try_except
    (offer_ids ← IO.get_offer_ids client_id seller_token;
     watch_remnants ← IO.download_stock;
     '(stocks, offer_ids) ← IO.lift (create_stocks watch_remnants offer_ids);
     chunks ← IO.lift (divide stocks 100);
     _ ← IO.for_ chunks (λ some_stock,
           IO.update_stocks some_stock client_id seller_token);
     prices ← IO.lift (create_prices watch_remnants offer_ids);
     chunks ← IO.lift (divide prices 900);
     IO.for_ chunks (λ some_price,
       IO.update_price some_price client_id seller_token))
    IO.report.

(** The body of [async def upload_prices], as it runs when the coroutine
    is awaited. *)
Definition upload_prices (watch_remnants : list row) (client_id seller_token : string)
  : M (list Price.t) :=
  offer_ids ← IO.get_offer_ids client_id seller_token;
  prices ← IO.lift (create_prices watch_remnants offer_ids);
  chunks ← IO.lift (divide prices 1000);
  _ ← IO.for_ chunks (λ some_price,
        IO.update_price some_price client_id seller_token);
  mret prices.

(** The body of [async def upload_stocks]: it returns [not_empty, stocks]. *)
Definition upload_stocks (watch_remnants : list row) (client_id seller_token : string)
  : M (list Stock.t * list Stock.t) :=
  offer_ids ← IO.get_offer_ids client_id seller_token;
  '(stocks, offer_ids) ← IO.lift (create_stocks watch_remnants offer_ids);
  chunks ← IO.lift (divide stocks 100);
  _ ← IO.for_ chunks (λ some_stock,
        IO.update_stocks some_stock client_id seller_token);
  let not_empty := filter (λ stock, Stock.stock stock ≠ 0) stocks in
  mret (not_empty, stocks).

(** *** The catalog listing

    [get_product_list] returns the ["result"] object of the answer, [None]
    when the answer has none; of that object the loop reads ["items"] and
    ["total"], each [None] when the key is missing, and ["last_id"], which
    the answers are taken to carry.  The products carry their
    ["offer_id"]. *)

Module Product.
Record t : Type := Make { product_id : Z; offer_id : string }.
End Product.

Module Page.
Record t : Type := Make {
  items : option (list Product.t);
  total : option Z;
  last_id : string
}.
End Page.

(** The service behind [get_product_list]: what the request number [n]
    (counted from 0) with the given arguments is answered. *)
Definition listing : Type :=
  nat → string → string → string → result (option Page.t).

(** The [while True] loop of [get_offer_ids] after the requests of [log]
    (their [last_id] arguments, oldest first): [fuel] bounds the number of
    further requests, and [None] says the loop was still running when it
    ran out.  Otherwise the result is the log of all the requests and
    what the loop leaves. *)
Fixpoint get_offer_ids_loop (get_product_list : listing) (client_id seller_token : string)
  (fuel : nat) (log : list string) (last_id : string) (product_list : list Product.t)
  : option (list string * result (list Product.t)) :=
  match fuel with
  | O => None
  | S fuel' =>
      let log := log ++ [last_id] in
      match get_product_list (length log - 1)%nat last_id client_id seller_token with
      | Err e => Some (log, Err e)
      | Ok None => Some (log, Err AttributeError)
      | Ok (Some some_prod) =>
          match Page.items some_prod with
          | None => Some (log, Err TypeError)
          | Some items =>
              let product_list := product_list ++ items in
              let total := Page.total some_prod in
              let last_id := Page.last_id some_prod in
              if decide (total = Some (Z.of_nat (length product_list)))
              then Some (log, Ok product_list)
              else get_offer_ids_loop get_product_list client_id seller_token
                     fuel' log last_id product_list
          end
      end
  end.

(** [get_offer_ids(client_id, seller_token)], given [fuel] requests. *)
Definition get_offer_ids (get_product_list : listing) (fuel : nat)
  (client_id seller_token : string) : option (list string * result (list string)) :=
  match get_offer_ids_loop get_product_list client_id seller_token fuel [] "" [] with
  | Some (log, Ok product_list) => Some (log, Ok (Product.offer_id <$> product_list))
  | Some (log, Err e) => Some (log, Err e)
  | None => None
  end.

End Seller.

(** ** market.py *)

Module Market.

Module Item.
Record t : Type := Make { count : Z; type : string; updatedAt : string }.
End Item.

Module Stock.
Record t : Type := Make { sku : string; warehouseId : string; items : list Item.t }.
End Stock.

Module Value.
Record t : Type := Make { value : Z; currencyId : string }.
End Value.

Module Price.
Record t : Type := Make { id : string; price : Value.t }.
End Price.

Abbreviation M := (IO.M Stock.t Price.t).

(** The body of the first loop of [create_stocks]; [date] is the time
    stamp taken before the loop. *)
Definition create_stocks_row (warehouse_id date : string) (watch : row)
  (st : list Stock.t * list string) : result (list Stock.t * list string) :=
  let '(stocks, offer_ids) := st in
  if contains (str (get watch "Код")) offer_ids then
    let count := str (get watch "Количество") in
    stock ← (if String.eqb count ">10" then Ok 100
             else if String.eqb count "1" then Ok 0
             else int (get watch "Количество"));
    offer_ids ← remove (str (get watch "Код")) offer_ids;
    Ok (stocks ++ [Stock.Make (str (get watch "Код")) warehouse_id
                     [Item.Make stock "FIT" date]],
        offer_ids)
  else Ok (stocks, offer_ids).

(** [create_stocks(watch_remnants, offer_ids, warehouse_id)], run when the
    clock reads [date]: the list returned and the contents of [offer_ids]
    at the return. *)
Definition create_stocks (date : string) (watch_remnants : list row)
  (offer_ids : list string) (warehouse_id : string)
  : result (list Stock.t * list string) :=
  '(stocks, offer_ids) ←
    for_each (create_stocks_row warehouse_id date) watch_remnants ([], offer_ids);
  let stocks :=
    foldl (λ stocks offer_id,
             stocks ++ [Stock.Make offer_id warehouse_id [Item.Make 0 "FIT" date]])
          stocks offer_ids in
  Ok (stocks, offer_ids).

Definition create_prices_row (offer_ids : list string) (watch : row)
  (prices : list Price.t) : result (list Price.t) :=
  if contains (str (get watch "Код")) offer_ids then
    converted ← Seller.price_conversion (get watch "Цена");
    value ← int (PStr converted);
    let price :=
      {| Price.id := str (get watch "Код");
         Price.price := {| Value.value := value; Value.currencyId := "RUR" |} |} in
    Ok (prices ++ [price])
  else Ok prices.

Definition create_prices (watch_remnants : list row) (offer_ids : list string)
  : result (list Price.t) :=
  for_each (create_prices_row offer_ids) watch_remnants [].

(** The body of [async def upload_prices]. *)
Definition upload_prices (watch_remnants : list row) (campaign_id market_token : string)
  : M (list Price.t) :=
  offer_ids ← IO.get_offer_ids campaign_id market_token;
  prices ← IO.lift (create_prices watch_remnants offer_ids);
  chunks ← IO.lift (Seller.divide prices 500);
  _ ← IO.for_ chunks (λ some_prices,
        IO.update_price some_prices campaign_id market_token);
  mret prices.

(** The statements of [main] under the comment [# FBS]. *)
Definition fbs (watch_remnants : list row)
  (market_token campaign_fbs_id warehouse_fbs_id : string) : M unit :=
  offer_ids ← IO.get_offer_ids campaign_fbs_id market_token;
  date ← IO.now;
  '(stocks, offer_ids) ←
    IO.lift (create_stocks date watch_remnants offer_ids warehouse_fbs_id);
  chunks ← IO.lift (Seller.divide stocks 2000);
  _ ← IO.for_ chunks (λ some_stock,
        IO.update_stocks some_stock campaign_fbs_id market_token);
  _ ← IO.call_async (upload_prices watch_remnants campaign_fbs_id market_token);
  mret tt.

(** The statements of [main] under the comment [# DBS]. *)
Definition dbs (watch_remnants : list row)
  (market_token campaign_dbs_id warehouse_dbs_id : string) : M unit :=
  offer_ids ← IO.get_offer_ids campaign_dbs_id market_token;
  date ← IO.now;
  '(stocks, offer_ids) ←
    IO.lift (create_stocks date watch_remnants offer_ids warehouse_dbs_id);
  chunks ← IO.lift (Seller.divide stocks 2000);
  _ ← IO.for_ chunks (λ some_stock,
        IO.update_stocks some_stock campaign_dbs_id market_token);
  _ ← IO.call_async (upload_prices watch_remnants campaign_dbs_id market_token);
  mret tt.

Definition main
  (market_token campaign_fbs_id campaign_dbs_id warehouse_fbs_id warehouse_dbs_id : string)
  : M unit :=
  watch_remnants ← IO.download_stock;
  IO.try_except
    (_ ← fbs watch_remnants market_token campaign_fbs_id warehouse_fbs_id;
     dbs watch_remnants market_token campaign_dbs_id warehouse_dbs_id)
    IO.report.

(** [items[0]["count"] != 0] on a stock record; [items[0]] is an
    [IndexError] on a record without items. *)
Definition in_stock (stock : Stock.t) : result bool :=
  match Stock.items stock with
  | item :: _ => Ok (bool_decide (Item.count item ≠ 0))
  | [] => Err (OtherException "IndexError")
  end.

(** [list(filter(lambda stock: ..., stocks))] for a test that may raise. *)
Fixpoint filter_stocks (stocks : list Stock.t) : result (list Stock.t) :=
  match stocks with
  | [] => Ok []
  | stock :: stocks' =>
      keep ← in_stock stock;
      rest ← filter_stocks stocks';
      Ok (if keep : bool then stock :: rest else rest)
  end.

(** The body of [async def upload_stocks]: it returns [not_empty, stocks]. *)
Definition upload_stocks (watch_remnants : list row)
  (campaign_id market_token warehouse_id : string)
  : M (list Stock.t * list Stock.t) :=
  offer_ids ← IO.get_offer_ids campaign_id market_token;
  date ← IO.now;
  '(stocks, offer_ids) ←
    IO.lift (create_stocks date watch_remnants offer_ids warehouse_id);
  chunks ← IO.lift (Seller.divide stocks 2000);
  _ ← IO.for_ chunks (λ some_stock,
        IO.update_stocks some_stock campaign_id market_token);
  not_empty ← IO.lift (filter_stocks stocks);
  mret (not_empty, stocks).

(** *** The catalog listing

    [get_product_list] returns the ["result"] object of the answer, [None]
    when the answer has none; of that object the loop reads
    ["offerMappingEntries"] and the ["nextPageToken"] of ["paging"], each
    [None] when the key is missing.  Of an entry the code reads the
    ["offer"], [None] when the key is missing, and of the offer its
    ["shopSku"], which the offers are taken to carry. *)

Module Offer.
Record t : Type := Make { shopSku : string }.
End Offer.

Module Entry.
Record t : Type := Make { offer : option Offer.t }.
End Entry.

Module Page.
Record t : Type := Make {
  offerMappingEntries : option (list Entry.t);
  paging : option (option string)
}.
End Page.

(** The service behind [get_product_list]: what the request number [n]
    (counted from 0) with the given arguments is answered. *)
Definition listing : Type :=
  nat → string → string → string → result (option Page.t).

(** [not page] for a page token. *)
Definition no_token (page : option string) : bool :=
  match page with
  | None => true
  | Some token => bool_decide (token = EmptyString)
  end.

(** The [while True] loop of [get_offer_ids] after the requests of [log]
    (their page tokens, oldest first): [fuel] bounds the number of further requests, and [None] says the
    loop was still running when it ran out. *)
Fixpoint get_offer_ids_loop (get_product_list : listing) (campaign_id market_token : string)
  (fuel : nat) (log : list string) (page : string) (product_list : list Entry.t)
  : option (list string * result (list Entry.t)) :=
  match fuel with
  | O => None
  | S fuel' =>
      let log := log ++ [page] in
      match get_product_list (length log - 1)%nat page campaign_id market_token with
      | Err e => Some (log, Err e)
      | Ok None => Some (log, Err AttributeError)
      | Ok (Some some_prod) =>
          match Page.offerMappingEntries some_prod with
          | None => Some (log, Err TypeError)
          | Some entries =>
              let product_list := product_list ++ entries in
              match Page.paging some_prod with
              | None => Some (log, Err AttributeError)
              | Some page =>
                  if no_token page then Some (log, Ok product_list)
                  else get_offer_ids_loop get_product_list campaign_id market_token
                         fuel' log (default EmptyString page) product_list
              end
          end
      end
  end.

(** The body of the second loop of [get_offer_ids]:
    [offer_ids.append(product.get("offer").get("shopSku"))].  On an entry
    without ["offer"] the second [get] is looked up on [None]. *)
Definition append_shop_sku (product : Entry.t) (offer_ids : list string)
  : result (list string) :=
  match Entry.offer product with
  | Some offer => Ok (offer_ids ++ [Offer.shopSku offer])
  | None => Err AttributeError
  end.

(** [get_offer_ids(campaign_id, market_token)], given [fuel] requests. *)
Definition get_offer_ids (get_product_list : listing) (fuel : nat)
  (campaign_id market_token : string) : option (list string * result (list string)) :=
  match get_offer_ids_loop get_product_list campaign_id market_token fuel [] "" [] with
  | Some (log, Ok product_list) => Some (log, for_each append_shop_sku product_list [])
  | Some (log, Err e) => Some (log, Err e)
  | None => None
  end.

End Market.

(** ** Vocabulary of the statements

    What the specification calls the quantity mapping, the matched rows,
    the catalog leftovers and the update records, written out once so that
    the theorems can compare the code with them. *)

Module Spec.

(** The stringified code of a row. *)
Definition code (watch : row) : string := str (get watch "Код").

Definition codes (rows : list row) : list string := code <$> rows.

(** The quantity mapping: [">10"] is 100, ["1"] is 0, any other numeric
    string is its integer value, anything else has no stock count.  The
    numeric strings are the literals [int] reads. *)
Definition quantity_mapping (quantity : string) : option Z :=
  if decide (quantity = ">10") then Some 100
  else if decide (quantity = "1") then Some 0
  else int_of_str quantity.

(** The stock count of a quantity cell.  A text goes through the quantity
    mapping.  A number is written in decimal and that goes through the
    mapping: 0 for the number 1, the number itself otherwise.  An empty
    cell has no stock count. *)
Definition stock_count (quantity : pyval) : option Z :=
  match quantity with
  | PStr s => quantity_mapping s
  | PInt n => if decide (n = 1) then Some 0 else Some n
  | PNone => None
  end.

(** The first row of every code. *)
Fixpoint first_of_code (rows : list row) : list row :=
  match rows with
  | [] => []
  | watch :: rows' =>
      watch :: filter (λ w, code w ≠ code watch) (first_of_code rows')
  end.

(** The rows matched to a duplicate-free catalog: for every code of the
    catalog, the first row that carries it, in row order. *)
Definition matched_rows (offer_ids : list string) (rows : list row) : list row :=
  first_of_code (filter (λ w, code w ∈ offer_ids) rows).

(** The ids of the catalog that no row carries, in catalog order. *)
Definition leftovers (offer_ids : list string) (rows : list row) : list string :=
  filter (λ offer_id, offer_id ∉ codes rows) offer_ids.

(** The catalog without the first occurrence of an id. *)
Fixpoint without (offer_id : string) (offer_ids : list string) : list string :=
  match offer_ids with
  | [] => []
  | y :: l => if decide (offer_id = y) then l else y :: without offer_id l
  end.

(** The rows matched to any catalog, and what they leave of it: a row is
    matched when its code is among the ids that the rows before it have
    left, and it takes the first occurrence of its code. *)
Fixpoint matching (rows : list row) (offer_ids : list string)
  : list row * list string :=
  match rows with
  | [] => ([], offer_ids)
  | watch :: rows' =>
      if decide (code watch ∈ offer_ids) then
        let '(matched, rest) := matching rows' (without (code watch) offer_ids) in
        (watch :: matched, rest)
      else matching rows' offer_ids
  end.

(** The quantity of a row has a stock count. *)
Definition has_stock_count (watch : row) : Prop :=
  is_Some (stock_count (get watch "Количество")).

(** A stock record that carries the code of a row and the stock count of
    its quantity. *)
Definition stock_for (watch : row) (r : Seller.Stock.t) : Prop :=
  Seller.Stock.offer_id r = code watch
  ∧ stock_count (get watch "Количество") = Some (Seller.Stock.stock r).

(** The record with stock 0 of a catalog id. *)
Definition zero_stock (offer_id : string) : Seller.Stock.t :=
  Seller.Stock.Make offer_id 0.

(** The rows a price record is made for. *)
Definition priced_rows (offer_ids : list string) (rows : list row) : list row :=
  filter (λ w, code w ∈ offer_ids) rows.

(** The stock record of market.py that carries the data of one of
    seller.py. *)
Definition market_stock (warehouse_id date : string) (s : Seller.Stock.t)
  : Market.Stock.t :=
  Market.Stock.Make (Seller.Stock.offer_id s) warehouse_id
    [Market.Item.Make (Seller.Stock.stock s) "FIT" date].

(** The loop state of market.py that corresponds to one of seller.py. *)
Definition as_market (warehouse_id date : string)
  (st : list Seller.Stock.t * list string) : list Market.Stock.t * list string :=
  (market_stock warehouse_id date <$> st.1, st.2).

(** The price record of seller.py for a row. *)
Definition seller_price (watch : row) : result Seller.Price.t :=
  converted ← Seller.price_conversion (get watch "Цена");
  Ok (Seller.Price.Make "UNKNOWN" "RUB" (code watch) "0" converted).

(** The price record of market.py for a row. *)
Definition market_price (watch : row) : result Market.Price.t :=
  converted ← Seller.price_conversion (get watch "Цена");
  value ← int (PStr converted);
  Ok (Market.Price.Make (code watch) (Market.Value.Make value "RUR")).

(** A price record of seller.py made for a row: the code of the row, the
    normalised price, the fixed fields. *)
Definition seller_priced (watch : row) (p : Seller.Price.t) : Prop :=
  Seller.price_conversion (get watch "Цена") = Ok (Seller.Price.price p)
  ∧ Seller.Price.offer_id p = code watch
  ∧ Seller.Price.auto_action_enabled p = "UNKNOWN"
  ∧ Seller.Price.currency_code p = "RUB"
  ∧ Seller.Price.old_price p = "0".

(** A price record of market.py made for a row: the code of the row, the
    number the normalised price writes, the currency. *)
Definition market_priced (watch : row) (p : Market.Price.t) : Prop :=
  (∃ digits, Seller.price_conversion (get watch "Цена") = Ok digits
             ∧ int_of_str digits = Some (Market.Value.value (Market.Price.price p)))
  ∧ Market.Price.id p = code watch
  ∧ Market.Value.currencyId (Market.Price.price p) = "RUR".

(** The price cell of a row holds a [str]. *)
Definition price_is_str (watch : row) : Prop :=
  is_str (get watch "Цена") = true.

(** A normalised price that writes a number: at least one digit, and no
    more than [int] reads. *)
Definition writes_number (digits : string) : bool :=
  negb (String.eqb digits EmptyString)
  && (Z.of_nat (String.length digits) <=? max_str_digits).

(** The normalised price of a row writes a number. *)
Definition price_is_number (watch : row) : Prop :=
  match Seller.price_conversion (get watch "Цена") with
  | Ok digits => writes_number digits
  | Err _ => false
  end = true.

(** A list of results as the result of a list: the first failure wins. *)
Fixpoint collect {A} (rs : list (result A)) : result (list A) :=
  match rs with
  | [] => Ok []
  | r :: rs' => a ← r; as' ← collect rs'; Ok (a :: as')
  end.

(** The chunks of width [N] of [S] at the offsets [0, N, .., (c-1) * N]. *)
Definition windows {A} (N : nat) (S : list A) (c : nat) : list (list A) :=
  map (λ k, take N (drop (k * N) S)) (seq 0%nat c).

Definition all_digits (s : string) : Prop :=
  Forall (λ c, is_digit c = true) (list_ascii_of_string s).

End Spec.

Import Spec.

(** ** Sample data *)

Module Examples.

Definition watch_63433 : row :=
  {[ "Код" := PStr "63433"; "Количество" := PStr ">10";
     "Цена" := PStr "2'240.00 руб." ]}.

(** A row whose code and quantity are numeric cells. *)
Definition watch_777 : row :=
  {[ "Код" := PInt 777; "Количество" := PInt 1; "Цена" := PStr "990.00" ]}.

(** A listed row whose quantity is not a number. *)
Definition watch_no_quantity : row :=
  {[ "Код" := PStr "99999"; "Количество" := PStr "нет"; "Цена" := PStr "100" ]}.

(** A listed row whose price cell is empty. *)
Definition watch_no_price : row :=
  {[ "Код" := PStr "99999"; "Количество" := PStr "3"; "Цена" := PStr "" ]}.

Definition catalog : list string := ["63433"; "99999"].

Definition date : string := "2025-01-20T17:14:52Z".

(** A world in which every call succeeds. *)
Definition fair_seller : IO.world Seller.Stock.t Seller.Price.t :=
  IO.World (λ _ _ _, Ok catalog) (λ _, Ok [watch_63433])
           (λ _ _ _ _, Ok tt) (λ _ _ _ _, Ok tt) (λ _, date).

Definition fair_market : IO.world Market.Stock.t Market.Price.t :=
  IO.World (λ _ _ _, Ok catalog) (λ _, Ok [watch_63433])
           (λ _ _ _ _, Ok tt) (λ _ _ _ _, Ok tt) (λ _, date).

(** A world in which the listing of the shop ["fbs"] answers with an HTTP
    error and everything else succeeds. *)
Definition fbs_down : IO.world Market.Stock.t Market.Price.t :=
  IO.World (λ _ id _, if String.eqb id "fbs" then Err HTTPError else Ok catalog)
           (λ _, Ok [watch_63433])
           (λ _ _ _ _, Ok tt) (λ _ _ _ _, Ok tt) (λ _, date).

(** A world of seller.py in which every stock update answers with an
    HTTP error. *)
Definition stocks_down : IO.world Seller.Stock.t Seller.Price.t :=
  IO.World (λ _ _ _, Ok catalog) (λ _, Ok [watch_63433])
           (λ _ _ _ _, Err HTTPError) (λ _ _ _ _, Ok tt) (λ _, date).

(** A world of seller.py in which the spreadsheet has a listed row without
    a numeric quantity. *)
Definition bad_quantity : IO.world Seller.Stock.t Seller.Price.t :=
  IO.World (λ _ _ _, Ok catalog) (λ _, Ok [watch_63433; watch_no_quantity])
           (λ _ _ _ _, Ok tt) (λ _ _ _ _, Ok tt) (λ _, date).

(** A listing of seller.py in two pages, 2 products of 3 and then the
    third; the second page is asked for with the [last_id] of the first. *)
Definition ozon_page_1 : Seller.Page.t :=
  Seller.Page.Make
    (Some [Seller.Product.Make 1 "63433"; Seller.Product.Make 2 "99999"])
    (Some 3) "bnVsbA==".

Definition ozon_page_2 : Seller.Page.t :=
  Seller.Page.Make (Some [Seller.Product.Make 3 "77777"]) (Some 3) "".

Definition ozon : Seller.listing := λ n last_id _ _,
  match n with
  | O => Ok (Some ozon_page_1)
  | S O => if String.eqb last_id "bnVsbA==" then Ok (Some ozon_page_2)
           else Err HTTPError
  | _ => Err HTTPError
  end.

(** A listing of seller.py whose second answer has no ["items"]. *)
Definition ozon_broken : Seller.listing := λ n _ _ _,
  match n with
  | O => Ok (Some ozon_page_1)
  | _ => Ok (Some (Seller.Page.Make None (Some 3) ""))
  end.

(** A listing of market.py in two pages. *)
Definition entry (shopSku : string) : Market.Entry.t :=
  Market.Entry.Make (Some (Market.Offer.Make shopSku)).

Definition yandex_page_1 : Market.Page.t :=
  Market.Page.Make (Some [entry "63433"; entry "99999"]) (Some (Some "eyJuZXh0")).

Definition yandex_page_2 : Market.Page.t :=
  Market.Page.Make (Some [entry "77777"]) (Some None).

Definition yandex : Market.listing := λ n page _ _,
  match n with
  | O => Ok (Some yandex_page_1)
  | S O => if String.eqb page "eyJuZXh0" then Ok (Some yandex_page_2)
           else Err HTTPError
  | _ => Err HTTPError
  end.

(** A listing of market.py whose answer has no ["paging"]. *)
Definition yandex_broken : Market.listing := λ _ _ _ _,
  Ok (Some (Market.Page.Make (Some [entry "63433"]) None)).

(** A listing of market.py in one page, whose second entry has no
    ["offer"]. *)
Definition yandex_no_offer : Market.listing := λ _ _ _ _,
  Ok (Some (Market.Page.Make (Some [entry "63433"; Market.Entry.Make None])
              (Some None))).

(** A catalog in which an id is repeated. *)
Definition catalog_twice : list string := ["63433"; "99999"; "63433"].

(** A listed row whose price has 4301 digits. *)
Definition watch_long_price : row :=
  {[ "Код" := PStr "99999"; "Количество" := PStr "3";
     "Цена" := PStr (String.concat "" (replicate 4301 "9")) ]}.

(** A world of seller.py in which the catalog cannot be fetched. *)
Definition no_catalog : IO.world Seller.Stock.t Seller.Price.t :=
  IO.World (λ _ _ _, Err HTTPError) (λ _, Ok [watch_63433])
           (λ _ _ _ _, Ok tt) (λ _ _ _ _, Ok tt) (λ _, date).

(** A world of seller.py with a repeated catalog id, in which every price
    update answers with an HTTP error. *)
Definition prices_down : IO.world Seller.Stock.t Seller.Price.t :=
  IO.World (λ _ _ _, Ok catalog_twice) (λ _, Ok [watch_63433])
           (λ _ _ _ _, Ok tt) (λ _ _ _ _, Err HTTPError) (λ _, date).

(** A world in which the spreadsheet cannot be downloaded. *)
Definition no_spreadsheet : IO.world Market.Stock.t Market.Price.t :=
  IO.World (λ _ _ _, Ok catalog) (λ _, Err ConnectionError)
           (λ _ _ _ _, Ok tt) (λ _ _ _ _, Ok tt) (λ _, date).

End Examples.

(** ** Vocabulary of the runs *)

Module Runs.

(** The stock-update calls that send the chunks, one call per chunk. *)
Definition stock_calls {stock price} (id token : string) (chunks : list (list stock))
  : IO.trace stock price :=
  (λ chunk, IO.Called (IO.UpdateStocks chunk id token)) <$> chunks.

(** The price-update calls that send the chunks, one call per chunk. *)
Definition price_calls {stock price} (id token : string) (chunks : list (list price))
  : IO.trace stock price :=
  (λ chunk, IO.Called (IO.UpdatePrice chunk id token)) <$> chunks.

(** Chunks that split [l] into runs of 1 to [n] elements. *)
Definition splits {A} (n : Z) (l : list A) (chunks : list (list A)) : Prop :=
  concat chunks = l ∧ Forall (λ c, 0 < Z.of_nat (length c) ≤ n) chunks.

(** The world acknowledges the stock updates that send the chunks one
    after the other, the first after the history [t]. *)
Definition stocks_acked {stock price} (w : IO.world stock price) (id token : string)
  (t : IO.trace stock price) (chunks : list (list stock)) : Prop :=
  ∀ i chunk, chunks !! i = Some chunk →
    IO.stocks_answer w (t ++ stock_calls id token (take i chunks)) chunk id token
    = Ok tt.

(** The world acknowledges the price updates that send the chunks one
    after the other, the first after the history [t]. *)
Definition prices_acked {stock price} (w : IO.world stock price) (id token : string)
  (t : IO.trace stock price) (chunks : list (list price)) : Prop :=
  ∀ i chunk, chunks !! i = Some chunk →
    IO.price_answer w (t ++ price_calls id token (take i chunks)) chunk id token
    = Ok tt.

End Runs.

Import Runs.

(** ** Vocabulary of the catalog listings *)

Module Listings.

(** The products of a page of seller.py. *)
Definition products (p : Seller.Page.t) : list Seller.Product.t :=
  default [] (Seller.Page.items p).

Definition all_products (ps : list Seller.Page.t) : list Seller.Product.t :=
  ps ≫= products.

(** The pages [ps] are the answers to the requests number [n], [n + 1],
    ... of seller.py, the first carrying [last_id] and each other one the
    ["last_id"] of the page before it. *)
Fixpoint ozon_serves (srv : Seller.listing) (client_id seller_token : string)
  (n : nat) (last_id : string) (ps : list Seller.Page.t) : Prop :=
  match ps with
  | [] => True
  | p :: ps' =>
      srv n last_id client_id seller_token = Ok (Some p)
      ∧ is_Some (Seller.Page.items p)
      ∧ ozon_serves srv client_id seller_token (S n) (Seller.Page.last_id p) ps'
  end.

(** With [have] products in hand, none of the pages [ps] brings the
    number of products to the ["total"] it announces. *)
Fixpoint ozon_goes_on (have : nat) (ps : list Seller.Page.t) : Prop :=
  match ps with
  | [] => True
  | p :: ps' =>
      Seller.Page.total p ≠ Some (Z.of_nat (have + length (products p)))
      ∧ ozon_goes_on (have + length (products p)) ps'
  end.

(** The entries of a page of market.py and the token of the next one. *)
Definition entries (p : Market.Page.t) : list Market.Entry.t :=
  default [] (Market.Page.offerMappingEntries p).

(** The ["shopSku"] of an entry, when the entry has an ["offer"]. *)
Definition sku_of (product : Market.Entry.t) : option string :=
  Market.Offer.shopSku <$> Market.Entry.offer product.

(** The ["shopSku"] of all the entries, in order, or the exception an
    entry without ["offer"] raises. *)
Definition skus_of (product_list : list Market.Entry.t) : result (list string) :=
  match mapM sku_of product_list with
  | Some offer_ids => Ok offer_ids
  | None => Err AttributeError
  end.

(** The entries of the answers to the requests of [log], the first of
    which is the request number [n]. *)
Fixpoint entries_read (srv : Market.listing) (campaign_id market_token : string)
  (n : nat) (log : list string) : list Market.Entry.t :=
  match log with
  | [] => []
  | page :: log' =>
      match srv n page campaign_id market_token with
      | Ok (Some p) => entries p
      | _ => []
      end ++ entries_read srv campaign_id market_token (S n) log'
  end.

Definition all_entries (ps : list Market.Page.t) : list Market.Entry.t :=
  ps ≫= entries.

Definition next_token (p : Market.Page.t) : string :=
  default EmptyString (default None (Market.Page.paging p)).

(** A page of market.py that names a next page. *)
Definition has_next (p : Market.Page.t) : Prop :=
  ∃ token, Market.Page.paging p = Some (Some token) ∧ token ≠ EmptyString.

(** A page of market.py that names no next page: the token is [None] or
    empty. *)
Definition is_last (p : Market.Page.t) : Prop :=
  Market.Page.paging p = Some None ∨ Market.Page.paging p = Some (Some EmptyString).

(** The pages [ps] are the answers to the requests number [n], [n + 1],
    ... of market.py, the first carrying [page] and each other one the
    token of the page before it. *)
Fixpoint yandex_serves (srv : Market.listing) (campaign_id market_token : string)
  (n : nat) (page : string) (ps : list Market.Page.t) : Prop :=
  match ps with
  | [] => True
  | p :: ps' =>
      srv n page campaign_id market_token = Ok (Some p)
      ∧ is_Some (Market.Page.offerMappingEntries p)
      ∧ yandex_serves srv campaign_id market_token (S n) (next_token p) ps'
  end.

End Listings.

Import Listings.

(** * Properties *)

Ltac unfold_bind := unfold mbind, result_bind, fmap, result_fmap, Py.bind in *.

(** ** The price normaliser *)

Section PriceConversion.

Lemma split_head_prefix sep s :
  ∃ rest, s = split_head sep s +:+ rest
          ∧ (rest = EmptyString ∨ ∃ r, rest = String sep r).
Proof.
  induction s as [|c s IH]; simpl.
  - exists EmptyString. auto.
  - destruct (Ascii.eqb_spec c sep) as [->|Hne].
    + exists (String sep s). eauto.
    + destruct IH as (rest & Hs & Hrest). exists rest. simpl.
      split; [|done].
      change (String c s = String c (split_head sep s +:+ rest)). by f_equal.
Qed.

Lemma split_head_no_sep sep s :
  sep ∉ list_ascii_of_string (split_head sep s).
Proof.
  induction s as [|c s IH]; simpl.
  - apply not_elem_of_nil.
  - destruct (Ascii.eqb_spec c sep) as [->|Hne]; simpl.
    + apply not_elem_of_nil.
    + rewrite not_elem_of_cons. split; [congruence | done].
Qed.

Lemma sub_non_digits_filter s :
  list_ascii_of_string (sub_non_digits s)
  = filter (λ c, is_digit c = true) (list_ascii_of_string s).
Proof.
  induction s as [|c s IH]; simpl; [done|].
  rewrite filter_cons. destruct (decide (is_digit c = true)) as [Hc|Hc].
  - rewrite Hc. simpl. by rewrite IH.
  - apply not_true_is_false in Hc. by rewrite Hc.
Qed.

Lemma sub_non_digits_all_digits s : all_digits (sub_non_digits s).
Proof.
  unfold all_digits. rewrite sub_non_digits_filter. apply Forall_forall.
  intros c Hc. by apply list_elem_of_filter in Hc as [? _].
Qed.

End PriceConversion.

(** C7.  On a [str], [price_conversion] returns the digits of the text
    before the first ["."], in their order: the text before the first ["."]
    is a prefix of the argument that holds no ["."] and is either all of it
    or followed by a ["."]; the result keeps exactly its characters [0-9], so
    it is all digits, and it may be empty.  On a value that is not a [str]
    ([None], an [int]) no value is returned: the exception raised is
    [AttributeError], because [split] is looked up before [re.sub] is
    reached, where the docstring announces [TypeError]. *)
Theorem price_conversion_digits_before_dot :
  (∀ s : string, ∃ pre rest : string,
      s = pre +:+ rest
      ∧ (rest = EmptyString ∨ ∃ r, rest = String "." r)
      ∧ ("."%char ∉ list_ascii_of_string pre)
      ∧ ∃ digits : string,
          Seller.price_conversion (PStr s) = Ok digits
          ∧ list_ascii_of_string digits
            = filter (λ c, is_digit c = true) (list_ascii_of_string pre)
          ∧ Forall (λ c, is_digit c = true) (list_ascii_of_string digits))
  ∧ Seller.price_conversion (PStr "abc") = Ok EmptyString
  ∧ Seller.price_conversion PNone = Err AttributeError
  ∧ (∀ n : Z, Seller.price_conversion (PInt n) = Err AttributeError)
  ∧ Seller.price_conversion (PInt 1000) ≠ Err TypeError.
Proof.
  split; [|by repeat split].
  intros s. destruct (split_head_prefix "." s) as (rest & Hs & Hrest).
  exists (split_head "." s), rest. repeat split; try done.
  - apply split_head_no_sep.
  - exists (sub_non_digits (split_head "." s)). repeat split.
    + apply sub_non_digits_filter.
    + apply sub_non_digits_all_digits.
Qed.

(** ** The chunker *)

Section Divide.
Context {A : Type}.
Implicit Types (S : list A) (n : Z) (N k c : nat).

Lemma windows_succ N S c :
  windows N S (Datatypes.S c) = windows N S c ++ [take N (drop (c * N) S)].
Proof. unfold windows. by rewrite seq_S, map_app. Qed.

Lemma windows_concat N S c : concat (windows N S c) = take (c * N) S.
Proof.
  induction c as [|c IH]; [done|].
  rewrite windows_succ, concat_app, IH. simpl. rewrite app_nil_r.
  rewrite take_take_drop. f_equal. lia.
Qed.

Lemma windows_length N S c : length (windows N S c) = c.
Proof. unfold windows. by rewrite length_map, length_seq. Qed.

Lemma windows_lookup N S c k ch :
  windows N S c !! k = Some ch → (k < c)%nat ∧ ch = take N (drop (k * N) S).
Proof.
  unfold windows. rewrite list_lookup_fmap. intros H.
  destruct (seq 0 c !! k) as [j|] eqn:Hj; [|done].
  apply lookup_seq in Hj as [-> ?]. simpl in H. by inversion H.
Qed.

Lemma slice_window S n k :
  0 < n → (k * Z.to_nat n < length S)%nat →
  slice S (0 + Z.of_nat k * n) (0 + Z.of_nat k * n + n)
  = take (Z.to_nat n) (drop (k * Z.to_nat n) S).
Proof.
  intros Hn Hk. unfold slice, slice_bound.
  assert (Hkn : Z.of_nat (k * Z.to_nat n) = Z.of_nat k * n) by lia.
  assert (H0 : 0 ≤ Z.of_nat k * n) by lia.
  rewrite !(proj2 (Z.ltb_ge _ _)) by lia.
  replace (Z.to_nat (Z.min (0 + Z.of_nat k * n) (Z.of_nat (length S))))
    with (k * Z.to_nat n)%nat by lia.
  destruct (Z.le_gt_cases (0 + Z.of_nat k * n + n) (Z.of_nat (length S))) as [Hle|Hgt].
  - f_equal. lia.
  - rewrite !take_ge; [done| |]; rewrite length_drop; lia.
Qed.

Lemma range_len_ceil len n :
  0 ≤ len → 0 < n →
  range_len 0 len n = (len + n - 1) / n
  ∧ n * (range_len 0 len n - 1) < len ≤ n * range_len 0 len n.
Proof.
  intros Hlen Hn. unfold range_len.
  rewrite (proj2 (Z.ltb_lt 0 n)) by done. simpl.
  destruct (Z.ltb_spec 0 len) as [Hpos|Hzero].
  - replace (len + n - 1) with ((len - 1 - 0) + 1 * n) by lia.
    rewrite Z.div_add by lia. split; [lia|].
    pose proof (Z.mul_div_le (len - 1 - 0) n Hn).
    pose proof (Z.mul_succ_div_gt (len - 1 - 0) n Hn). lia.
  - assert (len = 0) as -> by lia.
    rewrite (proj2 (Z.ltb_ge n 0)) by lia. simpl.
    rewrite Z.div_small by lia. lia.
Qed.

Lemma divide_windows S n :
  0 < n →
  Seller.divide S n
  = Ok (windows (Z.to_nat n) S (Z.to_nat (range_len 0 (Z.of_nat (length S)) n))).
Proof.
  intros Hn. unfold Seller.divide, range.
  rewrite (proj2 (Z.eqb_neq n 0)) by lia. simpl. f_equal.
  unfold windows. rewrite map_map. apply map_ext_in.
  intros k Hk%in_seq. apply slice_window; [done|].
  destruct (range_len_ceil (Z.of_nat (length S)) n) as [_ [Hlo _]]; [lia|done|].
  nia.
Qed.

End Divide.

(** C8.  For a positive [n], [divide] yields chunks whose concatenation, in
    order, is the sequence itself; every chunk has at most [n] elements;
    there are [ceil(len(S) / n)] of them; every chunk but the last has
    exactly [n] elements and no chunk is empty, so only the last one can be
    shorter. *)
Theorem divide_partitions {A} (S : list A) (n : Z) :
  0 < n →
  ∃ chunks : list (list A),
    Seller.divide S n = Ok chunks
    ∧ concat chunks = S
    ∧ Forall (λ c, 0 < Z.of_nat (length c) ≤ n) chunks
    ∧ Z.of_nat (length chunks) = (Z.of_nat (length S) + n - 1) / n
    ∧ n * (Z.of_nat (length chunks) - 1) < Z.of_nat (length S)
        ≤ n * Z.of_nat (length chunks)
    ∧ ∀ (i : nat) (c : list A),
        chunks !! i = Some c → (i + 1 < length chunks)%nat →
        Z.of_nat (length c) = n.
Proof.
  intros Hn. eexists. split; [by apply divide_windows|].
  destruct (range_len_ceil (Z.of_nat (length S)) n) as [Hceil [Hlo Hhi]];
    [lia|done|].
  set (c := range_len 0 (Z.of_nat (length S)) n) in *.
  assert (Hc : 0 ≤ c) by (rewrite Hceil; apply Z.div_pos; lia).
  repeat split.
  - rewrite windows_concat. apply take_ge. nia.
  - apply Forall_forall. intros ch Hch.
    apply list_elem_of_lookup in Hch as [k Hk].
    apply windows_lookup in Hk as [Hk ->].
    rewrite length_take, length_drop. nia.
  - rewrite windows_length. lia.
  - rewrite windows_length. lia.
  - rewrite windows_length. lia.
  - intros i ch Hi Hlast. rewrite windows_length in Hlast.
    apply windows_lookup in Hi as [Hi ->].
    rewrite length_take, length_drop. nia.
Qed.

Lemma divide_partitions_witness :
  ∃ chunks : list (list Z),
    Seller.divide [1; 2; 3; 4; 5] 2 = Ok chunks
    ∧ concat chunks = [1; 2; 3; 4; 5]
    ∧ Forall (λ c, 0 < Z.of_nat (length c) ≤ 2) chunks
    ∧ Z.of_nat (length chunks) = (Z.of_nat (length [1; 2; 3; 4; 5]) + 2 - 1) / 2
    ∧ 2 * (Z.of_nat (length chunks) - 1) < Z.of_nat (length [1; 2; 3; 4; 5])
        ≤ 2 * Z.of_nat (length chunks)
    ∧ ∀ (i : nat) (c : list Z),
        chunks !! i = Some c → (i + 1 < length chunks)%nat →
        Z.of_nat (length c) = 2.
Proof. apply (divide_partitions [1; 2; 3; 4; 5] 2). lia. Defined.

(** C9.  With [n = 0] running [divide] raises [ValueError] (the step of
    [range] must not be zero), whatever the sequence; with a negative [n]
    it yields no chunk and raises nothing. *)
Theorem divide_zero_raises_negative_empty {A} (S : list A) :
  Seller.divide S 0 = Err ValueError
  ∧ ∀ n : Z, n < 0 → Seller.divide S n = Ok [].
Proof.
  split; [done|]. intros n Hn. unfold Seller.divide, range, range_len.
  rewrite (proj2 (Z.eqb_neq n 0)) by lia.
  rewrite (proj2 (Z.ltb_ge 0 n)) by lia.
  rewrite (proj2 (Z.ltb_lt n 0)) by lia.
  rewrite (proj2 (Z.ltb_ge _ 0)) by lia. done.
Qed.

Lemma divide_zero_raises_negative_empty_witness :
  Seller.divide [1; 2; 3; 4; 5; 6] 0 = Err ValueError
  ∧ Seller.divide [1; 2; 3; 4; 5; 6] (-2) = Ok [].
Proof.
  destruct (divide_zero_raises_negative_empty [1; 2; 3; 4; 5; 6]) as [H0 Hneg].
  split; [exact H0 | apply Hneg; lia].
Defined.

(** ** Reading and printing integers *)

Section IntOfStr.

Lemma digit_not_space c : is_digit c = true → is_space c = false.
Proof.
  unfold is_digit, is_space. generalize (nat_of_ascii c). intros n.
  rewrite andb_true_iff, !Nat.leb_le. intros [? ?].
  apply orb_false_iff. split.
  - apply andb_false_iff. right. apply Nat.leb_gt. lia.
  - apply Nat.eqb_neq. lia.
Qed.

Lemma digit_ascii c : is_digit c = true → (byte c <? 128) = true.
Proof.
  unfold is_digit, byte. rewrite andb_true_iff, !Nat.leb_le. intros [_ H].
  apply Z.ltb_lt. unfold nat_of_ascii in H. lia.
Qed.

Lemma all_digits_ascii s : all_digits s → is_ascii s = true.
Proof.
  unfold all_digits, is_ascii.
  induction 1 as [|c l Hc _ IH]; [done|]. simpl.
  by rewrite (digit_ascii c Hc), IH.
Qed.

Lemma int_of_str_ascii s : is_ascii s = true → int_of_str s = long_from_string s.
Proof. intros H. unfold int_of_str, decimal_and_space_to_ascii. by rewrite H. Qed.

Lemma digit_not_sign c :
  is_digit c = true →
  Ascii.eqb c "-" = false ∧ Ascii.eqb c "+" = false ∧ Ascii.eqb c "_" = false.
Proof.
  intros Hc. repeat split; apply Ascii.eqb_neq; intros ->; discriminate.
Qed.

Lemma all_digits_cons c s :
  all_digits (String c s) ↔ is_digit c = true ∧ all_digits s.
Proof. unfold all_digits. simpl. by rewrite Forall_cons. Qed.

Lemma lstrip_no_space c s : is_space c = false → lstrip (String c s) = String c s.
Proof. intros H. simpl. by rewrite H. Qed.

Lemma rstrip_cons c s :
  rstrip s ≠ EmptyString → rstrip (String c s) = String c (rstrip s).
Proof. intros H. simpl. by destruct (rstrip s). Qed.

Lemma rstrip_digits s : all_digits s → rstrip s = s.
Proof.
  induction s as [|c s IH]; [done|].
  rewrite all_digits_cons. intros [Hc Hs]. simpl. rewrite (IH Hs).
  destruct s; [by rewrite (digit_not_space c Hc) | done].
Qed.

Lemma literal_digits_all s :
  all_digits s → literal_digits true s = Some s.
Proof.
  induction s as [|c s IH]; [done|].
  rewrite all_digits_cons. intros [Hc Hs]. simpl.
  by rewrite Hc, (IH Hs).
Qed.

Lemma literal_digits_nonempty c s :
  all_digits (String c s) → literal_digits false (String c s) = Some (String c s).
Proof.
  rewrite all_digits_cons. intros [Hc Hs]. simpl.
  by rewrite Hc, (literal_digits_all s Hs).
Qed.

Lemma uint_of_string_digits s :
  all_digits s → ∃ d, NilEmpty.uint_of_string s = Some d.
Proof.
  induction s as [|c s IH]; [by eexists|].
  rewrite all_digits_cons. intros [Hc Hs].
  destruct (IH Hs) as [d Hd]. simpl. rewrite Hd.
  destruct c as [[|] [|] [|] [|] [|] [|] [|] [|]];
    try discriminate Hc; by eexists.
Qed.

Lemma string_of_uint_digits d : all_digits (NilEmpty.string_of_uint d).
Proof.
  induction d; simpl; try (apply all_digits_cons; split; [done|assumption]).
  constructor.
Qed.

(** On a run of digits [int] reads the number they write, unless there
    are none or more than [max_str_digits] of them. *)
Lemma int_of_str_all_digits s :
  all_digits s →
  int_of_str s = if decide (s = EmptyString) then None else digits_value s.
Proof.
  intros Hs. rewrite int_of_str_ascii by by apply all_digits_ascii.
  destruct s as [|c s]; [done|]. rewrite decide_False by done.
  pose proof Hs as [Hc Hs']%all_digits_cons.
  destruct (digit_not_sign c Hc) as (Hm & Hp & _).
  unfold long_from_string, strip.
  rewrite lstrip_no_space by by apply digit_not_space.
  rewrite rstrip_digits by done. rewrite Hm, Hp.
  by rewrite literal_digits_nonempty.
Qed.

Lemma int_of_str_digits s d :
  all_digits s → s ≠ EmptyString →
  Z.of_nat (String.length s) ≤ max_str_digits →
  NilEmpty.uint_of_string s = Some d →
  int_of_str s = Some (Z.of_uint d).
Proof.
  intros Hs Hne Hlen Hd. rewrite int_of_str_all_digits, decide_False by done.
  unfold digits_value. rewrite Hd.
  by destruct (Z.leb_spec (Z.of_nat (String.length s)) max_str_digits); [|lia].
Qed.

Lemma int_of_str_empty : int_of_str EmptyString = None.
Proof. done. Qed.

(** A run of more than [max_str_digits] digits is refused. *)
Lemma int_of_str_long s :
  all_digits s → max_str_digits < Z.of_nat (String.length s) → int_of_str s = None.
Proof.
  intros Hs Hlen. rewrite int_of_str_all_digits by done.
  destruct (decide _); [done|]. unfold digits_value.
  by destruct (Z.leb_spec (Z.of_nat (String.length s)) max_str_digits); [lia|].
Qed.

Lemma str_of_int_read n : NilZero.int_of_string (str_of_int n) = Some (Z.to_int n).
Proof.
  unfold str_of_int. apply NilZero.isi.
  - destruct n as [|p|p]; simpl; try done.
    intros [= H]. by apply (DecimalPos.Unsigned.to_uint_nonnil p).
  - destruct n as [|p|p]; simpl; try done.
    intros [= H]. by apply (DecimalPos.Unsigned.to_uint_nonnil p).
Qed.

Lemma str_of_int_inj n m : str_of_int n = str_of_int m → n = m.
Proof.
  intros H. apply DecimalZ.to_int_inj.
  pose proof (str_of_int_read n) as Hn. rewrite H, str_of_int_read in Hn.
  by injection Hn.
Qed.

Lemma str_of_int_not_many n : str_of_int n ≠ ">10".
Proof. intros H. pose proof (str_of_int_read n) as Hn. by rewrite H in Hn. Qed.

Lemma str_of_int_one n : str_of_int n = "1" ↔ n = 1.
Proof. split; [|by intros ->]. intros H. by apply str_of_int_inj. Qed.

Lemma digits_length_positive p :
  Z.of_nat (String.length (str_of_int (Z.pos p))) ≤ max_str_digits →
  int_of_str (str_of_int (Z.pos p)) = Some (Z.pos p).
Proof.
  unfold str_of_int. simpl. intros Hlen.
  pose proof (DecimalPos.Unsigned.to_uint_nonnil p) as Hnil.
  assert (NilZero.string_of_uint (Pos.to_uint p)
          = NilEmpty.string_of_uint (Pos.to_uint p)) as Heq
    by by destruct (Pos.to_uint p).
  rewrite Heq in *.
  rewrite (int_of_str_digits _ (Pos.to_uint p)).
  - unfold Z.of_uint. by rewrite DecimalPos.Unsigned.of_to.
  - apply string_of_uint_digits.
  - by destruct (Pos.to_uint p).
  - done.
  - apply NilEmpty.usu.
Qed.

Lemma digits_length_negative p :
  Z.of_nat (String.length (str_of_int (Z.neg p))) ≤ max_str_digits →
  int_of_str (str_of_int (Z.neg p)) = Some (Z.neg p).
Proof.
  intros Hlen.
  assert (Hpos : int_of_str (str_of_int (Z.pos p)) = Some (Z.pos p)).
  { apply digits_length_positive. unfold str_of_int in *. simpl in *. lia. }
  unfold str_of_int in *. simpl in Hpos |- *. clear Hlen.
  set (ds := NilZero.string_of_uint (Pos.to_uint p)) in *.
  assert (Hds : all_digits ds).
  { unfold ds. destruct (Pos.to_uint p) eqn:E;
      try (rewrite <- E; simpl; rewrite E; apply string_of_uint_digits).
    by apply all_digits_cons. }
  assert (Hne : ds ≠ EmptyString).
  { unfold ds. pose proof (DecimalPos.Unsigned.to_uint_nonnil p).
    by destruct (Pos.to_uint p). }
  destruct ds as [|c ds']; [done|].
  pose proof Hds as [Hc Hs']%all_digits_cons.
  destruct (digit_not_sign c Hc) as (Hm & Hp & _).
  rewrite int_of_str_ascii in Hpos by by apply all_digits_ascii.
  rewrite int_of_str_ascii
    by (unfold is_ascii; simpl; by apply (all_digits_ascii (String c ds'))).
  unfold long_from_string, strip in *.
  rewrite lstrip_no_space in Hpos by by apply digit_not_space.
  rewrite rstrip_digits in Hpos by done. rewrite Hm, Hp in Hpos.
  rewrite lstrip_no_space by done.
  assert (rstrip (String "-" (String c ds')) = String "-" (String c ds')) as ->.
  { rewrite rstrip_cons; by rewrite rstrip_digits. }
  simpl Ascii.eqb. cbv iota.
  destruct (literal_digits false (String c ds') ≫= digits_value) as [z|];
    [|done].
  simpl in *. by inversion Hpos.
Qed.

(** Reading back what [str] prints of an [int], when that is not longer
    than [int] accepts. *)
Lemma int_of_str_of_int n :
  Z.of_nat (String.length (str_of_int n)) ≤ max_str_digits →
  int_of_str (str_of_int n) = Some n.
Proof.
  destruct n as [|p|p]; [done| |].
  - apply digits_length_positive.
  - apply digits_length_negative.
Qed.

(** Literals [int] reads, and texts it refuses: white space around and
    underscores between digits are fine, and so are the digits and the
    white space of other scripts (here Arabic-Indic digits and a no-break
    space); the separator FS is no white space for [int]; a run of 4300
    digits is read, one of 4301 is not. *)
Lemma int_of_str_samples :
  int_of_str " 42 " = Some 42
  ∧ int_of_str "-1_000" = Some (-1000)
  ∧ int_of_str "٤٢" = Some 42
  ∧ int_of_str (String (ascii_of_nat 194) (String (ascii_of_nat 160) "5")) = Some 5
  ∧ int_of_str (String (ascii_of_nat 28) "5") = None
  ∧ int_of_str "4 2" = None
  ∧ int_of_str "3.5" = None
  ∧ int_of_str "1__0" = None
  ∧ int_of_str (String.concat "" (replicate 4300 "9")) = Some (10 ^ 4300 - 1)
  ∧ int_of_str (String.concat "" (replicate 4301 "9")) = None.
Proof. repeat (split; [vm_compute; reflexivity|]). vm_compute. reflexivity. Qed.

End IntOfStr.

(** ** Stock reconciliation *)

Lemma bind_ok {A B} (a : A) (k : A → result B) : Ok a ≫= k = k a.
Proof. done. Qed.

Lemma bind_err {A B} (e : exn) (k : A → result B) : Err e ≫= k = Err e.
Proof. done. Qed.

Lemma fmap_ok {A B} (f : A → B) (a : A) : f <$> Ok a = Ok (f a).
Proof. done. Qed.

Lemma fmap_err {A B} (f : A → B) (e : exn) : f <$> @Err A e = Err e.
Proof. done. Qed.

Section Loops.
Context {A S : Type} (body : A → S → result S).

Lemma for_each_cons x l s :
  for_each body (x :: l) s = body x s ≫= for_each body l.
Proof. done. Qed.

Lemma for_each_app l1 l2 s :
  for_each body (l1 ++ l2) s = for_each body l1 s ≫= for_each body l2.
Proof.
  revert s. induction l1 as [|x l1 IH]; intros s; [done|].
  simpl. unfold_bind. destruct (body x s); [apply IH | done].
Qed.

Lemma for_each_raise l1 l2 s e :
  for_each body l1 s = Err e → for_each body (l1 ++ l2) s = Err e.
Proof. intros H. by rewrite for_each_app, H. Qed.

End Loops.

Section Filter.
Context {A : Type} (P : A → Prop) `{!∀ x, Decision (P x)}.

Lemma filter_all (l : list A) : Forall P l → filter P l = l.
Proof.
  induction 1 as [|x l Hx _ IH]; [done|].
  by rewrite filter_cons_True, IH.
Qed.

Lemma filter_ext_in (P' : A → Prop) `{!∀ x, Decision (P' x)} (l : list A) :
  (∀ x, x ∈ l → P x ↔ P' x) → filter P l = filter P' l.
Proof.
  induction l as [|x l IH]; intros Hl; [done|].
  rewrite !filter_cons, IH.
  - destruct (decide (P x)) as [HP|HP], (decide (P' x)) as [HP'|HP'];
      try done; exfalso; apply (Hl x) in HP || apply (Hl x) in HP';
      try done; apply elem_of_cons; by left.
  - intros y Hy. apply Hl, elem_of_cons. by right.
Qed.

End Filter.

Section Remove.
Implicit Types (x : string) (l : list string).

Lemma remove_elem x l :
  x ∈ l →
  ∃ l', remove x l = Ok l'
        ∧ l ≡ₚ x :: l'
        ∧ l' `sublist_of` l
        ∧ (NoDup l → l' = filter (λ y, y ≠ x) l).
Proof.
  induction l as [|y l IH]; [by intros ?%elem_of_nil|].
  intros Hx. simpl. destruct (decide (x = y)) as [->|Hne].
  - exists l. repeat split; [done | by apply sublist_cons |].
    intros [Hy _]%NoDup_cons. rewrite filter_cons_False by naive_solver.
    symmetry. apply filter_all. apply Forall_forall. by intros z Hz ->.
  - apply elem_of_cons in Hx as [?|Hx]; [done|].
    destruct (IH Hx) as (l' & -> & Hperm & Hsub & Hnd). simpl.
    exists (y :: l'). repeat split.
    + rewrite Hperm. apply Permutation_swap.
    + by apply sublist_skip.
    + intros [_ Hl]%NoDup_cons. rewrite filter_cons_True by done.
      by rewrite <- Hnd.
Qed.

End Remove.

Section QuantityMapping.

(** The [if]/[elif]/[else] on the quantity, against the stock count of
    the cell. *)
Lemma stock_count_mapping v :
  to_option (if String.eqb (str v) ">10" then Ok 100
             else if String.eqb (str v) "1" then Ok 0
             else int v)
  = stock_count v.
Proof.
  destruct v as [|n|s]; simpl.
  - done.
  - destruct (String.eqb_spec (str_of_int n) ">10") as [H|_];
      [by apply str_of_int_not_many in H|].
    destruct (String.eqb_spec (str_of_int n) "1") as [H|H].
    + apply str_of_int_one in H. by rewrite decide_True.
    + rewrite decide_False; [done|]. intros ->. by apply H.
  - unfold quantity_mapping.
    destruct (String.eqb_spec s ">10") as [->|H1]; [done|].
    rewrite decide_False by done.
    destruct (String.eqb_spec s "1") as [->|H2]; [done|].
    rewrite decide_False by done. simpl. by destruct (int_of_str s).
Qed.

(** The exception of the [if]/[elif]/[else] is the one of [int]. *)
Lemma stock_count_raises v e :
  (if String.eqb (str v) ">10" then Ok 100
   else if String.eqb (str v) "1" then Ok 0
   else int v) = Err e →
  e = ValueError ∨ e = TypeError.
Proof.
  destruct (String.eqb _ _); [done|]. destruct (String.eqb _ _); [done|].
  destruct v as [|n|s]; simpl.
  - intros [= <-]. by right.
  - done.
  - destruct (int_of_str s); [done|]. intros [= <-]. by left.
Qed.

Lemma quantity_mapping_cases :
  quantity_mapping ">10" = Some 100
  ∧ quantity_mapping "1" = Some 0
  ∧ ∀ s, s ≠ ">10" → s ≠ "1" → quantity_mapping s = int_of_str s.
Proof.
  repeat split. intros s H1 H2. unfold quantity_mapping.
  by rewrite !decide_False.
Qed.

(** The decimal notation of a number is a quantity with that number as
    its stock count, the sentinel apart. *)
Lemma quantity_mapping_decimal n :
  n ≠ 1 → Z.of_nat (String.length (str_of_int n)) ≤ max_str_digits →
  quantity_mapping (str_of_int n) = Some n.
Proof.
  intros Hn Hlen. unfold quantity_mapping.
  rewrite decide_False by apply str_of_int_not_many.
  rewrite decide_False by by rewrite str_of_int_one.
  by apply int_of_str_of_int.
Qed.

End QuantityMapping.

Section SellerStocks.
Implicit Types (watch : row) (rows : list row) (cur : list string)
  (acc recs : list Seller.Stock.t).

Lemma seller_row_unmatched watch acc cur :
  code watch ∉ cur → Seller.create_stocks_row watch (acc, cur) = Ok (acc, cur).
Proof.
  intros H. unfold Seller.create_stocks_row, contains. fold (code watch).
  by rewrite bool_decide_eq_false_2.
Qed.

Lemma seller_row_matched watch acc cur :
  code watch ∈ cur →
  match stock_count (get watch "Количество") with
  | Some n =>
      ∃ cur', remove (code watch) cur = Ok cur'
              ∧ Seller.create_stocks_row watch (acc, cur)
                = Ok (acc ++ [Seller.Stock.Make (code watch) n], cur')
  | None => ∃ e, Seller.create_stocks_row watch (acc, cur) = Err e
  end.
Proof.
  intros H. destruct (remove_elem _ _ H) as (cur' & Hrm & _).
  unfold Seller.create_stocks_row, contains. fold (code watch).
  rewrite bool_decide_eq_true_2 by done.
  rewrite <- stock_count_mapping. unfold_bind.
  destruct (if String.eqb _ _ then _ else _) as [n|e]; simpl.
  - exists cur'. by rewrite Hrm.
  - by exists e.
Qed.

(** A row that raises is a matched row without a stock count, and the
    exception is the one of [int]. *)
Lemma seller_row_raises watch acc cur e :
  Seller.create_stocks_row watch (acc, cur) = Err e →
  e = ValueError ∨ e = TypeError.
Proof.
  unfold Seller.create_stocks_row, contains. fold (code watch).
  destruct (decide (code watch ∈ cur)) as [Hin|Hout].
  - rewrite bool_decide_eq_true_2 by done.
    destruct (remove_elem _ _ Hin) as (cur' & -> & _). unfold_bind.
    destruct (if String.eqb _ _ then _ else _) as [n|e'] eqn:Hcount; [done|].
    intros [= <-]. by apply stock_count_raises in Hcount.
  - by rewrite bool_decide_eq_false_2.
Qed.

Lemma first_of_code_filter (Q : string → Prop) `{!∀ x, Decision (Q x)} rows :
  first_of_code (filter (λ w, Q (code w)) rows)
  = filter (λ w, Q (code w)) (first_of_code rows).
Proof.
  induction rows as [|watch rows IH]; [done|].
  rewrite filter_cons. simpl first_of_code at 2. rewrite filter_cons.
  destruct (decide (Q (code watch))) as [HQ|HQ]; simpl.
  - f_equal. rewrite IH, !list_filter_filter.
    apply list_filter_iff. intros w. tauto.
  - rewrite IH, list_filter_filter. apply list_filter_iff.
    intros w. split; [|tauto]. intros Hw. split; [done|].
    intros Heq. by rewrite Heq in Hw.
Qed.

Lemma matched_rows_skip watch rows cur :
  code watch ∉ cur → matched_rows cur (watch :: rows) = matched_rows cur rows.
Proof. intros H. unfold matched_rows. by rewrite filter_cons_False. Qed.

Lemma matched_rows_take watch rows cur :
  code watch ∈ cur →
  matched_rows cur (watch :: rows)
  = watch :: matched_rows (filter (λ y, y ≠ code watch) cur) rows.
Proof.
  intros H. unfold matched_rows. rewrite filter_cons_True by done.
  simpl. f_equal.
  trans (first_of_code
           (filter (λ w, code w ≠ code watch) (filter (λ w, code w ∈ cur) rows))).
  - pose proof (first_of_code_filter (λ c, c ≠ code watch)
                  (filter (λ w, code w ∈ cur) rows)) as Hf.
    by symmetry.
  - f_equal. rewrite list_filter_filter. apply list_filter_iff.
    intros w. rewrite list_elem_of_filter. naive_solver.
Qed.

Lemma leftovers_skip watch rows cur :
  code watch ∉ cur → leftovers cur (watch :: rows) = leftovers cur rows.
Proof.
  intros H. unfold leftovers, codes. apply filter_ext_in.
  intros x Hx. simpl. rewrite not_elem_of_cons.
  split; [tauto|]. intros Hr. split; [|done]. by intros ->.
Qed.

Lemma leftovers_take watch rows cur :
  leftovers cur (watch :: rows)
  = leftovers (filter (λ y, y ≠ code watch) cur) rows.
Proof.
  unfold leftovers, codes. rewrite list_filter_filter.
  apply list_filter_iff. intros x. simpl. rewrite not_elem_of_cons. tauto.
Qed.

(** The first loop of [create_stocks], from any loop state. *)
Lemma seller_loop rows : ∀ acc cur stocks ids',
  for_each Seller.create_stocks_row rows (acc, cur) = Ok (stocks, ids') →
  ∃ recs,
    stocks = acc ++ recs
    ∧ cur ≡ₚ (Seller.Stock.offer_id <$> recs) ++ ids'
    ∧ ids' `sublist_of` cur
    ∧ (Seller.Stock.offer_id <$> recs) `sublist_of` codes rows
    ∧ (NoDup cur →
       ids' = leftovers cur rows ∧ Forall2 stock_for (matched_rows cur rows) recs).
Proof.
  induction rows as [|watch rows IH]; intros acc cur stocks ids' Hrun.
  { inversion Hrun; subst. exists []. rewrite app_nil_r. repeat split; try done.
    unfold leftovers. symmetry. apply filter_all.
    apply Forall_forall. intros x _. apply not_elem_of_nil. }
  rewrite for_each_cons in Hrun.
  destruct (decide (code watch ∈ cur)) as [Hin|Hout].
  - pose proof (seller_row_matched watch acc cur Hin) as Hstep.
    destruct (stock_count _) as [n|] eqn:Hq.
    + destruct Hstep as (cur' & Hrm & Hstep). rewrite Hstep in Hrun.
      simpl in Hrun.
      destruct (remove_elem _ _ Hin) as (cur'' & Hrm' & Hperm & Hsub & Hnd).
      rewrite Hrm in Hrm'. inversion Hrm'; subst cur''.
      destruct (IH _ _ _ _ Hrun) as (recs & -> & Hp & Hs & Hc & Hnodup).
      exists (Seller.Stock.Make (code watch) n :: recs). repeat split.
      * by rewrite <- app_assoc.
      * rewrite Hperm. simpl. by rewrite <- Hp.
      * by etrans.
      * simpl. by apply sublist_skip.
      * rewrite leftovers_take, <- (Hnd H). apply Hnodup.
        rewrite (Hnd H). by apply NoDup_filter.
      * rewrite matched_rows_take by done. constructor; [done|].
        rewrite <- (Hnd H). apply Hnodup.
        rewrite (Hnd H). by apply NoDup_filter.
    + destruct Hstep as [e Hstep]. by rewrite Hstep in Hrun.
  - rewrite seller_row_unmatched in Hrun by done. simpl in Hrun.
    destruct (IH _ _ _ _ Hrun) as (recs & -> & Hp & Hs & Hc & Hnodup).
    exists recs. repeat split; try done.
    + by apply sublist_cons.
    + rewrite leftovers_skip by done. by apply Hnodup.
    + rewrite matched_rows_skip by done. by apply Hnodup.
Qed.

(** The first loop runs to its end when every matched row has a stock
    count. *)
Lemma seller_loop_returns rows : ∀ acc cur,
  NoDup cur →
  Forall has_stock_count (matched_rows cur rows) →
  ∃ stocks ids', for_each Seller.create_stocks_row rows (acc, cur) = Ok (stocks, ids').
Proof.
  induction rows as [|watch rows IH]; intros acc cur Hnd Hall; [by eexists _, _|].
  rewrite for_each_cons. destruct (decide (code watch ∈ cur)) as [Hin|Hout].
  - rewrite matched_rows_take in Hall by done.
    apply Forall_cons in Hall as [[n Hn] Hall].
    pose proof (seller_row_matched watch acc cur Hin) as Hstep.
    rewrite Hn in Hstep. destruct Hstep as (cur' & Hrm & ->).
    destruct (remove_elem _ _ Hin) as (cur'' & Hrm' & _ & _ & Hfilter).
    rewrite Hrm in Hrm'. injection Hrm' as <-.
    rewrite bind_ok. apply IH.
    + rewrite (Hfilter Hnd). by apply NoDup_filter.
    + by rewrite (Hfilter Hnd).
  - rewrite matched_rows_skip in Hall by done.
    rewrite seller_row_unmatched, bind_ok by done. by apply IH.
Qed.

Lemma seller_create_stocks_returns rows ids :
  NoDup ids →
  Forall has_stock_count (matched_rows ids rows) →
  ∃ stocks ids', Seller.create_stocks rows ids = Ok (stocks, ids').
Proof.
  intros Hnd Hall. unfold Seller.create_stocks.
  destruct (seller_loop_returns rows [] ids Hnd Hall) as (stocks & ids' & ->).
  rewrite bind_ok. by eexists _, _.
Qed.

Lemma zero_pass acc (ids' : list string) :
  foldl (λ stocks offer_id, stocks ++ [Seller.Stock.Make offer_id 0]) acc ids'
  = acc ++ (zero_stock <$> ids').
Proof.
  revert acc. induction ids' as [|x ids' IH]; intros acc; simpl.
  - by rewrite app_nil_r.
  - by rewrite IH, <- app_assoc.
Qed.

Lemma zero_stock_ids (ids' : list string) : Seller.Stock.offer_id <$> (zero_stock <$> ids') = ids'.
Proof. rewrite <- list_fmap_compose. apply list_fmap_id. Qed.

(** What [create_stocks] returns, when it returns. *)
Lemma seller_create_stocks rows ids stocks ids' :
  Seller.create_stocks rows ids = Ok (stocks, ids') →
  ∃ recs,
    stocks = recs ++ (zero_stock <$> ids')
    ∧ ids ≡ₚ (Seller.Stock.offer_id <$> recs) ++ ids'
    ∧ ids' `sublist_of` ids
    ∧ (Seller.Stock.offer_id <$> recs) `sublist_of` codes rows
    ∧ (NoDup ids →
       ids' = leftovers ids rows ∧ Forall2 stock_for (matched_rows ids rows) recs).
Proof.
  unfold Seller.create_stocks. unfold_bind.
  destruct (for_each _ _ _) as [[stocks1 ids1]|e] eqn:Hloop; [|done].
  intros [= <- <-]. apply seller_loop in Hloop as (recs & -> & H).
  exists recs. by rewrite zero_pass.
Qed.

End SellerStocks.

(** ** Matching rows to a catalog with repeated ids *)

Section Matching.
Implicit Types (watch : row) (rows : list row) (cur ids : list string)
  (acc recs : list Seller.Stock.t).

Lemma remove_without (x : string) cur : x ∈ cur → remove x cur = Ok (without x cur).
Proof.
  induction cur as [|y cur IH]; [by intros ?%elem_of_nil|].
  intros Hx. simpl. destruct (decide (x = y)) as [->|Hne]; [done|].
  apply elem_of_cons in Hx as [?|Hx]; [done|]. by rewrite (IH Hx).
Qed.

Lemma without_sublist (x : string) cur : without x cur `sublist_of` cur.
Proof.
  induction cur as [|y cur IH]; [done|]. simpl.
  destruct (decide (x = y)); [by apply sublist_cons | by apply sublist_skip].
Qed.

Lemma without_perm (x : string) cur : x ∈ cur → cur ≡ₚ x :: without x cur.
Proof.
  induction cur as [|y cur IH]; [by intros ?%elem_of_nil|].
  intros Hx. simpl. destruct (decide (x = y)) as [->|Hne]; [done|].
  apply elem_of_cons in Hx as [?|Hx]; [done|].
  rewrite (IH Hx) at 1. apply Permutation_swap.
Qed.

Lemma without_nodup (x : string) cur :
  NoDup cur → without x cur = filter (λ y, y ≠ x) cur.
Proof.
  induction 1 as [|y cur Hy Hnd IH]; [done|]. simpl.
  destruct (decide (x = y)) as [->|Hne].
  - rewrite filter_cons_False by naive_solver.
    symmetry. apply filter_all. apply Forall_forall. by intros z Hz ->.
  - rewrite filter_cons_True by done. by rewrite IH.
Qed.

Lemma matching_take watch rows cur :
  code watch ∈ cur →
  matching (watch :: rows) cur
  = (watch :: (matching rows (without (code watch) cur)).1,
     (matching rows (without (code watch) cur)).2).
Proof.
  intros H. simpl. rewrite decide_True by done.
  by destruct (matching rows _).
Qed.

Lemma matching_skip watch rows cur :
  code watch ∉ cur → matching (watch :: rows) cur = matching rows cur.
Proof. intros H. simpl. by rewrite decide_False. Qed.

(** For a duplicate-free catalog the matched rows are the first rows of
    the codes of the catalog, and what is left are the ids that no row
    carries. *)
Lemma matching_nodup rows : ∀ ids,
  NoDup ids → matching rows ids = (matched_rows ids rows, leftovers ids rows).
Proof.
  induction rows as [|watch rows IH]; intros ids Hnd.
  { simpl. unfold leftovers. f_equal. symmetry. apply filter_all.
    apply Forall_forall. intros x _. apply not_elem_of_nil. }
  destruct (decide (code watch ∈ ids)) as [Hin|Hout].
  - rewrite matching_take, matched_rows_take, leftovers_take by done.
    rewrite without_nodup by done.
    by rewrite IH by by apply NoDup_filter.
  - rewrite matching_skip, matched_rows_skip, leftovers_skip by done.
    by apply IH.
Qed.

Lemma matching_left_sublist rows : ∀ ids, (matching rows ids).2 `sublist_of` ids.
Proof.
  induction rows as [|watch rows IH]; intros ids; [done|].
  destruct (decide (code watch ∈ ids)) as [Hin|Hout].
  - rewrite matching_take by done. simpl.
    etrans; [apply IH | apply without_sublist].
  - rewrite matching_skip by done. apply IH.
Qed.

Lemma matching_rows_sublist rows : ∀ ids, (matching rows ids).1 `sublist_of` rows.
Proof.
  induction rows as [|watch rows IH]; intros ids; [done|].
  destruct (decide (code watch ∈ ids)) as [Hin|Hout].
  - rewrite matching_take by done. simpl. apply sublist_skip, IH.
  - rewrite matching_skip by done. apply sublist_cons, IH.
Qed.

Lemma matching_perm rows : ∀ ids,
  ids ≡ₚ codes (matching rows ids).1 ++ (matching rows ids).2.
Proof.
  induction rows as [|watch rows IH]; intros ids; [done|].
  destruct (decide (code watch ∈ ids)) as [Hin|Hout].
  - rewrite matching_take by done. simpl.
    rewrite (without_perm _ _ Hin) at 1. constructor. apply IH.
  - rewrite matching_skip by done. apply IH.
Qed.

(** The first loop of [create_stocks] on any catalog: it runs to its end
    when every matched row has a stock count, and raises otherwise. *)
Lemma seller_loop_matching rows : ∀ acc cur,
  (Forall has_stock_count (matching rows cur).1
   ∧ ∃ recs,
       for_each Seller.create_stocks_row rows (acc, cur)
       = Ok (acc ++ recs, (matching rows cur).2)
       ∧ Forall2 stock_for (matching rows cur).1 recs)
  ∨ (¬ Forall has_stock_count (matching rows cur).1
     ∧ ∃ e, for_each Seller.create_stocks_row rows (acc, cur) = Err e
            ∧ (e = ValueError ∨ e = TypeError)).
Proof.
  induction rows as [|watch rows IH]; intros acc cur.
  { left. split; [constructor|]. exists []. by rewrite app_nil_r. }
  rewrite for_each_cons. destruct (decide (code watch ∈ cur)) as [Hin|Hout].
  - rewrite matching_take by done. cbn [fst snd].
    pose proof (seller_row_matched watch acc cur Hin) as Hstep.
    destruct (stock_count (get watch "Количество")) as [n|] eqn:Hn.
    + destruct Hstep as (cur' & Hrm & ->).
      rewrite remove_without in Hrm by done. injection Hrm as <-.
      rewrite bind_ok.
      destruct (IH (acc ++ [Seller.Stock.Make (code watch) n])
                  (without (code watch) cur))
        as [(Hall & recs & -> & Hrecs)|(Hnot & e & -> & He)].
      * left. split.
        { constructor; [|done]. unfold has_stock_count. by rewrite Hn. }
        exists (Seller.Stock.Make (code watch) n :: recs).
        rewrite <- app_assoc. split; [done|]. by constructor.
      * right. split; [|by exists e].
        intros [_ Hall]%Forall_cons. by apply Hnot.
    + destruct Hstep as [e Hstep]. right. split.
      * intros [[n Hn'] _]%Forall_cons. by rewrite Hn in Hn'.
      * exists e. rewrite Hstep. split; [done|].
        by apply seller_row_raises in Hstep.
  - rewrite matching_skip, seller_row_unmatched, bind_ok by done. apply IH.
Qed.

(** [create_stocks] on any catalog. *)
Lemma seller_create_stocks_matching rows ids :
  (Forall has_stock_count (matching rows ids).1
   ∧ ∃ recs,
       Seller.create_stocks rows ids
       = Ok (recs ++ (zero_stock <$> (matching rows ids).2), (matching rows ids).2)
       ∧ Forall2 stock_for (matching rows ids).1 recs)
  ∨ (¬ Forall has_stock_count (matching rows ids).1
     ∧ ∃ e, Seller.create_stocks rows ids = Err e
            ∧ (e = ValueError ∨ e = TypeError)).
Proof.
  unfold Seller.create_stocks.
  destruct (seller_loop_matching rows [] ids)
    as [(Hall & recs & -> & Hrecs)|(Hnot & e & -> & He)].
  - left. split; [done|]. exists recs. rewrite bind_ok. simpl.
    by rewrite zero_pass.
  - right. split; [done|]. by exists e.
Qed.

(** What [create_stocks] leaves in [offer_ids] when it returns. *)
Lemma seller_create_stocks_left rows ids stocks ids' :
  Seller.create_stocks rows ids = Ok (stocks, ids') →
  ids' = (matching rows ids).2.
Proof.
  intros Hrun.
  destruct (seller_create_stocks_matching rows ids)
    as [(_ & recs & Heq & _)|(_ & e & Heq & _)]; rewrite Heq in Hrun; [|done].
  by injection Hrun as _ <-.
Qed.

End Matching.

Section MarketStocks.
Context (warehouse_id date : string).
Implicit Types (watch : row) (rows : list row) (cur : list string)
  (acc : list Seller.Stock.t).

Local Abbreviation as_market := (Spec.as_market warehouse_id date).

Lemma market_row watch acc cur :
  Market.create_stocks_row warehouse_id date watch (as_market (acc, cur))
  = as_market <$> Seller.create_stocks_row watch (acc, cur).
Proof.
  unfold Market.create_stocks_row, Seller.create_stocks_row, Spec.as_market. simpl.
  destruct (contains _ cur); [|done]. unfold_bind.
  destruct (if String.eqb _ _ then _ else _) as [n|e]; [|done].
  destruct (remove _ cur) as [cur'|e]; [|done].
  simpl. by rewrite fmap_app.
Qed.

Lemma market_loop rows : ∀ acc cur,
  for_each (Market.create_stocks_row warehouse_id date) rows (as_market (acc, cur))
  = as_market <$> for_each Seller.create_stocks_row rows (acc, cur).
Proof.
  induction rows as [|watch rows IH]; intros acc cur; [done|].
  rewrite !for_each_cons, market_row.
  destruct (Seller.create_stocks_row watch (acc, cur)) as [[acc' cur']|e];
    [apply IH | done].
Qed.

Lemma market_zero_pass (acc : list Market.Stock.t) (ids' : list string) :
  foldl (λ stocks offer_id,
           stocks ++ [Market.Stock.Make offer_id warehouse_id
                        [Market.Item.Make 0 "FIT" date]]) acc ids'
  = acc ++ (market_stock warehouse_id date ∘ zero_stock <$> ids').
Proof.
  revert acc. induction ids' as [|x ids' IH]; intros acc; simpl.
  - by rewrite app_nil_r.
  - by rewrite IH, <- app_assoc.
Qed.

(** market.py builds the records of seller.py, with the warehouse and the
    time stamp added, and leaves the same ids in [offer_ids]. *)
Lemma market_create_stocks rows ids :
  Market.create_stocks date rows ids warehouse_id
  = as_market <$> Seller.create_stocks rows ids.
Proof.
  unfold Market.create_stocks, Seller.create_stocks.
  change ([], ids) with (as_market ([], ids)) at 1. rewrite market_loop.
  unfold_bind.
  destruct (for_each _ _ _) as [[stocks ids']|e]; [|done].
  unfold Spec.as_market. simpl.
  by rewrite market_zero_pass, zero_pass, fmap_app, <- list_fmap_compose.
Qed.

Lemma market_stock_sku (l : list Seller.Stock.t) :
  Market.Stock.sku <$> (market_stock warehouse_id date <$> l)
  = Seller.Stock.offer_id <$> l.
Proof. rewrite <- list_fmap_compose. by apply list_fmap_ext. Qed.

Lemma market_create_stocks_inv rows ids stocks ids' :
  Market.create_stocks date rows ids warehouse_id = Ok (stocks, ids') →
  ∃ stocks0, Seller.create_stocks rows ids = Ok (stocks0, ids')
             ∧ stocks = market_stock warehouse_id date <$> stocks0.
Proof.
  rewrite market_create_stocks.
  destruct (Seller.create_stocks rows ids) as [[stocks0 ids0]|e]; [|done].
  intros [= <- <-]. by exists stocks0.
Qed.

End MarketStocks.

Section Coverage.
Implicit Types (rows : list row) (ids : list string).

Lemma seller_coverage rows ids stocks ids' :
  NoDup ids →
  Seller.create_stocks rows ids = Ok (stocks, ids') →
  ∃ recs,
    Forall2 stock_for (matched_rows ids rows) recs
    ∧ stocks = recs ++ (zero_stock <$> leftovers ids rows)
    ∧ Seller.Stock.offer_id <$> stocks ≡ₚ ids
    ∧ NoDup (Seller.Stock.offer_id <$> stocks)
    ∧ ∀ watch, watch ∈ rows → code watch ∉ ids →
               code watch ∉ Seller.Stock.offer_id <$> stocks.
Proof.
  intros Hnd Hrun.
  apply seller_create_stocks in Hrun as (recs & -> & Hperm & _ & _ & Hexact).
  destruct (Hexact Hnd) as [-> Hrecs].
  assert (Hids : Seller.Stock.offer_id <$> recs ++ (zero_stock <$> leftovers ids rows)
                 ≡ₚ ids) by by rewrite fmap_app, zero_stock_ids.
  exists recs. repeat split; try done.
  - by rewrite Hids.
  - intros watch _ Hout. by rewrite Hids.
Qed.

End Coverage.

(** C1.  For a duplicate-free catalog, [create_stocks] returns when every
    matched row has a stock count, and what it returns is, first,
    one record for every matched row, in row order (the matched rows are,
    for every code of the catalog, the first row that carries it; the record
    has that code and the stock count of the row's quantity), then one
    record with stock 0 for every catalog id that no row carries, in catalog
    order.  The offer ids of the output are a rearrangement of the catalog:
    every catalog id occurs exactly once, none is missing, none is repeated,
    and a row whose code is not in the catalog has no record.  The same
    holds in market.py, whose records add the warehouse and the time
    stamp. *)
Theorem create_stocks_covers_catalog (rows : list row) (ids : list string) :
  NoDup ids →
  (∀ stocks ids',
     Seller.create_stocks rows ids = Ok (stocks, ids') →
     ∃ recs,
       Forall2 stock_for (matched_rows ids rows) recs
       ∧ stocks = recs ++ (zero_stock <$> leftovers ids rows)
       ∧ Seller.Stock.offer_id <$> stocks ≡ₚ ids
       ∧ NoDup (Seller.Stock.offer_id <$> stocks)
       ∧ ∀ watch, watch ∈ rows → code watch ∉ ids →
                  code watch ∉ Seller.Stock.offer_id <$> stocks)
  ∧ (∀ date warehouse_id stocks ids',
       Market.create_stocks date rows ids warehouse_id = Ok (stocks, ids') →
       ∃ recs,
         Forall2 stock_for (matched_rows ids rows) recs
         ∧ stocks = market_stock warehouse_id date
                      <$> (recs ++ (zero_stock <$> leftovers ids rows))
         ∧ Market.Stock.sku <$> stocks ≡ₚ ids
         ∧ NoDup (Market.Stock.sku <$> stocks)
         ∧ ∀ watch, watch ∈ rows → code watch ∉ ids →
                    code watch ∉ Market.Stock.sku <$> stocks)
  ∧ (Forall has_stock_count (matched_rows ids rows) →
     (∃ stocks ids', Seller.create_stocks rows ids = Ok (stocks, ids'))
     ∧ ∀ date warehouse_id,
         ∃ stocks ids',
           Market.create_stocks date rows ids warehouse_id = Ok (stocks, ids')).
Proof.
  intros Hnd. split; [|split].
  - intros stocks ids'. by apply seller_coverage.
  - intros date wh stocks ids' Hrun.
    apply market_create_stocks_inv in Hrun as (stocks0 & Hrun & ->).
    destruct (seller_coverage _ _ _ _ Hnd Hrun) as (recs & ? & -> & ? & ? & ?).
    exists recs. by rewrite market_stock_sku.
  - intros Hall.
    destruct (seller_create_stocks_returns rows ids Hnd Hall) as (stocks & ids' & Hrun).
    split; [by eexists _, _|]. intros date wh.
    rewrite market_create_stocks, Hrun. by eexists _, _.
Qed.

Lemma create_stocks_covers_catalog_witness :
  (∃ recs,
     Forall2 stock_for (matched_rows Examples.catalog [Examples.watch_63433]) recs
     ∧ [Seller.Stock.Make "63433" 100; Seller.Stock.Make "99999" 0]
       = recs ++ (zero_stock <$> leftovers Examples.catalog [Examples.watch_63433])
     ∧ Seller.Stock.offer_id
         <$> [Seller.Stock.Make "63433" 100; Seller.Stock.Make "99999" 0]
       ≡ₚ Examples.catalog
     ∧ NoDup (Seller.Stock.offer_id
                <$> [Seller.Stock.Make "63433" 100; Seller.Stock.Make "99999" 0])
     ∧ ∀ watch, watch ∈ [Examples.watch_63433] → code watch ∉ Examples.catalog →
         code watch ∉ Seller.Stock.offer_id
           <$> [Seller.Stock.Make "63433" 100; Seller.Stock.Make "99999" 0])
  ∧ (∃ recs,
       Forall2 stock_for (matched_rows Examples.catalog [Examples.watch_63433]) recs
       ∧ market_stock "w" Examples.date
           <$> [Seller.Stock.Make "63433" 100; Seller.Stock.Make "99999" 0]
         = market_stock "w" Examples.date
             <$> (recs ++ (zero_stock
                             <$> leftovers Examples.catalog [Examples.watch_63433]))
       ∧ Market.Stock.sku
           <$> (market_stock "w" Examples.date
                  <$> [Seller.Stock.Make "63433" 100; Seller.Stock.Make "99999" 0])
         ≡ₚ Examples.catalog
       ∧ NoDup (Market.Stock.sku
                  <$> (market_stock "w" Examples.date
                         <$> [Seller.Stock.Make "63433" 100;
                              Seller.Stock.Make "99999" 0]))
       ∧ ∀ watch, watch ∈ [Examples.watch_63433] → code watch ∉ Examples.catalog →
           code watch ∉ Market.Stock.sku
             <$> (market_stock "w" Examples.date
                    <$> [Seller.Stock.Make "63433" 100; Seller.Stock.Make "99999" 0]))
  ∧ (∃ stocks ids',
       Seller.create_stocks [Examples.watch_63433] Examples.catalog = Ok (stocks, ids'))
  ∧ ∀ date warehouse_id,
      ∃ stocks ids',
        Market.create_stocks date [Examples.watch_63433] Examples.catalog warehouse_id
        = Ok (stocks, ids').
Proof.
  destruct (create_stocks_covers_catalog [Examples.watch_63433] Examples.catalog)
    as (Hseller & Hmarket & Hreturns).
  - apply (bool_decide_unpack _). vm_compute. exact I.
  - split; [|split].
    + apply (Hseller _ ["99999"]). vm_compute. reflexivity.
    + apply (Hmarket Examples.date "w" _ ["99999"]). vm_compute. reflexivity.
    + apply Hreturns. apply (bool_decide_unpack _). vm_compute. exact I.
Defined.

(** C10, against the claim as stated: a catalog in which the id ["63433"]
    occurs twice, and one row that carries this code.  [create_stocks]
    returns; the id is matched by the row, and it is still in [offer_ids]
    afterwards, because only its first occurrence was removed.  So the list
    does not hold exactly the ids that no row matches.  Both files behave
    alike. *)
Lemma create_stocks_repeated_id_stays :
  Seller.create_stocks [Examples.watch_63433] Examples.catalog_twice
  = Ok ([Seller.Stock.Make "63433" 100; Seller.Stock.Make "99999" 0;
         Seller.Stock.Make "63433" 0],
        ["99999"; "63433"])
  ∧ Market.create_stocks Examples.date [Examples.watch_63433] Examples.catalog_twice "w"
    = Ok (market_stock "w" Examples.date
            <$> [Seller.Stock.Make "63433" 100; Seller.Stock.Make "99999" 0;
                 Seller.Stock.Make "63433" 0],
          ["99999"; "63433"])
  ∧ "63433" ∈ codes [Examples.watch_63433]
  ∧ "63433" ∈ ["99999"; "63433"]
  ∧ leftovers Examples.catalog_twice [Examples.watch_63433] = ["99999"]
  ∧ ¬ ∀ offer_id,
        offer_id ∈ ["99999"; "63433"]
        ↔ offer_id ∈ Examples.catalog_twice ∧ offer_id ∉ codes [Examples.watch_63433].
Proof.
  split; [by vm_compute|]. split; [by vm_compute|].
  split; [apply (bool_decide_unpack _); by vm_compute|].
  split; [apply (bool_decide_unpack _); by vm_compute|].
  split; [by vm_compute|].
  intros H. destruct (H "63433") as [[_ Hout] _].
  - apply (bool_decide_unpack _). by vm_compute.
  - apply Hout. apply (bool_decide_unpack _). by vm_compute.
Qed.

(** C10, amended.  When [create_stocks] returns, [offer_ids] holds what the
    matching has left of the catalog: every row whose code is still in the
    list when its turn comes is matched and takes the first occurrence of
    its code out of it.  What is left is a sub-list of the original
    contents, in the original order, and the catalog is the codes of the
    matched rows together with what is left.  The call returns, with this
    list, whenever every matched row has a stock count.  For a
    duplicate-free catalog the list then holds exactly the ids that no row
    carries, each once.  Nothing else is written: the rows are only read,
    and the embedding threads no other state.  Both files behave alike. *)
Theorem create_stocks_consumes_matched_ids (rows : list row) (ids : list string) :
  (∀ stocks ids',
     Seller.create_stocks rows ids = Ok (stocks, ids') → ids' = (matching rows ids).2)
  ∧ (∀ date warehouse_id stocks ids',
       Market.create_stocks date rows ids warehouse_id = Ok (stocks, ids') →
       ids' = (matching rows ids).2)
  ∧ (Forall has_stock_count (matching rows ids).1 →
     (∃ stocks, Seller.create_stocks rows ids = Ok (stocks, (matching rows ids).2))
     ∧ ∀ date warehouse_id,
         ∃ stocks,
           Market.create_stocks date rows ids warehouse_id
           = Ok (stocks, (matching rows ids).2))
  ∧ (matching rows ids).2 `sublist_of` ids
  ∧ (matching rows ids).1 `sublist_of` rows
  ∧ ids ≡ₚ codes (matching rows ids).1 ++ (matching rows ids).2
  ∧ (NoDup ids →
     (matching rows ids).2 = leftovers ids rows
     ∧ NoDup (leftovers ids rows)
     ∧ ∀ offer_id,
         offer_id ∈ leftovers ids rows ↔ offer_id ∈ ids ∧ offer_id ∉ codes rows).
Proof.
  split; [intros stocks ids'; apply seller_create_stocks_left|].
  split.
  { intros date wh stocks ids' Hrun.
    apply market_create_stocks_inv in Hrun as (stocks0 & Hrun & _).
    by apply seller_create_stocks_left in Hrun. }
  split.
  { intros Hall.
    destruct (seller_create_stocks_matching rows ids)
      as [(_ & recs & Hrun & _)|(Hnot & _)]; [|done].
    split; [by eexists|]. intros date wh.
    rewrite market_create_stocks, Hrun. by eexists. }
  split; [apply matching_left_sublist|].
  split; [apply matching_rows_sublist|].
  split; [apply matching_perm|].
  intros Hnd. rewrite matching_nodup by done. split; [done|].
  split.
  - unfold leftovers. by apply NoDup_filter.
  - intros offer_id. unfold leftovers. rewrite list_elem_of_filter. tauto.
Qed.

Lemma create_stocks_consumes_matched_ids_witness :
  ["99999"] = (matching [Examples.watch_63433] Examples.catalog).2
  ∧ (∃ stocks,
       Seller.create_stocks [Examples.watch_63433] Examples.catalog
       = Ok (stocks, (matching [Examples.watch_63433] Examples.catalog).2))
  ∧ (∀ date warehouse_id,
       ∃ stocks,
         Market.create_stocks date [Examples.watch_63433] Examples.catalog warehouse_id
         = Ok (stocks, (matching [Examples.watch_63433] Examples.catalog).2))
  ∧ ["99999"; "63433"]
    = (matching [Examples.watch_63433] Examples.catalog_twice).2
  ∧ (matching [Examples.watch_63433] Examples.catalog).2
    = leftovers Examples.catalog [Examples.watch_63433]
  ∧ NoDup (leftovers Examples.catalog [Examples.watch_63433])
  ∧ ∀ offer_id,
      offer_id ∈ leftovers Examples.catalog [Examples.watch_63433]
      ↔ offer_id ∈ Examples.catalog ∧ offer_id ∉ codes [Examples.watch_63433].
Proof.
  destruct (create_stocks_consumes_matched_ids [Examples.watch_63433] Examples.catalog)
    as (Hseller & _ & Hreturns & _ & _ & _ & Hexact).
  destruct (create_stocks_consumes_matched_ids [Examples.watch_63433]
              Examples.catalog_twice) as (_ & Hmarket & _).
  split.
  { apply (Hseller [Seller.Stock.Make "63433" 100; Seller.Stock.Make "99999" 0]).
    vm_compute. reflexivity. }
  destruct Hreturns as [Hs Hm].
  { apply (bool_decide_unpack _). vm_compute. exact I. }
  split; [exact Hs|]. split; [exact Hm|]. split.
  { apply (Hmarket Examples.date "w"
             (market_stock "w" Examples.date
                <$> [Seller.Stock.Make "63433" 100; Seller.Stock.Make "99999" 0;
                     Seller.Stock.Make "63433" 0])).
    vm_compute. reflexivity. }
  apply Hexact. apply (bool_decide_unpack _). vm_compute. exact I.
Defined.

(** C2.  The quantity mapping sends [">10"] to 100, ["1"] to 0 and any other
    string to the integer [int] reads from it; the decimal notation of a
    number is read as that number.  The stock count of a cell is the
    quantity mapping of its string.  In [create_stocks] the stock of the
    record of every matched row is the stock count of the row's quantity:
    when all the matched rows have one, the call returns these records, in
    row order, before the records of what is left of the catalog.  When a
    matched row has none (its quantity is neither a sentinel nor numeric)
    the call raises, [ValueError] for a text and [TypeError] for an empty
    cell, and returns nothing.  A row is matched when its code is among the
    ids left by the rows before it.  Both files behave alike, market.py
    adding the warehouse and the time stamp to each record. *)
Theorem stock_count_is_quantity_mapping (rows : list row) (ids : list string) :
  (quantity_mapping ">10" = Some 100
   ∧ quantity_mapping "1" = Some 0
   ∧ (∀ s, s ≠ ">10" → s ≠ "1" → quantity_mapping s = int_of_str s)
   ∧ (∀ n, n ≠ 1 → Z.of_nat (String.length (str_of_int n)) ≤ max_str_digits →
           quantity_mapping (str_of_int n) = Some n))
  ∧ ((∀ s, stock_count (PStr s) = quantity_mapping s)
     ∧ (∀ n, Z.of_nat (String.length (str_of_int n)) ≤ max_str_digits →
             stock_count (PInt n) = quantity_mapping (str (PInt n)))
     ∧ stock_count PNone = None)
  ∧ (Forall has_stock_count (matching rows ids).1 →
     ∃ recs,
       Forall2 stock_for (matching rows ids).1 recs
       ∧ Seller.create_stocks rows ids
         = Ok (recs ++ (zero_stock <$> (matching rows ids).2), (matching rows ids).2)
       ∧ ∀ date warehouse_id,
           Market.create_stocks date rows ids warehouse_id
           = Ok (market_stock warehouse_id date
                   <$> (recs ++ (zero_stock <$> (matching rows ids).2)),
                 (matching rows ids).2))
  ∧ (¬ Forall has_stock_count (matching rows ids).1 →
     ∃ e,
       (e = ValueError ∨ e = TypeError)
       ∧ Seller.create_stocks rows ids = Err e
       ∧ ∀ date warehouse_id,
           Market.create_stocks date rows ids warehouse_id = Err e).
Proof.
  split.
  { destruct quantity_mapping_cases as (H1 & H2 & H3).
    split; [done|]. split; [done|]. split; [done|].
    apply quantity_mapping_decimal. }
  split.
  { split; [done|]. split; [|done]. intros n Hlen. simpl.
    destruct (decide (n = 1)) as [->|Hn]; [done|].
    by rewrite quantity_mapping_decimal. }
  split.
  - intros Hall.
    destruct (seller_create_stocks_matching rows ids)
      as [(_ & recs & Hrun & Hrecs)|(Hnot & _)]; [|done].
    exists recs. split; [done|]. split; [done|]. intros date wh.
    by rewrite market_create_stocks, Hrun.
  - intros Hnot.
    destruct (seller_create_stocks_matching rows ids)
      as [(Hall & _)|(_ & e & Hrun & He)]; [done|].
    exists e. split; [done|]. split; [done|]. intros date wh.
    by rewrite market_create_stocks, Hrun.
Qed.

Lemma stock_count_is_quantity_mapping_witness :
  quantity_mapping (str_of_int 25) = Some 25
  ∧ stock_count (PInt 777) = quantity_mapping (str (PInt 777))
  ∧ (∃ recs,
       Forall2 stock_for
         (matching [Examples.watch_63433; Examples.watch_777] ["777"; "63433"]).1 recs
       ∧ Seller.create_stocks [Examples.watch_63433; Examples.watch_777]
           ["777"; "63433"]
         = Ok (recs
                 ++ (zero_stock
                       <$> (matching [Examples.watch_63433; Examples.watch_777]
                              ["777"; "63433"]).2),
               (matching [Examples.watch_63433; Examples.watch_777]
                  ["777"; "63433"]).2)
       ∧ ∀ date warehouse_id,
           Market.create_stocks date [Examples.watch_63433; Examples.watch_777]
             ["777"; "63433"] warehouse_id
           = Ok (market_stock warehouse_id date
                   <$> (recs
                          ++ (zero_stock
                                <$> (matching [Examples.watch_63433; Examples.watch_777]
                                       ["777"; "63433"]).2)),
                 (matching [Examples.watch_63433; Examples.watch_777]
                    ["777"; "63433"]).2))
  ∧ (∃ e,
       (e = ValueError ∨ e = TypeError)
       ∧ Seller.create_stocks
           [Examples.watch_63433; Examples.watch_no_quantity; Examples.watch_777]
           Examples.catalog = Err e
       ∧ ∀ date warehouse_id,
           Market.create_stocks date
             [Examples.watch_63433; Examples.watch_no_quantity; Examples.watch_777]
             Examples.catalog warehouse_id = Err e).
Proof.
  destruct (stock_count_is_quantity_mapping [Examples.watch_63433; Examples.watch_777]
              ["777"; "63433"]) as ((_ & _ & _ & Hdecimal) & (_ & Hnumber & _) & Hfine & _).
  destruct (stock_count_is_quantity_mapping
              [Examples.watch_63433; Examples.watch_no_quantity; Examples.watch_777]
              Examples.catalog) as (_ & _ & _ & Hraise).
  split; [apply Hdecimal; [lia | by vm_compute]|].
  split; [apply Hnumber; by vm_compute|].
  split.
  - apply Hfine. apply (bool_decide_unpack _). vm_compute. exact I.
  - apply Hraise. intros H%(bool_decide_pack _). vm_compute in H. exact H.
Defined.

(** ** Price reconciliation *)

Section Collect.
Context {A B : Type} (f : A → result B).

Lemma collect_cons x (l : list A) :
  collect (f <$> x :: l) = b ← f x; bs ← collect (f <$> l); Ok (b :: bs).
Proof. done. Qed.

Lemma collect_ok (R : A → B → Prop) (l : list A) :
  Forall (λ x, ∃ b, f x = Ok b ∧ R x b) l →
  ∃ bs, collect (f <$> l) = Ok bs ∧ Forall2 R l bs.
Proof.
  induction 1 as [|x l (b & Hb & HR) _ (bs & Hbs & Hall)].
  - exists []. by split; [|constructor].
  - exists (b :: bs). rewrite collect_cons, Hb, bind_ok, Hbs, bind_ok.
    by split; [|constructor].
Qed.

Lemma collect_err e (l : list A) :
  Forall (λ x, is_ok (f x) = true ∨ f x = Err e) l →
  Exists (λ x, f x = Err e) l →
  collect (f <$> l) = Err e.
Proof.
  induction 1 as [|x l Hx Hl IH]; intros Hex; [by inversion Hex|].
  rewrite collect_cons. destruct Hx as [Hx| ->]; [|done].
  destruct (f x) as [b|e'] eqn:Hfx; [|done]. rewrite bind_ok.
  apply Exists_cons in Hex as [Hex|Hex]; [congruence|].
  by rewrite (IH Hex).
Qed.

End Collect.

Section Prices.
Implicit Types (watch : row) (rows : list row) (ids : list string).

Lemma priced_rows_cons watch rows ids :
  priced_rows ids (watch :: rows)
  = if contains (code watch) ids then watch :: priced_rows ids rows
    else priced_rows ids rows.
Proof.
  unfold priced_rows, contains. rewrite filter_cons.
  by destruct (decide (code watch ∈ ids));
    [rewrite bool_decide_eq_true_2 | rewrite bool_decide_eq_false_2].
Qed.

Lemma seller_prices_row watch ids acc :
  Seller.create_prices_row ids watch acc
  = if contains (code watch) ids
    then p ← seller_price watch; Ok (acc ++ [p])
    else Ok acc.
Proof.
  unfold Seller.create_prices_row, seller_price, code.
  destruct (contains _ ids); [|done].
  by destruct (Seller.price_conversion _).
Qed.

Lemma market_prices_row watch ids acc :
  Market.create_prices_row ids watch acc
  = if contains (code watch) ids
    then p ← market_price watch; Ok (acc ++ [p])
    else Ok acc.
Proof.
  unfold Market.create_prices_row, market_price, code.
  destruct (contains _ ids); [|done].
  destruct (Seller.price_conversion _) as [converted|e]; [|done].
  rewrite !bind_ok. by destruct (int (PStr converted)).
Qed.

Lemma seller_prices_loop rows ids : ∀ acc,
  for_each (Seller.create_prices_row ids) rows acc
  = (acc ++.) <$> collect (seller_price <$> priced_rows ids rows).
Proof.
  induction rows as [|watch rows IH]; intros acc.
  { simpl. by rewrite app_nil_r. }
  rewrite for_each_cons, priced_rows_cons, seller_prices_row.
  destruct (contains (code watch) ids).
  - rewrite collect_cons.
    destruct (seller_price watch) as [p|e]; [|by rewrite !bind_err, fmap_err].
    rewrite !bind_ok, IH.
    destruct (collect _) as [ps|e]; [|by rewrite bind_err, !fmap_err].
    rewrite bind_ok, !fmap_ok. by rewrite <- app_assoc.
  - by rewrite bind_ok, IH.
Qed.

Lemma market_prices_loop rows ids : ∀ acc,
  for_each (Market.create_prices_row ids) rows acc
  = (acc ++.) <$> collect (market_price <$> priced_rows ids rows).
Proof.
  induction rows as [|watch rows IH]; intros acc.
  { simpl. by rewrite app_nil_r. }
  rewrite for_each_cons, priced_rows_cons, market_prices_row.
  destruct (contains (code watch) ids).
  - rewrite collect_cons.
    destruct (market_price watch) as [p|e]; [|by rewrite !bind_err, fmap_err].
    rewrite !bind_ok, IH.
    destruct (collect _) as [ps|e]; [|by rewrite bind_err, !fmap_err].
    rewrite bind_ok, !fmap_ok. by rewrite <- app_assoc.
  - by rewrite bind_ok, IH.
Qed.

Lemma fmap_result_id {A} (r : result (list A)) : ([] ++.) <$> r = r.
Proof. by destruct r. Qed.

Lemma price_is_str_inv watch :
  price_is_str watch → ∃ s, get watch "Цена" = PStr s.
Proof.
  unfold price_is_str. destruct (get watch "Цена") as [| |s]; try done.
  by exists s.
Qed.

Lemma seller_create_prices_collect rows ids :
  Seller.create_prices rows ids = collect (seller_price <$> priced_rows ids rows).
Proof. unfold Seller.create_prices. by rewrite seller_prices_loop, fmap_result_id. Qed.

Lemma market_create_prices_collect rows ids :
  Market.create_prices rows ids = collect (market_price <$> priced_rows ids rows).
Proof. unfold Market.create_prices. by rewrite market_prices_loop, fmap_result_id. Qed.

Lemma seller_price_str watch :
  price_is_str watch → ∃ p, seller_price watch = Ok p ∧ seller_priced watch p.
Proof.
  intros [s Hs]%price_is_str_inv. unfold seller_price, seller_priced.
  rewrite Hs. simpl. by eexists.
Qed.

Lemma price_conversion_all_digits v d :
  Seller.price_conversion v = Ok d → all_digits d.
Proof.
  destruct v as [| |s]; try done. intros [= <-]. apply sub_non_digits_all_digits.
Qed.

Lemma writes_number_inv digits :
  writes_number digits = true ↔
  digits ≠ EmptyString ∧ Z.of_nat (String.length digits) ≤ max_str_digits.
Proof.
  unfold writes_number. rewrite andb_true_iff, negb_true_iff, Z.leb_le.
  by rewrite String.eqb_neq.
Qed.

Lemma price_is_number_inv watch :
  price_is_number watch ↔
  ∃ digits, Seller.price_conversion (get watch "Цена") = Ok digits
            ∧ writes_number digits = true.
Proof.
  unfold price_is_number.
  destruct (Seller.price_conversion _) as [digits|e]; split.
  - intros H. by exists digits.
  - by intros (digits' & [= <-] & H).
  - done.
  - by intros (digits' & [=] & _).
Qed.

Lemma market_price_str watch :
  price_is_number watch →
  ∃ p, market_price watch = Ok p ∧ market_priced watch p.
Proof.
  intros (digits & Hconv & [Hne Hlen]%writes_number_inv)%price_is_number_inv.
  pose proof (price_conversion_all_digits _ _ Hconv) as Hall.
  destruct (uint_of_string_digits digits Hall) as [d Hd].
  pose proof (int_of_str_digits digits d Hall Hne Hlen Hd) as Hint.
  unfold market_price, market_priced. rewrite Hconv, bind_ok. simpl.
  rewrite Hint. simpl. eexists. split; [done|]. simpl. split; [|done].
  by exists digits.
Qed.

Lemma market_price_not_number watch :
  price_is_str watch → ¬ price_is_number watch →
  market_price watch = Err ValueError.
Proof.
  intros [s Hs]%price_is_str_inv Hnot. unfold market_price.
  rewrite Hs in *. simpl. set (digits := sub_non_digits (split_head "." s)).
  assert (Hall : all_digits digits) by apply sub_non_digits_all_digits.
  assert (Hw : writes_number digits ≠ true).
  { intros Hw. apply Hnot. apply price_is_number_inv. exists digits.
    split; [|done]. by rewrite Hs. }
  rewrite int_of_str_all_digits by done.
  destruct (decide (digits = EmptyString)) as [|Hne]; [done|].
  unfold digits_value.
  destruct (Z.leb_spec (Z.of_nat (String.length digits)) max_str_digits)
    as [Hlen|Hlen]; [|done].
  exfalso. apply Hw. by apply writes_number_inv.
Qed.

Lemma market_price_str_cases watch :
  price_is_str watch →
  is_ok (market_price watch) = true ∨ market_price watch = Err ValueError.
Proof.
  intros Hs. destruct (decide (price_is_number watch)) as [Hn|Hn].
  - left. by destruct (market_price_str watch Hn) as (p & -> & _).
  - right. by apply market_price_not_number.
Qed.

End Prices.

(** C3, against the claim as stated: in market.py a listed row whose price
    cell is a [str] without a digit before the first ["."] (here the empty
    cell of [watch_no_price], listed as ["99999"]) gets no record; the call
    raises [ValueError] at [int("")], so no list of records, one per listed
    row, is returned. *)
Lemma create_prices_market_blank_price :
  priced_rows Examples.catalog [Examples.watch_63433; Examples.watch_no_price]
  = [Examples.watch_63433; Examples.watch_no_price]
  ∧ get Examples.watch_no_price "Цена" = PStr EmptyString
  ∧ Seller.price_conversion (get Examples.watch_no_price "Цена") = Ok EmptyString
  ∧ Market.create_prices [Examples.watch_63433; Examples.watch_no_price]
      Examples.catalog = Err ValueError
  ∧ ¬ ∃ prices,
        Market.create_prices [Examples.watch_63433; Examples.watch_no_price]
          Examples.catalog = Ok prices
        ∧ length prices
          = length (priced_rows Examples.catalog
                      [Examples.watch_63433; Examples.watch_no_price]).
Proof.
  repeat split; try by vm_compute.
  intros (prices & Hrun & _). vm_compute in Hrun. discriminate.
Qed.

(** C3, amended.  [create_prices] runs through the rows whose stringified
    code is in [offer_ids], in row order, the other rows being skipped, and
    makes one record for each: the first row whose record cannot be made
    ends the call with its exception.  When the price cells of these rows
    are [str], seller.py returns exactly one record per such row, with the
    code of the row, the normalised price and the fixed fields.  market.py
    returns exactly one record per such row, with the code of the row, the
    number written by the normalised price and the currency, provided every
    normalised price writes a number, that is, has at least one digit and
    no more than the 4300 that [int] reads; if one does not, the call
    raises [ValueError] and returns nothing.  No record is made for a
    catalog id without a row. *)
Theorem create_prices_one_record_per_listed_row (rows : list row) (ids : list string) :
  Seller.create_prices rows ids = collect (seller_price <$> priced_rows ids rows)
  ∧ Market.create_prices rows ids = collect (market_price <$> priced_rows ids rows)
  ∧ (Forall price_is_str (priced_rows ids rows) →
     (∃ prices,
        Seller.create_prices rows ids = Ok prices
        ∧ Forall2 seller_priced (priced_rows ids rows) prices)
     ∧ (Forall price_is_number (priced_rows ids rows) →
        ∃ prices,
          Market.create_prices rows ids = Ok prices
          ∧ Forall2 market_priced (priced_rows ids rows) prices)
     ∧ (Exists (λ watch, ¬ price_is_number watch) (priced_rows ids rows) →
        Market.create_prices rows ids = Err ValueError)).
Proof.
  pose proof (seller_create_prices_collect rows ids) as Hseller.
  pose proof (market_create_prices_collect rows ids) as Hmarket.
  split; [done|]. split; [done|]. intros Hstr. repeat split.
  - rewrite Hseller. apply collect_ok.
    eapply Forall_impl; [exact Hstr|]. apply seller_price_str.
  - intros Hdigits. rewrite Hmarket. apply collect_ok.
    eapply Forall_impl; [exact Hdigits|]. apply market_price_str.
  - intros Hblank. rewrite Hmarket. apply collect_err.
    + eapply Forall_impl; [exact Hstr|]. apply market_price_str_cases.
    + rewrite Forall_forall in Hstr. apply Exists_exists in Hblank as (w & Hin & Hw).
      apply Exists_exists. exists w. split; [done|].
      apply market_price_not_number; auto.
Qed.

Lemma create_prices_one_record_per_listed_row_witness :
  (∃ prices,
     Seller.create_prices [Examples.watch_63433; Examples.watch_777] Examples.catalog
     = Ok prices
     ∧ Forall2 seller_priced
         (priced_rows Examples.catalog [Examples.watch_63433; Examples.watch_777])
         prices)
  ∧ (∃ prices,
       Market.create_prices [Examples.watch_63433; Examples.watch_777] Examples.catalog
       = Ok prices
       ∧ Forall2 market_priced
           (priced_rows Examples.catalog [Examples.watch_63433; Examples.watch_777])
           prices)
  ∧ Market.create_prices [Examples.watch_63433; Examples.watch_no_price]
      Examples.catalog = Err ValueError
  ∧ Market.create_prices [Examples.watch_63433; Examples.watch_long_price]
      Examples.catalog = Err ValueError.
Proof.
  destruct (create_prices_one_record_per_listed_row
              [Examples.watch_63433; Examples.watch_777] Examples.catalog)
    as (_ & _ & Hfine).
  destruct (create_prices_one_record_per_listed_row
              [Examples.watch_63433; Examples.watch_no_price] Examples.catalog)
    as (_ & _ & Hblank).
  destruct (create_prices_one_record_per_listed_row
              [Examples.watch_63433; Examples.watch_long_price] Examples.catalog)
    as (_ & _ & Hlong).
  destruct Hfine as (Hseller & Hmarket & _).
  { apply (bool_decide_unpack _). vm_compute. exact I. }
  destruct Hblank as (_ & _ & Hraise).
  { apply (bool_decide_unpack _). vm_compute. exact I. }
  destruct Hlong as (_ & _ & Hraise').
  { apply (bool_decide_unpack _). vm_compute. exact I. }
  split; [exact Hseller|]. split; [|split].
  - apply Hmarket. apply (bool_decide_unpack _). vm_compute. exact I.
  - apply Hraise. apply (bool_decide_unpack _). vm_compute. exact I.
  - apply Hraise'. apply (bool_decide_unpack _). vm_compute. exact I.
Defined.

(** ** Prices after stocks, in seller.py *)

(** ** Runs of the two [main] functions *)

Section Traces.
Context {stock price : Type}.
Implicit Types (w : IO.world stock price) (t : IO.trace stock price)
  (P : IO.event stock price → Prop).

Lemma io_bind_run {A B} (m : IO.M stock price A) (k : A → IO.M stock price B) w t :
  (m ≫= k) w t
  = match m w t with
    | (t', Ok a) => k a w t'
    | (t', Err e) => (t', Err e)
    end.
Proof. done. Qed.

Lemma report_run (e : exn) w t :
  IO.report e w t = (t ++ [IO.reported e], Ok tt).
Proof. by destruct e. Qed.

Lemma try_report_returns (m : IO.M stock price unit) w t :
  (IO.try_except m IO.report w t).2 = Ok tt.
Proof.
  unfold IO.try_except. destruct (m w t) as [t' [[]|e]]; [done|].
  by rewrite report_run.
Qed.

Lemma adds_only_ret P w {A} (a : A) : IO.adds_only P w (mret a).
Proof. intros t. exists []. by rewrite app_nil_r. Qed.

Lemma adds_only_lift P w {A} (r : result A) : IO.adds_only P w (IO.lift r).
Proof. intros t. exists []. by rewrite app_nil_r. Qed.

Lemma adds_only_now P w : IO.adds_only P w IO.now.
Proof. intros t. exists []. by rewrite app_nil_r. Qed.

Lemma adds_only_call_async P w {A} (body : IO.M stock price A) :
  IO.adds_only P w (IO.call_async body).
Proof. intros t. exists []. by rewrite app_nil_r. Qed.

Lemma adds_only_perform P w {A} c (answer : _ → _ → result A) :
  P (IO.Called c) → IO.adds_only P w (IO.perform c answer).
Proof. intros Hc t. exists [IO.Called c]. split; [done|]. by constructor. Qed.

Lemma adds_only_report P w e :
  (∀ error text, P (IO.Printed error text)) → IO.adds_only P w (IO.report e).
Proof.
  intros HP t. exists [IO.reported e]. rewrite report_run. split; [done|].
  constructor; [|done]. destruct e; apply HP.
Qed.

Lemma adds_only_bind P w {A B} (m : IO.M stock price A) (k : A → IO.M stock price B) :
  IO.adds_only P w m →
  (∀ a t t', m w t = (t', Ok a) → IO.adds_only P w (k a)) →
  IO.adds_only P w (m ≫= k).
Proof.
  intros Hm Hk t. rewrite io_bind_run.
  destruct (Hm t) as (evs & Ht & Hevs).
  destruct (m w t) as [t' [a|e]] eqn:Hrun; simpl in Ht; subst t'.
  - destruct (Hk a _ _ Hrun (t ++ evs)) as (evs' & -> & Hevs').
    exists (evs ++ evs'). rewrite app_assoc. split; [done|].
    by apply Forall_app.
  - by exists evs.
Qed.

Lemma adds_only_try P w {A} (m : IO.M stock price A) handler :
  IO.adds_only P w m → (∀ e, IO.adds_only P w (handler e)) →
  IO.adds_only P w (IO.try_except m handler).
Proof.
  intros Hm Hh t. unfold IO.try_except.
  destruct (Hm t) as (evs & Ht & Hevs).
  destruct (m w t) as [t' [a|e]] eqn:Hrun; simpl in Ht; subst t'.
  - by exists evs.
  - destruct (Hh e (t ++ evs)) as (evs' & -> & Hevs').
    exists (evs ++ evs'). rewrite app_assoc. split; [done|].
    by apply Forall_app.
Qed.

Lemma adds_only_for P w {A} (xs : list A) (body : A → IO.M stock price unit) :
  (∀ x, x ∈ xs → IO.adds_only P w (body x)) → IO.adds_only P w (IO.for_ xs body).
Proof.
  induction xs as [|x xs IH]; intros Hbody; [apply adds_only_ret|].
  apply (adds_only_bind P w (body x) (λ _, IO.for_ xs body)).
  - apply Hbody. by left.
  - intros _ _ _ _. apply IH. intros y Hy. apply Hbody. by right.
Qed.

(** A loop of stock updates all of which are acknowledged. *)
Lemma stock_updates_run w (chunks : list (list stock)) (id token : string) t :
  (∀ t' chunk, IO.stocks_answer w t' chunk id token = Ok tt) →
  IO.for_ chunks (λ some_stock, IO.update_stocks some_stock id token) w t
  = (t ++ ((λ chunk, IO.Called (IO.UpdateStocks chunk id token)) <$> chunks),
     Ok tt).
Proof.
  intros Hack. revert t. induction chunks as [|chunk chunks IH]; intros t.
  { simpl. by rewrite app_nil_r. }
  simpl. unfold IO.bind, IO.update_stocks, IO.perform at 1.
  rewrite Hack, IH, <- app_assoc. done.
Qed.

End Traces.

Section PricesAfterStocks.
Implicit Types (rows : list row) (ids : list string).

Lemma filter_none {A} (P : A → Prop) `{!∀ x, Decision (P x)} (l : list A) :
  Forall (λ x, ¬ P x) l → filter P l = [].
Proof.
  induction 1 as [|x l Hx _ IH]; [done|]. by rewrite filter_cons_False.
Qed.

Lemma priced_rows_leftovers rows ids : priced_rows (leftovers ids rows) rows = [].
Proof.
  unfold priced_rows. apply filter_none, Forall_forall.
  intros watch Hin [Hout _]%list_elem_of_filter.
  apply Hout. unfold codes. by apply list_elem_of_fmap_2.
Qed.

(** In seller.py the prices are made from what [create_stocks] left in
    [offer_ids]: for a duplicate-free catalog, no row is listed there. *)
Lemma seller_prices_after_stocks rows ids stocks ids' :
  NoDup ids →
  Seller.create_stocks rows ids = Ok (stocks, ids') →
  Seller.create_prices rows ids' = Ok [].
Proof.
  intros Hnd Hrun.
  apply seller_create_stocks in Hrun as (recs & _ & _ & _ & _ & Hexact).
  destruct (Hexact Hnd) as [Hleft _].
  by rewrite Hleft, seller_create_prices_collect, priced_rows_leftovers.
Qed.

Lemma lift_run {stock price A} (r : result A) (w : IO.world stock price) t t' a :
  IO.lift r w t = (t', Ok a) → r = Ok a.
Proof. by intros [= _ ->]. Qed.

Lemma seller_main_no_price_call (w : IO.world Seller.Stock.t Seller.Price.t)
  (seller_token client_id : string) :
  (∀ t ids, IO.offer_ids_of w t client_id seller_token = Ok ids → NoDup ids) →
  IO.adds_only (λ ev, IO.is_price_call ev = false) w
    (Seller.main seller_token client_id).
Proof.
  intros Hcatalog. unfold Seller.main.
  apply adds_only_try; [|intros e; by apply adds_only_report].
  apply adds_only_bind; [by apply adds_only_perform|].
  intros offer_ids t0 t1 Hids. injection Hids as _ Hids.
  apply Hcatalog in Hids.
  apply adds_only_bind; [by apply adds_only_perform|].
  intros watch_remnants _ _ _.
  apply adds_only_bind; [apply adds_only_lift|].
  intros [stocks ids'] t2 t3 Hstocks%lift_run. cbv beta iota.
  apply adds_only_bind; [apply adds_only_lift|]. intros chunks _ _ _.
  apply adds_only_bind.
  { apply adds_only_for. intros chunk _. by apply adds_only_perform. }
  intros _ _ _ _.
  rewrite (seller_prices_after_stocks _ _ _ _ Hids Hstocks).
  apply adds_only_bind; [apply adds_only_lift|].
  intros prices t4 t5 [= <-]%lift_run.
  apply adds_only_bind; [apply adds_only_lift|].
  intros chunks' t6 t7 [= <-]%lift_run.
  apply adds_only_ret.
Qed.

End PricesAfterStocks.

(** C4.  In seller.py [main] hands to [create_prices] the very list that
    [create_stocks] has emptied of the matched ids.  For a duplicate-free
    catalog every id that a row carries is gone from it, so [create_prices]
    returns the empty list, whatever the rows; and a run of [main] in which
    the catalog fetched is duplicate-free makes no price-update call. *)
Theorem seller_prices_after_stocks_empty :
  (∀ (rows : list row) (ids : list string) stocks ids',
     NoDup ids →
     Seller.create_stocks rows ids = Ok (stocks, ids') →
     Seller.create_prices rows ids' = Ok [])
  ∧ (∀ (w : IO.world Seller.Stock.t Seller.Price.t) (seller_token client_id : string),
       (∀ t ids, IO.offer_ids_of w t client_id seller_token = Ok ids → NoDup ids) →
       Forall (λ ev, IO.is_price_call ev = false)
         (Seller.main seller_token client_id w []).1).
Proof.
  split; [apply seller_prices_after_stocks|].
  intros w seller_token client_id Hcatalog.
  destruct (seller_main_no_price_call w seller_token client_id Hcatalog [])
    as (evs & -> & Hevs).
  done.
Qed.

Lemma seller_prices_after_stocks_empty_witness :
  Seller.create_prices [Examples.watch_63433] ["99999"] = Ok []
  ∧ Forall (λ ev, IO.is_price_call ev = false)
      (Seller.main "token" "client" Examples.fair_seller []).1.
Proof.
  destruct seller_prices_after_stocks_empty as [Hcompose Hmain]. split.
  - apply (Hcompose [Examples.watch_63433] Examples.catalog
             [Seller.Stock.Make "63433" 100; Seller.Stock.Make "99999" 0] ["99999"]).
    + apply (bool_decide_unpack _). vm_compute. exact I.
    + vm_compute. reflexivity.
  - apply Hmain. intros t ids [= <-].
    apply (bool_decide_unpack _). vm_compute. exact I.
Defined.

Section MarketMain.
Context (w : IO.world Market.Stock.t Market.Price.t).
Context (market_token campaign_fbs_id campaign_dbs_id : string).
Context (warehouse_fbs_id warehouse_dbs_id : string).

Local Abbreviation no_price_call := (λ ev : IO.event Market.Stock.t Market.Price.t,
                                    IO.is_price_call ev = false).

Lemma market_segment_no_price_call rows campaign_id warehouse_id :
  IO.adds_only no_price_call w (Market.fbs rows market_token campaign_id warehouse_id)
  ∧ IO.adds_only no_price_call w
      (Market.dbs rows market_token campaign_id warehouse_id).
Proof.
  split.
  - unfold Market.fbs.
    apply adds_only_bind; [by apply adds_only_perform|]. intros offer_ids _ _ _.
    apply adds_only_bind; [apply adds_only_now|]. intros date _ _ _.
    apply adds_only_bind; [apply adds_only_lift|]. intros [stocks ids'] _ _ _.
    cbv beta iota.
    apply adds_only_bind; [apply adds_only_lift|]. intros chunks _ _ _.
    apply adds_only_bind.
    { apply adds_only_for. intros chunk _. by apply adds_only_perform. }
    intros _ _ _ _.
    apply adds_only_bind; [apply adds_only_call_async|]. intros _ _ _ _.
    apply adds_only_ret.
  - unfold Market.dbs.
    apply adds_only_bind; [by apply adds_only_perform|]. intros offer_ids _ _ _.
    apply adds_only_bind; [apply adds_only_now|]. intros date _ _ _.
    apply adds_only_bind; [apply adds_only_lift|]. intros [stocks ids'] _ _ _.
    cbv beta iota.
    apply adds_only_bind; [apply adds_only_lift|]. intros chunks _ _ _.
    apply adds_only_bind.
    { apply adds_only_for. intros chunk _. by apply adds_only_perform. }
    intros _ _ _ _.
    apply adds_only_bind; [apply adds_only_call_async|]. intros _ _ _ _.
    apply adds_only_ret.
Qed.

Lemma market_main_no_price_call :
  IO.adds_only no_price_call w
    (Market.main market_token campaign_fbs_id campaign_dbs_id
       warehouse_fbs_id warehouse_dbs_id).
Proof.
  unfold Market.main.
  apply adds_only_bind; [by apply adds_only_perform|]. intros rows _ _ _.
  apply adds_only_try; [|intros e; by apply adds_only_report].
  apply adds_only_bind; [apply market_segment_no_price_call|]. intros _ _ _ _.
  apply market_segment_no_price_call.
Qed.

(** One segment of [main] when every call is answered. *)
Lemma market_segment_run rows ids date campaign_id warehouse_id stocks left chunks t :
  IO.offer_ids_of w t campaign_id market_token = Ok ids →
  IO.utcnow w (t ++ [IO.Called (IO.GetOfferIds campaign_id market_token)]) = date →
  (∀ t' chunk, IO.stocks_answer w t' chunk campaign_id market_token = Ok tt) →
  Market.create_stocks date rows ids warehouse_id = Ok (stocks, left) →
  Seller.divide stocks 2000 = Ok chunks →
  Market.fbs rows market_token campaign_id warehouse_id w t
  = (t ++ IO.Called (IO.GetOfferIds campaign_id market_token)
        :: ((λ chunk, IO.Called (IO.UpdateStocks chunk campaign_id market_token))
              <$> chunks),
     Ok tt)
  ∧ Market.dbs rows market_token campaign_id warehouse_id w t
    = Market.fbs rows market_token campaign_id warehouse_id w t.
Proof.
  intros Hids Hdate Hack Hstocks Hchunks. split; [|done].
  unfold Market.fbs. rewrite io_bind_run.
  unfold IO.get_offer_ids, IO.perform at 1. rewrite Hids.
  rewrite io_bind_run. unfold IO.now at 1. rewrite Hdate.
  rewrite io_bind_run. unfold IO.lift at 1. rewrite Hstocks.
  rewrite io_bind_run. unfold IO.lift at 1. rewrite Hchunks.
  rewrite io_bind_run, stock_updates_run by done.
  by rewrite <- app_assoc.
Qed.

End MarketMain.

(** C5.  In market.py [main] calls the coroutine function [upload_prices]
    and drops the coroutine object: the body never runs.  So no run of
    [main], in any world, makes a price-update call, for the FBS or the DBS
    shop.  The stock updates are made as written: when every call is
    answered, the run is the download, then for FBS and then for DBS the
    catalog fetch followed by one stock update per chunk of 2000 records, in
    order. *)
Theorem market_main_never_updates_prices
  (w : IO.world Market.Stock.t Market.Price.t)
  (market_token campaign_fbs_id campaign_dbs_id warehouse_fbs_id warehouse_dbs_id : string) :
  Forall (λ ev, IO.is_price_call ev = false)
    (Market.main market_token campaign_fbs_id campaign_dbs_id
       warehouse_fbs_id warehouse_dbs_id w []).1
  ∧ (∀ rows ids_fbs ids_dbs date stocks_fbs left_fbs stocks_dbs left_dbs,
       IO.stock_file w [] = Ok rows →
       (∀ t, IO.offer_ids_of w t campaign_fbs_id market_token = Ok ids_fbs) →
       (∀ t, IO.offer_ids_of w t campaign_dbs_id market_token = Ok ids_dbs) →
       (∀ t, IO.utcnow w t = date) →
       (∀ t chunk id, IO.stocks_answer w t chunk id market_token = Ok tt) →
       Market.create_stocks date rows ids_fbs warehouse_fbs_id
       = Ok (stocks_fbs, left_fbs) →
       Market.create_stocks date rows ids_dbs warehouse_dbs_id
       = Ok (stocks_dbs, left_dbs) →
       ∃ chunks_fbs chunks_dbs,
         Seller.divide stocks_fbs 2000 = Ok chunks_fbs
         ∧ Seller.divide stocks_dbs 2000 = Ok chunks_dbs
         ∧ Market.main market_token campaign_fbs_id campaign_dbs_id
             warehouse_fbs_id warehouse_dbs_id w []
           = ([IO.Called IO.DownloadStock;
               IO.Called (IO.GetOfferIds campaign_fbs_id market_token)]
              ++ ((λ chunk, IO.Called (IO.UpdateStocks chunk campaign_fbs_id market_token))
                    <$> chunks_fbs)
              ++ [IO.Called (IO.GetOfferIds campaign_dbs_id market_token)]
              ++ ((λ chunk, IO.Called (IO.UpdateStocks chunk campaign_dbs_id market_token))
                    <$> chunks_dbs),
              Ok tt)).
Proof.
  split.
  - destruct (market_main_no_price_call w market_token campaign_fbs_id
                campaign_dbs_id warehouse_fbs_id warehouse_dbs_id [])
      as (evs & -> & Hevs).
    done.
  - intros rows ids_fbs ids_dbs date stocks_fbs left_fbs stocks_dbs left_dbs
      Hrows Hfbs Hdbs Hdate Hack Hstocks_fbs Hstocks_dbs.
    eexists _, _. split; [by apply divide_windows|]. split; [by apply divide_windows|].
    unfold Market.main. rewrite io_bind_run.
    unfold IO.download_stock, IO.perform at 1. rewrite Hrows.
    unfold IO.try_except. rewrite io_bind_run.
    destruct (market_segment_run w market_token rows ids_fbs date campaign_fbs_id
                warehouse_fbs_id stocks_fbs left_fbs _ ([] ++ [IO.Called IO.DownloadStock])
                (Hfbs _) (Hdate _) (λ t chunk, Hack t chunk _) Hstocks_fbs
                (divide_windows stocks_fbs 2000 eq_refl)) as [-> _].
    destruct (market_segment_run w market_token rows ids_dbs date campaign_dbs_id
                warehouse_dbs_id stocks_dbs left_dbs _
                (([] ++ [IO.Called IO.DownloadStock])
                 ++ IO.Called (IO.GetOfferIds campaign_fbs_id market_token)
                 :: ((λ chunk, IO.Called (IO.UpdateStocks chunk campaign_fbs_id market_token))
                       <$> windows (Z.to_nat 2000) stocks_fbs
                             (Z.to_nat (range_len 0 (Z.of_nat (length stocks_fbs)) 2000))))
                (Hdbs _) (Hdate _) (λ t chunk, Hack t chunk _) Hstocks_dbs
                (divide_windows stocks_dbs 2000 eq_refl)) as [_ ->].
    destruct (market_segment_run w market_token rows ids_dbs date campaign_dbs_id
                warehouse_dbs_id stocks_dbs left_dbs _
                (([] ++ [IO.Called IO.DownloadStock])
                 ++ IO.Called (IO.GetOfferIds campaign_fbs_id market_token)
                 :: ((λ chunk, IO.Called (IO.UpdateStocks chunk campaign_fbs_id market_token))
                       <$> windows (Z.to_nat 2000) stocks_fbs
                             (Z.to_nat (range_len 0 (Z.of_nat (length stocks_fbs)) 2000))))
                (Hdbs _) (Hdate _) (λ t chunk, Hack t chunk _) Hstocks_dbs
                (divide_windows stocks_dbs 2000 eq_refl)) as [-> _].
    done.
Qed.

Lemma market_main_never_updates_prices_witness :
  Forall (λ ev, IO.is_price_call ev = false)
    (Market.main "token" "fbs" "dbs" "wf" "wd" Examples.fair_market []).1
  ∧ ∃ chunks_fbs chunks_dbs,
      Seller.divide
        (market_stock "wf" Examples.date
           <$> [Seller.Stock.Make "63433" 100; Seller.Stock.Make "99999" 0]) 2000
      = Ok chunks_fbs
      ∧ Seller.divide
          (market_stock "wd" Examples.date
             <$> [Seller.Stock.Make "63433" 100; Seller.Stock.Make "99999" 0]) 2000
        = Ok chunks_dbs
      ∧ Market.main "token" "fbs" "dbs" "wf" "wd" Examples.fair_market []
        = ([IO.Called IO.DownloadStock; IO.Called (IO.GetOfferIds "fbs" "token")]
           ++ ((λ chunk, IO.Called (IO.UpdateStocks chunk "fbs" "token")) <$> chunks_fbs)
           ++ [IO.Called (IO.GetOfferIds "dbs" "token")]
           ++ ((λ chunk, IO.Called (IO.UpdateStocks chunk "dbs" "token")) <$> chunks_dbs),
           Ok tt).
Proof.
  destruct (market_main_never_updates_prices Examples.fair_market
              "token" "fbs" "dbs" "wf" "wd") as [Hquiet Hrun].
  split; [exact Hquiet|].
  apply (Hrun [Examples.watch_63433] Examples.catalog Examples.catalog Examples.date
           _ ["99999"] _ ["99999"]).
  - reflexivity.
  - intros t. reflexivity.
  - intros t. reflexivity.
  - intros t. reflexivity.
  - intros t chunk id. reflexivity.
  - vm_compute. reflexivity.
  - vm_compute. reflexivity.
Defined.


(** * Further properties of the code *)

(** ** The price normaliser and the price records *)

Section NormalisedPrices.

Lemma all_digits_split_head s : all_digits s → split_head "." s = s.
Proof.
  induction s as [|c s IH]; [done|].
  rewrite all_digits_cons. intros [Hc Hs]. simpl.
  destruct (Ascii.eqb_spec c ".") as [->|_]; [discriminate Hc|].
  by rewrite (IH Hs).
Qed.

Lemma all_digits_sub_non_digits s : all_digits s → sub_non_digits s = s.
Proof.
  induction s as [|c s IH]; [done|].
  rewrite all_digits_cons. intros [Hc Hs]. simpl. by rewrite Hc, (IH Hs).
Qed.

Lemma int_of_str_digits_nonneg s v :
  all_digits s → int_of_str s = Some v → 0 ≤ v.
Proof.
  intros Hs Hv. rewrite int_of_str_all_digits in Hv by done.
  destruct (decide _); [done|]. unfold digits_value in Hv.
  destruct (_ <=? _); [|done].
  destruct (NilEmpty.uint_of_string s); [|done]. injection Hv as <-.
  unfold Z.of_uint. lia.
Qed.

Lemma collect_ok_inv {A B} (f : A → result B) (l : list A) bs :
  collect (f <$> l) = Ok bs → Forall2 (λ x b, f x = Ok b) l bs.
Proof.
  revert bs. induction l as [|x l IH]; intros bs.
  - intros [= <-]. constructor.
  - rewrite collect_cons. destruct (f x) as [b|e] eqn:Hb; [|done].
    rewrite bind_ok. destruct (collect (f <$> l)) as [bs'|e]; [|done].
    rewrite bind_ok. intros [= <-]. constructor; [done|]. by apply IH.
Qed.

Lemma seller_price_inv watch p :
  seller_price watch = Ok p →
  Seller.price_conversion (get watch "Цена") = Ok (Seller.Price.price p)
  ∧ Seller.Price.offer_id p = code watch.
Proof.
  unfold seller_price.
  destruct (Seller.price_conversion _) as [d|e]; [|done].
  rewrite bind_ok. by intros [= <-].
Qed.

Lemma market_price_inv watch q :
  market_price watch = Ok q →
  ∃ d, Seller.price_conversion (get watch "Цена") = Ok d
       ∧ int_of_str d = Some (Market.Value.value (Market.Price.price q))
       ∧ Market.Price.id q = code watch
       ∧ Market.Value.currencyId (Market.Price.price q) = "RUR".
Proof.
  unfold market_price.
  destruct (Seller.price_conversion _) as [d|e]; [|done].
  rewrite bind_ok. simpl. destruct (int_of_str d) as [v|] eqn:Hv; [|done].
  rewrite bind_ok. intros [= <-]. by exists d.
Qed.

End NormalisedPrices.

(** X1.  [price_conversion] is idempotent: applied to its own result it
    returns that result again. *)
Theorem price_conversion_idempotent (s : string) :
  Seller.price_conversion (PStr s) ≫= (λ d, Seller.price_conversion (PStr d))
  = Seller.price_conversion (PStr s).
Proof.
  change (Seller.price_conversion (PStr (sub_non_digits (split_head "." s)))
          = Ok (sub_non_digits (split_head "." s))).
  simpl. f_equal.
  rewrite all_digits_split_head by apply sub_non_digits_all_digits.
  apply all_digits_sub_non_digits, sub_non_digits_all_digits.
Qed.


Section PriceRecords.
Implicit Types (rows : list row) (ids : list string).

Lemma priced_rows_listed rows ids watch :
  watch ∈ priced_rows ids rows → code watch ∈ ids.
Proof. unfold priced_rows. by intros [? _]%list_elem_of_filter. Qed.

Lemma priced_rows_idemp rows ids :
  priced_rows ids (priced_rows ids rows) = priced_rows ids rows.
Proof.
  unfold priced_rows. rewrite list_filter_filter.
  apply list_filter_iff. tauto.
Qed.

Lemma seller_prices_inv rows ids prices :
  Seller.create_prices rows ids = Ok prices →
  Forall2 (λ watch p, seller_price watch = Ok p) (priced_rows ids rows) prices.
Proof. rewrite seller_create_prices_collect. apply collect_ok_inv. Qed.

Lemma market_prices_inv rows ids prices :
  Market.create_prices rows ids = Ok prices →
  Forall2 (λ watch q, market_price watch = Ok q) (priced_rows ids rows) prices.
Proof. rewrite market_create_prices_collect. apply collect_ok_inv. Qed.

Lemma market_price_seller_price watch q :
  market_price watch = Ok q →
  ∃ p, seller_price watch = Ok p
       ∧ Market.Price.id q = Seller.Price.offer_id p
       ∧ int_of_str (Seller.Price.price p)
         = Some (Market.Value.value (Market.Price.price q)).
Proof.
  intros (d & Hd & Hv & Hid & _)%market_price_inv.
  unfold seller_price. rewrite Hd, bind_ok. by eexists.
Qed.

End PriceRecords.

(** X2.  Whatever the rows, a price record that [create_prices] returns is
    for an id of [offer_ids]; in seller.py its price is a string of digits
    only, in market.py its value is never negative (a sign in the price cell
    goes with the other characters that are not digits). *)
Theorem create_prices_records_well_formed (rows : list row) (ids : list string) :
  (∀ prices,
     Seller.create_prices rows ids = Ok prices →
     Forall (λ p, Seller.Price.offer_id p ∈ ids ∧ all_digits (Seller.Price.price p))
       prices)
  ∧ (∀ prices,
       Market.create_prices rows ids = Ok prices →
       Forall (λ q, Market.Price.id q ∈ ids
                    ∧ 0 ≤ Market.Value.value (Market.Price.price q)) prices).
Proof.
  split; intros prices Hrun.
  - apply seller_prices_inv in Hrun.
    assert (Hlisted : Forall (λ watch, code watch ∈ ids) (priced_rows ids rows)).
    { apply Forall_forall. intros watch. apply priced_rows_listed. }
    induction Hrun as [|watch p l ps Hp _ IH]; [constructor|].
    apply Forall_cons in Hlisted as [Hin Hlisted].
    constructor; [|by apply IH].
    apply seller_price_inv in Hp as [Hprice ->]. split; [done|].
    by eapply price_conversion_all_digits.
  - apply market_prices_inv in Hrun.
    assert (Hlisted : Forall (λ watch, code watch ∈ ids) (priced_rows ids rows)).
    { apply Forall_forall. intros watch. apply priced_rows_listed. }
    induction Hrun as [|watch q l qs Hq _ IH]; [constructor|].
    apply Forall_cons in Hlisted as [Hin Hlisted].
    constructor; [|by apply IH].
    apply market_price_inv in Hq as (d & Hd & Hv & -> & _). split; [done|].
    eapply int_of_str_digits_nonneg; [|exact Hv].
    by eapply price_conversion_all_digits.
Qed.

Lemma create_prices_records_well_formed_witness :
  Forall (λ p, Seller.Price.offer_id p ∈ Examples.catalog
               ∧ all_digits (Seller.Price.price p))
    [Seller.Price.Make "UNKNOWN" "RUB" "63433" "0" "2240"]
  ∧ Forall (λ q, Market.Price.id q ∈ Examples.catalog
                 ∧ 0 ≤ Market.Value.value (Market.Price.price q))
      [Market.Price.Make "63433" (Market.Value.Make 2240 "RUR")].
Proof.
  destruct (create_prices_records_well_formed
              [Examples.watch_63433; Examples.watch_777] Examples.catalog)
    as [Hseller Hmarket].
  split.
  - apply Hseller. vm_compute. reflexivity.
  - apply Hmarket. vm_compute. reflexivity.
Defined.

(** X3.  The two files agree on prices: whenever market.py makes its price
    records from some rows and ids, seller.py makes records from them too,
    one for each of market.py's, in the same order, for the same id, and the
    value in market.py is the number that the price string of seller.py
    writes. *)
Theorem market_prices_are_seller_prices (rows : list row) (ids : list string)
  (market_prices : list Market.Price.t) :
  Market.create_prices rows ids = Ok market_prices →
  ∃ seller_prices,
    Seller.create_prices rows ids = Ok seller_prices
    ∧ Forall2 (λ p q, Market.Price.id q = Seller.Price.offer_id p
                      ∧ int_of_str (Seller.Price.price p)
                        = Some (Market.Value.value (Market.Price.price q)))
        seller_prices market_prices.
Proof.
  intros Hrun%market_prices_inv. rewrite seller_create_prices_collect.
  induction Hrun as [|watch q l qs Hq _ (ps & Hps & Hall)].
  - exists []. by split; [|constructor].
  - apply market_price_seller_price in Hq as (p & Hp & Hid & Hv).
    exists (p :: ps). rewrite collect_cons, Hp, bind_ok, Hps, bind_ok.
    by split; [|constructor].
Qed.

Lemma market_prices_are_seller_prices_witness :
  ∃ seller_prices,
    Seller.create_prices [Examples.watch_63433; Examples.watch_777] Examples.catalog
    = Ok seller_prices
    ∧ Forall2 (λ p q, Market.Price.id q = Seller.Price.offer_id p
                      ∧ int_of_str (Seller.Price.price p)
                        = Some (Market.Value.value (Market.Price.price q)))
        seller_prices [Market.Price.Make "63433" (Market.Value.Make 2240 "RUR")].
Proof.
  apply (market_prices_are_seller_prices
           [Examples.watch_63433; Examples.watch_777] Examples.catalog).
  vm_compute. reflexivity.
Defined.

(** X4.  [create_prices] never looks at a row whose code is not in
    [offer_ids]: taking such rows out changes nothing, whatever their
    cells hold; and when no row is listed the result is the empty list,
    without any exception. *)
Theorem create_prices_skips_unlisted_rows (rows : list row) (ids : list string) :
  Seller.create_prices rows ids = Seller.create_prices (priced_rows ids rows) ids
  ∧ Market.create_prices rows ids = Market.create_prices (priced_rows ids rows) ids
  ∧ (Forall (λ watch, code watch ∉ ids) rows →
     Seller.create_prices rows ids = Ok [] ∧ Market.create_prices rows ids = Ok []).
Proof.
  rewrite !seller_create_prices_collect, !market_create_prices_collect,
    priced_rows_idemp.
  split; [done|]. split; [done|]. intros Hnone.
  unfold priced_rows. by rewrite filter_none.
Qed.

Lemma create_prices_skips_unlisted_rows_witness :
  Seller.create_prices [Examples.watch_777] Examples.catalog = Ok []
  ∧ Market.create_prices [Examples.watch_777] Examples.catalog = Ok [].
Proof.
  destruct (create_prices_skips_unlisted_rows [Examples.watch_777] Examples.catalog)
    as (_ & _ & Hnone).
  apply Hnone. apply (bool_decide_unpack _). vm_compute. exact I.
Defined.

(** ** More on the stock records *)

Section StocksMore.
Implicit Types (watch : row) (rows : list row) (ids cur : list string)
  (acc : list Seller.Stock.t).

Lemma remove_subseteq (x : string) cur cur' :
  remove x cur = Ok cur' → ∀ y, y ∈ cur' → y ∈ cur.
Proof.
  revert cur'. induction cur as [|z cur IH]; intros cur'; [done|]. simpl.
  destruct (decide (x = z)) as [->|_].
  - intros [= <-] y Hy. by right.
  - destruct (remove x cur) as [r|e]; [|done]. intros [= <-] y.
    rewrite !elem_of_cons. intros [->|Hy]; [by left|]. right. by apply (IH r).
Qed.

Lemma seller_row_subseteq watch acc cur acc' cur' :
  Seller.create_stocks_row watch (acc, cur) = Ok (acc', cur') →
  ∀ y, y ∈ cur' → y ∈ cur.
Proof.
  unfold Seller.create_stocks_row.
  destruct (contains _ cur); [|by intros [= _ <-]].
  destruct (if String.eqb _ _ then _ else _) as [n|e]; [|done].
  rewrite bind_ok. destruct (remove _ cur) as [r|e] eqn:Hr; [|done].
  rewrite bind_ok. intros [= _ <-]. by apply (remove_subseteq _ _ _ Hr).
Qed.

(** A row whose code is not in the catalog is passed over at any point of
    the loop. *)
Lemma seller_loop_listed rows ids : ∀ acc cur,
  (∀ y, y ∈ cur → y ∈ ids) →
  for_each Seller.create_stocks_row rows (acc, cur)
  = for_each Seller.create_stocks_row (priced_rows ids rows) (acc, cur).
Proof.
  induction rows as [|watch rows IH]; intros acc cur Hsub; [done|].
  unfold priced_rows. rewrite filter_cons.
  destruct (decide (code watch ∈ ids)) as [Hin|Hout].
  - rewrite !for_each_cons.
    destruct (Seller.create_stocks_row watch (acc, cur)) as [[acc' cur']|e] eqn:Hrow;
      [|done].
    rewrite !bind_ok. apply IH. intros y Hy. apply Hsub.
    by eapply (seller_row_subseteq watch acc cur acc' cur').
  - rewrite for_each_cons, seller_row_unmatched, bind_ok by naive_solver.
    by apply IH.
Qed.

Lemma seller_create_stocks_listed rows ids :
  Seller.create_stocks rows ids = Seller.create_stocks (priced_rows ids rows) ids.
Proof. unfold Seller.create_stocks. by rewrite (seller_loop_listed rows ids). Qed.

Lemma seller_create_stocks_none rows ids :
  Forall (λ watch, code watch ∉ ids) rows →
  Seller.create_stocks rows ids = Ok (zero_stock <$> ids, ids).
Proof.
  intros Hnone. rewrite seller_create_stocks_listed.
  unfold priced_rows. rewrite filter_none by done.
  unfold Seller.create_stocks. simpl. by rewrite zero_pass.
Qed.

End StocksMore.

(** X5.  Also for a catalog with repeated ids, the offer ids of the records
    that [create_stocks] returns are a rearrangement of the catalog: every
    id has as many records as it has occurrences in [offer_ids], so the
    number of records is the length of the catalog.  Both files. *)
Theorem create_stocks_keeps_catalog_multiset (rows : list row) (ids : list string) :
  (∀ stocks ids',
     Seller.create_stocks rows ids = Ok (stocks, ids') →
     Seller.Stock.offer_id <$> stocks ≡ₚ ids ∧ length stocks = length ids)
  ∧ (∀ date warehouse_id stocks ids',
       Market.create_stocks date rows ids warehouse_id = Ok (stocks, ids') →
       Market.Stock.sku <$> stocks ≡ₚ ids ∧ length stocks = length ids).
Proof.
  assert (Hseller : ∀ stocks ids',
    Seller.create_stocks rows ids = Ok (stocks, ids') →
    Seller.Stock.offer_id <$> stocks ≡ₚ ids ∧ length stocks = length ids).
  { intros stocks ids' Hrun.
    apply seller_create_stocks in Hrun as (recs & -> & Hperm & _).
    assert (Hids : Seller.Stock.offer_id <$> recs ++ (zero_stock <$> ids') ≡ₚ ids)
      by by rewrite fmap_app, zero_stock_ids.
    split; [done|]. by rewrite <- Hids, length_fmap. }
  split; [done|]. intros date wh stocks ids' Hrun.
  apply market_create_stocks_inv in Hrun as (stocks0 & Hrun & ->).
  rewrite market_stock_sku, length_fmap. by eapply Hseller.
Qed.

Lemma create_stocks_keeps_catalog_multiset_witness :
  (Seller.Stock.offer_id
     <$> [Seller.Stock.Make "63433" 100; Seller.Stock.Make "99999" 0;
          Seller.Stock.Make "63433" 0]
   ≡ₚ ["63433"; "99999"; "63433"]
   ∧ length [Seller.Stock.Make "63433" 100; Seller.Stock.Make "99999" 0;
             Seller.Stock.Make "63433" 0]
     = length ["63433"; "99999"; "63433"])
  ∧ (Market.Stock.sku
       <$> (market_stock "w" Examples.date
              <$> [Seller.Stock.Make "63433" 100; Seller.Stock.Make "99999" 0])
     ≡ₚ Examples.catalog
     ∧ length (market_stock "w" Examples.date
                 <$> [Seller.Stock.Make "63433" 100; Seller.Stock.Make "99999" 0])
       = length Examples.catalog).
Proof.
  split.
  - destruct (create_stocks_keeps_catalog_multiset [Examples.watch_63433]
                ["63433"; "99999"; "63433"]) as [Hseller _].
    apply (Hseller _ ["99999"; "63433"]). vm_compute. reflexivity.
  - destruct (create_stocks_keeps_catalog_multiset [Examples.watch_63433]
                Examples.catalog) as [_ Hmarket].
    apply (Hmarket Examples.date "w" _ ["99999"]). vm_compute. reflexivity.
Defined.

(** X6.  [create_stocks] never looks at the quantity of a row whose code is
    not in [offer_ids]: taking such rows out changes nothing.  When no row
    is listed (an empty spreadsheet, an empty catalog) every id of the
    catalog gets a record with stock 0, [offer_ids] is left as it was, and
    no exception is raised whatever the cells hold.  Both files. *)
Theorem create_stocks_skips_unlisted_rows (rows : list row) (ids : list string) :
  Seller.create_stocks rows ids = Seller.create_stocks (priced_rows ids rows) ids
  ∧ (∀ date warehouse_id,
       Market.create_stocks date rows ids warehouse_id
       = Market.create_stocks date (priced_rows ids rows) ids warehouse_id)
  ∧ (Forall (λ watch, code watch ∉ ids) rows →
     Seller.create_stocks rows ids = Ok (zero_stock <$> ids, ids)
     ∧ ∀ date warehouse_id,
         Market.create_stocks date rows ids warehouse_id
         = Ok (market_stock warehouse_id date ∘ zero_stock <$> ids, ids)).
Proof.
  split; [apply seller_create_stocks_listed|]. split.
  - intros date wh. by rewrite !market_create_stocks, <- seller_create_stocks_listed.
  - intros Hnone. split; [by apply seller_create_stocks_none|]. intros date wh.
    rewrite market_create_stocks, seller_create_stocks_none by done.
    rewrite fmap_ok. unfold as_market. simpl. by rewrite <- list_fmap_compose.
Qed.

Lemma create_stocks_skips_unlisted_rows_witness :
  Seller.create_stocks [Examples.watch_777] Examples.catalog
  = Ok (zero_stock <$> Examples.catalog, Examples.catalog)
  ∧ ∀ date warehouse_id,
      Market.create_stocks date [Examples.watch_777] Examples.catalog warehouse_id
      = Ok (market_stock warehouse_id date ∘ zero_stock <$> Examples.catalog,
            Examples.catalog).
Proof.
  destruct (create_stocks_skips_unlisted_rows [Examples.watch_777] Examples.catalog)
    as (_ & _ & Hnone).
  apply Hnone. apply (bool_decide_unpack _). vm_compute. exact I.
Defined.

Section LaterRows.
Implicit Types (watch : row) (rows : list row) (ids : list string).

Lemma seller_later_row watch rows1 rows2 ids :
  NoDup ids → code watch ∈ codes rows1 →
  Seller.create_stocks (rows1 ++ watch :: rows2) ids
  = Seller.create_stocks (rows1 ++ rows2) ids.
Proof.
  intros Hnd Hseen. unfold Seller.create_stocks. rewrite !for_each_app.
  destruct (for_each Seller.create_stocks_row rows1 ([], ids))
    as [[acc cur]|e] eqn:Hrun; [|done].
  rewrite !bind_ok, for_each_cons.
  apply seller_loop in Hrun as (recs & _ & _ & _ & _ & Hexact).
  destruct (Hexact Hnd) as [-> _].
  rewrite seller_row_unmatched; [done|].
  unfold leftovers. rewrite list_elem_of_filter. tauto.
Qed.

End LaterRows.

(** X7.  For a duplicate-free catalog only the first row of a code counts: a
    later row that carries a code seen before changes neither the records
    nor what is left in [offer_ids], and its quantity is not even read, so
    it cannot make the call fail.  Both files. *)
Theorem create_stocks_ignores_later_rows_of_a_code
  (rows1 rows2 : list row) (watch : row) (ids : list string) :
  NoDup ids →
  code watch ∈ codes rows1 →
  Seller.create_stocks (rows1 ++ watch :: rows2) ids
  = Seller.create_stocks (rows1 ++ rows2) ids
  ∧ ∀ date warehouse_id,
      Market.create_stocks date (rows1 ++ watch :: rows2) ids warehouse_id
      = Market.create_stocks date (rows1 ++ rows2) ids warehouse_id.
Proof.
  intros Hnd Hseen. split; [by apply seller_later_row|]. intros date wh.
  by rewrite !market_create_stocks, seller_later_row.
Qed.

Lemma create_stocks_ignores_later_rows_of_a_code_witness :
  Seller.create_stocks
    ([Examples.watch_63433] ++ Examples.watch_63433 :: [Examples.watch_777])
    Examples.catalog
  = Seller.create_stocks ([Examples.watch_63433] ++ [Examples.watch_777])
      Examples.catalog
  ∧ ∀ date warehouse_id,
      Market.create_stocks date
        ([Examples.watch_63433] ++ Examples.watch_63433 :: [Examples.watch_777])
        Examples.catalog warehouse_id
      = Market.create_stocks date ([Examples.watch_63433] ++ [Examples.watch_777])
          Examples.catalog warehouse_id.
Proof.
  apply (create_stocks_ignores_later_rows_of_a_code
           [Examples.watch_63433] [Examples.watch_777] Examples.watch_63433
           Examples.catalog).
  - apply (bool_decide_unpack _). vm_compute. exact I.
  - apply (bool_decide_unpack _). vm_compute. exact I.
Defined.

(** ** More on the chunker *)

(** X8.  For a chunk size other than 0, [divide] yields no chunk for an
    empty list, so that an empty payload causes no call; and a list that is
    not empty and no longer than the chunk size comes back as one chunk,
    the list itself. *)
Theorem divide_empty_and_short {A} (lst : list A) (n : Z) :
  (n ≠ 0 → Seller.divide (@nil A) n = Ok [])
  ∧ (lst ≠ [] → Z.of_nat (length lst) ≤ n → Seller.divide lst n = Ok [lst]).
Proof.
  split.
  - intros Hn. unfold Seller.divide, range, range_len.
    rewrite (proj2 (Z.eqb_neq n 0)) by done. simpl.
    rewrite andb_false_r. by destruct (n <? 0).
  - intros Hne Hlen.
    assert (0 < Z.of_nat (length lst)) by (destruct lst; [done|simpl; lia]).
    rewrite divide_windows by lia.
    destruct (range_len_ceil (Z.of_nat (length lst)) n) as [_ [Hlo Hhi]];
      [lia..|].
    assert (range_len 0 (Z.of_nat (length lst)) n = 1) as -> by nia.
    unfold windows. simpl. rewrite drop_0, take_ge by lia. done.
Qed.

Lemma divide_empty_and_short_witness :
  Seller.divide (@nil Z) 100 = Ok []
  ∧ Seller.divide [1; 2; 3] 100 = Ok [[1; 2; 3]].
Proof.
  destruct (divide_empty_and_short [1; 2; 3] 100) as [Hempty Hshort].
  split; [by apply Hempty|]. apply Hshort; [done | simpl; lia].
Defined.

(** ** The upload loops *)

Section PerformLoops.
Context {stock price A : Type}.
Context (mk : A → IO.call stock price).
Context (ans : IO.world stock price → IO.trace stock price → A → result unit).
Implicit Types (w : IO.world stock price) (t : IO.trace stock price) (xs : list A).

Local Abbreviation calls := (fmap (λ x, IO.Called (mk x))).
Local Abbreviation loop xs := (IO.for_ xs (λ x, IO.perform (mk x) (λ w t, ans w t x))).

Lemma perform_loop_cons x xs w t :
  loop (x :: xs) w t
  = match ans w t x with
    | Ok _ => loop xs w (t ++ [IO.Called (mk x)])
    | Err e => (t ++ [IO.Called (mk x)], Err e)
    end.
Proof. simpl. unfold IO.bind, IO.perform. by destruct (ans w t x) as [[]|e]. Qed.

(** A loop that ends normally has made every call, in order, and every
    call was acknowledged. *)
Lemma perform_loop_ok xs w : ∀ t t',
  loop xs w t = (t', Ok tt) →
  t' = t ++ calls xs
  ∧ ∀ i x, xs !! i = Some x → ans w (t ++ calls (take i xs)) x = Ok tt.
Proof.
  induction xs as [|x xs IH]; intros t t'.
  { intros [= <-]. rewrite app_nil_r. by split. }
  rewrite perform_loop_cons. destruct (ans w t x) as [[]|e] eqn:Hx; [|done].
  intros (-> & Hacks)%IH. split; [by rewrite <- app_assoc|].
  intros [|i] y Hy; simpl in *.
  - injection Hy as <-. by rewrite app_nil_r.
  - specialize (Hacks i y Hy). by rewrite <- app_assoc in Hacks.
Qed.

(** A loop that raises has stopped at the first call that failed: the
    calls before it were acknowledged, none is made after it. *)
Lemma perform_loop_err xs w e : ∀ t t',
  loop xs w t = (t', Err e) →
  ∃ i x,
    xs !! i = Some x
    ∧ t' = t ++ calls (take (S i) xs)
    ∧ ans w (t ++ calls (take i xs)) x = Err e
    ∧ ∀ j y, (j < i)%nat → xs !! j = Some y →
             ans w (t ++ calls (take j xs)) y = Ok tt.
Proof.
  induction xs as [|x xs IH]; intros t t'; [done|].
  rewrite perform_loop_cons. destruct (ans w t x) as [[]|e'] eqn:Hx.
  - intros (i & y & Hy & -> & Herr & Hacks)%IH.
    exists (S i), y. simpl. rewrite <- !app_assoc in *. repeat split; try done.
    intros [|j] z Hj Hz; simpl in *.
    + injection Hz as <-. by rewrite app_nil_r.
    + specialize (Hacks j z ltac:(lia) Hz). by rewrite <- app_assoc in Hacks.
  - intros [= <- <-]. exists 0%nat, x. simpl. rewrite ?take_0, app_nil_r.
    repeat split; try done. intros j y Hj. lia.
Qed.

(** A loop all of whose calls are acknowledged makes them all. *)
Lemma perform_loop_acked xs w : ∀ t,
  (∀ i x, xs !! i = Some x → ans w (t ++ calls (take i xs)) x = Ok tt) →
  loop xs w t = (t ++ calls xs, Ok tt).
Proof.
  induction xs as [|x xs IH]; intros t Hacks.
  { simpl. by rewrite app_nil_r. }
  rewrite perform_loop_cons.
  pose proof (Hacks 0%nat x eq_refl) as H0. simpl in H0.
  rewrite app_nil_r in H0. rewrite H0, IH.
  - by rewrite <- app_assoc.
  - intros i y Hy. specialize (Hacks (S i) y Hy). simpl in Hacks.
    by rewrite <- app_assoc.
Qed.

(** A loop whose call number [i] is the first to fail stops there. *)
Lemma perform_loop_fails xs w e i x : ∀ t,
  xs !! i = Some x →
  (∀ j y, (take i xs) !! j = Some y → ans w (t ++ calls (take j (take i xs))) y = Ok tt) →
  ans w (t ++ calls (take i xs)) x = Err e →
  loop xs w t = (t ++ calls (take (S i) xs), Err e).
Proof.
  revert i. induction xs as [|x0 xs IH]; intros i t Hi Hacks Herr; [done|].
  rewrite perform_loop_cons. destruct i as [|i]; simpl in *.
  - injection Hi as ->. rewrite app_nil_r in Herr. by rewrite Herr.
  - pose proof (Hacks 0%nat x0 eq_refl) as H0. simpl in H0.
    rewrite app_nil_r in H0. rewrite H0.
    rewrite (IH i (t ++ [IO.Called (mk x0)])); try done.
    + by rewrite <- app_assoc.
    + intros j y Hy. specialize (Hacks (S j) y Hy). simpl in Hacks.
      by rewrite <- app_assoc.
    + by rewrite <- app_assoc.
Qed.

End PerformLoops.

Section Chunks.
Context {A : Type}.

Lemma divide_splits (l : list A) (n : Z) chunks :
  0 < n → Seller.divide l n = Ok chunks → splits n l chunks.
Proof.
  intros Hn. rewrite divide_windows by done. intros [= <-].
  destruct (range_len_ceil (Z.of_nat (length l)) n) as [Hceil [Hlo Hhi]];
    [lia|done|].
  set (c := range_len 0 (Z.of_nat (length l)) n) in *.
  assert (Hc : 0 ≤ c) by (rewrite Hceil; apply Z.div_pos; lia).
  split.
  - rewrite windows_concat. apply take_ge. nia.
  - apply Forall_forall. intros ch Hch.
    apply list_elem_of_lookup in Hch as [k Hk].
    apply windows_lookup in Hk as [Hk ->].
    rewrite length_take, length_drop. nia.
Qed.

Lemma divide_returns (l : list A) (n : Z) :
  0 < n → ∃ chunks, Seller.divide l n = Ok chunks.
Proof. intros Hn. eexists. by apply divide_windows. Qed.

End Chunks.

(** ** Exceptions in the two [main] functions *)

Section SellerMain.
Context (w : IO.world Seller.Stock.t Seller.Price.t).
Context (seller_token client_id : string).

Local Abbreviation fetch := (IO.Called (IO.GetOfferIds client_id seller_token)).
Local Abbreviation download :=
  (IO.Called IO.DownloadStock : IO.event Seller.Stock.t Seller.Price.t).
Local Abbreviation caught r :=
  (match r with
   | (t, Ok _) => (t, Ok tt)
   | (t, Err e) => (t ++ [IO.reported e], Ok tt)
   end).

(** A run of [main], step by step. *)
Lemma seller_main_run :
  Seller.main seller_token client_id w []
  = match IO.offer_ids_of w [] client_id seller_token with
    | Err e => ([fetch; IO.reported e], Ok tt)
    | Ok ids =>
        match IO.stock_file w [fetch] with
        | Err e => ([fetch; download; IO.reported e], Ok tt)
        | Ok rows =>
            match Seller.create_stocks rows ids with
            | Err e => ([fetch; download; IO.reported e], Ok tt)
            | Ok (stocks, ids') =>
                match Seller.divide stocks 100 with
                | Err e => ([fetch; download; IO.reported e], Ok tt)
                | Ok chunks =>
                    match IO.for_ chunks
                            (λ some_stock,
                               IO.update_stocks some_stock client_id seller_token)
                            w [fetch; download]
                    with
                    | (t, Err e) => (t ++ [IO.reported e], Ok tt)
                    | (t, Ok _) =>
                        match Seller.create_prices rows ids' with
                        | Err e => (t ++ [IO.reported e], Ok tt)
                        | Ok prices =>
                            match Seller.divide prices 900 with
                            | Err e => (t ++ [IO.reported e], Ok tt)
                            | Ok chunks' =>
                                caught
                                  (IO.for_ chunks'
                                     (λ some_price,
                                        IO.update_price some_price client_id
                                          seller_token) w t)
                            end
                        end
                    end
                end
            end
        end
    end.
Proof.
  unfold Seller.main, IO.try_except. rewrite io_bind_run.
  unfold IO.get_offer_ids, IO.perform at 1. simpl app.
  destruct (IO.offer_ids_of w [] client_id seller_token) as [ids|e];
    [|by rewrite report_run].
  rewrite io_bind_run. unfold IO.download_stock, IO.perform at 1. simpl app.
  destruct (IO.stock_file w [fetch]) as [rows|e]; [|by rewrite report_run].
  rewrite io_bind_run. unfold IO.lift at 1.
  destruct (Seller.create_stocks rows ids) as [[stocks ids']|e];
    [|by rewrite report_run].
  rewrite io_bind_run. unfold IO.lift at 1.
  destruct (Seller.divide stocks 100) as [chunks|e]; [|by rewrite report_run].
  rewrite io_bind_run.
  destruct (IO.for_ chunks _ w _) as [t [[]|e]]; [|by rewrite report_run].
  rewrite io_bind_run. unfold IO.lift at 1.
  destruct (Seller.create_prices rows ids') as [prices|e]; [|by rewrite report_run].
  rewrite io_bind_run. unfold IO.lift at 1.
  destruct (Seller.divide prices 900) as [chunks'|e]; [|by rewrite report_run].
  destruct (IO.for_ chunks' _ w t) as [t' [[]|e]]; [done|by rewrite report_run].
Qed.

End SellerMain.

Section Acknowledged.
Context {stock price : Type} (w : IO.world stock price) (id token : string).
Implicit Types (t : IO.trace stock price).

Lemma stock_loop_acked t (chunks : list (list stock)) :
  stocks_acked w id token t chunks →
  IO.for_ chunks (λ some_stock, IO.update_stocks some_stock id token) w t
  = (t ++ stock_calls id token chunks, Ok tt).
Proof.
  intros Hack.
  apply (perform_loop_acked (λ x, IO.UpdateStocks x id token)
           (λ w t x, IO.stocks_answer w t x id token)). exact Hack.
Qed.

Lemma stock_loop_fails t (chunks : list (list stock)) i chunk e :
  chunks !! i = Some chunk →
  stocks_acked w id token t (take i chunks) →
  IO.stocks_answer w (t ++ stock_calls id token (take i chunks)) chunk id token
  = Err e →
  IO.for_ chunks (λ some_stock, IO.update_stocks some_stock id token) w t
  = (t ++ stock_calls id token (take (S i) chunks), Err e).
Proof.
  intros Hi Hack Herr.
  by apply (perform_loop_fails (λ x, IO.UpdateStocks x id token)
              (λ w t x, IO.stocks_answer w t x id token) chunks w e i chunk).
Qed.

Lemma price_loop_acked t (chunks : list (list price)) :
  prices_acked w id token t chunks →
  IO.for_ chunks (λ some_price, IO.update_price some_price id token) w t
  = (t ++ price_calls id token chunks, Ok tt).
Proof.
  intros Hack.
  apply (perform_loop_acked (λ x, IO.UpdatePrice x id token)
           (λ w t x, IO.price_answer w t x id token)). exact Hack.
Qed.

Lemma price_loop_fails t (chunks : list (list price)) i chunk e :
  chunks !! i = Some chunk →
  prices_acked w id token t (take i chunks) →
  IO.price_answer w (t ++ price_calls id token (take i chunks)) chunk id token
  = Err e →
  IO.for_ chunks (λ some_price, IO.update_price some_price id token) w t
  = (t ++ price_calls id token (take (S i) chunks), Err e).
Proof.
  intros Hi Hack Herr.
  by apply (perform_loop_fails (λ x, IO.UpdatePrice x id token)
              (λ w t x, IO.price_answer w t x id token) chunks w e i chunk).
Qed.

End Acknowledged.


(** C6, against the claim as stated: in market.py both segments stand in
    one [try] block.  In a world where the listing of the FBS shop answers
    with an HTTP error (and the DBS shop would answer), [main] prints the
    error and returns; no call is made for the DBS shop, although the DBS
    segment, had it been started, would have run to its end. *)
Lemma market_fbs_failure_skips_dbs :
  Market.main "token" "fbs" "dbs" "wf" "wd" Examples.fbs_down []
  = ([IO.Called IO.DownloadStock; IO.Called (IO.GetOfferIds "fbs" "token");
      IO.Printed (Some HTTPError) "ERROR_2"], Ok tt)
  ∧ filter (λ ev, IO.for_shop "dbs" ev = true)
      (Market.main "token" "fbs" "dbs" "wf" "wd" Examples.fbs_down []).1 = []
  ∧ (Market.dbs [Examples.watch_63433] "token" "dbs" "wd" Examples.fbs_down
       [IO.Called IO.DownloadStock; IO.Called (IO.GetOfferIds "fbs" "token")]).2
    = Ok tt.
Proof. repeat split; by vm_compute. Qed.

(** C6, amended.  An exception raised while fetching, reconciling or
    uploading inside the [try] block of [main] is caught and printed, and
    [main] returns normally; the rest of the block is not run.  In
    seller.py the block is the whole run: whichever step raises first (the
    catalog fetch, the download, [create_stocks], a stock update,
    [create_prices] or a price update), the run is the calls made up to and
    including that step followed by the printed line, and no later step is
    started.  In market.py the download of the spreadsheet comes before the
    block and its failure is not caught; when the FBS segment raises, the
    run ends with the printed line and the DBS segment is not started; when
    the FBS segment ends normally the DBS segment is run, and an exception
    it raises is printed in the same way. *)
Theorem main_reports_error_and_stops :
  (∀ (w : IO.world Seller.Stock.t Seller.Price.t) (seller_token client_id : string),
     (Seller.main seller_token client_id w []).2 = Ok tt
     ∧ (∀ e,
          IO.offer_ids_of w [] client_id seller_token = Err e →
          Seller.main seller_token client_id w []
          = ([IO.Called (IO.GetOfferIds client_id seller_token); IO.reported e], Ok tt))
     ∧ (∀ ids e,
          IO.offer_ids_of w [] client_id seller_token = Ok ids →
          IO.stock_file w [IO.Called (IO.GetOfferIds client_id seller_token)] = Err e →
          Seller.main seller_token client_id w []
          = ([IO.Called (IO.GetOfferIds client_id seller_token);
              IO.Called IO.DownloadStock; IO.reported e], Ok tt))
     ∧ (∀ ids rows,
          IO.offer_ids_of w [] client_id seller_token = Ok ids →
          IO.stock_file w [IO.Called (IO.GetOfferIds client_id seller_token)] = Ok rows →
          (∀ e,
             Seller.create_stocks rows ids = Err e →
             Seller.main seller_token client_id w []
             = ([IO.Called (IO.GetOfferIds client_id seller_token);
                 IO.Called IO.DownloadStock; IO.reported e], Ok tt))
          ∧ (∀ stocks ids' chunks,
               Seller.create_stocks rows ids = Ok (stocks, ids') →
               Seller.divide stocks 100 = Ok chunks →
               (∀ i chunk e,
                  chunks !! i = Some chunk →
                  stocks_acked w client_id seller_token
                    [IO.Called (IO.GetOfferIds client_id seller_token);
                     IO.Called IO.DownloadStock] (take i chunks) →
                  IO.stocks_answer w
                    ([IO.Called (IO.GetOfferIds client_id seller_token);
                      IO.Called IO.DownloadStock]
                     ++ stock_calls client_id seller_token (take i chunks))
                    chunk client_id seller_token = Err e →
                  Seller.main seller_token client_id w []
                  = ([IO.Called (IO.GetOfferIds client_id seller_token);
                      IO.Called IO.DownloadStock]
                     ++ stock_calls client_id seller_token (take (S i) chunks)
                     ++ [IO.reported e], Ok tt))
               ∧ (stocks_acked w client_id seller_token
                    [IO.Called (IO.GetOfferIds client_id seller_token);
                     IO.Called IO.DownloadStock] chunks →
                  (∀ e,
                     Seller.create_prices rows ids' = Err e →
                     Seller.main seller_token client_id w []
                     = ([IO.Called (IO.GetOfferIds client_id seller_token);
                         IO.Called IO.DownloadStock]
                        ++ stock_calls client_id seller_token chunks
                        ++ [IO.reported e], Ok tt))
                  ∧ (∀ prices chunks',
                       Seller.create_prices rows ids' = Ok prices →
                       Seller.divide prices 900 = Ok chunks' →
                       (∀ i chunk e,
                          chunks' !! i = Some chunk →
                          prices_acked w client_id seller_token
                            ([IO.Called (IO.GetOfferIds client_id seller_token);
                              IO.Called IO.DownloadStock]
                             ++ stock_calls client_id seller_token chunks)
                            (take i chunks') →
                          IO.price_answer w
                            (([IO.Called (IO.GetOfferIds client_id seller_token);
                               IO.Called IO.DownloadStock]
                              ++ stock_calls client_id seller_token chunks)
                             ++ price_calls client_id seller_token (take i chunks'))
                            chunk client_id seller_token = Err e →
                          Seller.main seller_token client_id w []
                          = ([IO.Called (IO.GetOfferIds client_id seller_token);
                              IO.Called IO.DownloadStock]
                             ++ stock_calls client_id seller_token chunks
                             ++ price_calls client_id seller_token (take (S i) chunks')
                             ++ [IO.reported e], Ok tt))
                       ∧ (prices_acked w client_id seller_token
                            ([IO.Called (IO.GetOfferIds client_id seller_token);
                              IO.Called IO.DownloadStock]
                             ++ stock_calls client_id seller_token chunks) chunks' →
                          Seller.main seller_token client_id w []
                          = ([IO.Called (IO.GetOfferIds client_id seller_token);
                              IO.Called IO.DownloadStock]
                             ++ stock_calls client_id seller_token chunks
                             ++ price_calls client_id seller_token chunks',
                             Ok tt)))))))
  ∧ (∀ (w : IO.world Market.Stock.t Market.Price.t)
       (market_token campaign_fbs_id campaign_dbs_id : string)
       (warehouse_fbs_id warehouse_dbs_id : string) (e : exn),
       IO.stock_file w [] = Err e →
       Market.main market_token campaign_fbs_id campaign_dbs_id
         warehouse_fbs_id warehouse_dbs_id w []
       = ([IO.Called IO.DownloadStock], Err e))
  ∧ (∀ (w : IO.world Market.Stock.t Market.Price.t)
       (market_token campaign_fbs_id campaign_dbs_id : string)
       (warehouse_fbs_id warehouse_dbs_id : string) (rows : list row),
       IO.stock_file w [] = Ok rows →
       (Market.main market_token campaign_fbs_id campaign_dbs_id
          warehouse_fbs_id warehouse_dbs_id w []).2 = Ok tt
       ∧ (∀ t e,
            Market.fbs rows market_token campaign_fbs_id warehouse_fbs_id w
              [IO.Called IO.DownloadStock] = (t, Err e) →
            Market.main market_token campaign_fbs_id campaign_dbs_id
              warehouse_fbs_id warehouse_dbs_id w []
            = (t ++ [IO.reported e], Ok tt))
       ∧ (∀ t t' r,
            Market.fbs rows market_token campaign_fbs_id warehouse_fbs_id w
              [IO.Called IO.DownloadStock] = (t, Ok tt) →
            Market.dbs rows market_token campaign_dbs_id warehouse_dbs_id w t
            = (t', r) →
            Market.main market_token campaign_fbs_id campaign_dbs_id
              warehouse_fbs_id warehouse_dbs_id w []
            = match r with
              | Ok _ => (t', Ok tt)
              | Err e => (t' ++ [IO.reported e], Ok tt)
              end)).
Proof.
  split; [|split].
  - intros w seller_token client_id. split; [apply try_report_returns|].
    rewrite seller_main_run. split; [by intros e ->|].
    split; [by intros ids e -> ->|].
    intros ids rows -> ->. split; [by intros e ->|].
    intros stocks ids' chunks -> ->. split.
    + intros i chunk e Hi Hack Herr.
      rewrite (stock_loop_fails w client_id seller_token _ chunks i chunk e Hi Hack Herr).
      by rewrite <- !app_assoc.
    + intros Hack. rewrite (stock_loop_acked w client_id seller_token _ chunks Hack).
      split; [intros e ->; by rewrite <- !app_assoc|].
      intros prices chunks' -> ->. split.
      * intros i chunk e Hi Hack' Herr.
        rewrite (price_loop_fails w client_id seller_token _ chunks' i chunk e
                   Hi Hack' Herr).
        by rewrite <- !app_assoc.
      * intros Hack'.
        rewrite (price_loop_acked w client_id seller_token _ chunks' Hack').
        by rewrite <- !app_assoc.
  - intros w market_token campaign_fbs_id campaign_dbs_id warehouse_fbs_id
      warehouse_dbs_id e Hfile.
    unfold Market.main. rewrite io_bind_run.
    unfold IO.download_stock, IO.perform at 1. by rewrite Hfile.
  - intros w market_token campaign_fbs_id campaign_dbs_id warehouse_fbs_id
      warehouse_dbs_id rows Hrows.
    assert (Hmain : Market.main market_token campaign_fbs_id campaign_dbs_id
                      warehouse_fbs_id warehouse_dbs_id w []
                    = IO.try_except
                        (_ ← Market.fbs rows market_token campaign_fbs_id warehouse_fbs_id;
                         Market.dbs rows market_token campaign_dbs_id warehouse_dbs_id)
                        IO.report w [IO.Called IO.DownloadStock]).
    { unfold Market.main. rewrite io_bind_run.
      unfold IO.download_stock, IO.perform at 1. by rewrite Hrows. }
    rewrite Hmain. split; [apply try_report_returns|].
    unfold IO.try_except. rewrite io_bind_run. split.
    + intros t e ->. by rewrite report_run.
    + intros t t' r -> ->. destruct r as [[]|e]; [done|]. by rewrite report_run.
Qed.


Lemma main_reports_error_and_stops_witness :
  Seller.main "token" "client" Examples.no_catalog []
  = ([IO.Called (IO.GetOfferIds "client" "token"); IO.reported HTTPError], Ok tt)
  ∧ Seller.main "token" "client" Examples.stocks_down []
    = ([IO.Called (IO.GetOfferIds "client" "token"); IO.Called IO.DownloadStock]
       ++ stock_calls "client" "token"
            (take 1 [[Seller.Stock.Make "63433" 100; Seller.Stock.Make "99999" 0]])
       ++ [IO.reported HTTPError], Ok tt)
  ∧ Seller.main "token" "client" Examples.prices_down []
    = ([IO.Called (IO.GetOfferIds "client" "token"); IO.Called IO.DownloadStock]
       ++ stock_calls "client" "token"
            [[Seller.Stock.Make "63433" 100; Seller.Stock.Make "99999" 0;
              Seller.Stock.Make "63433" 0]]
       ++ price_calls "client" "token"
            (take 1 [[Seller.Price.Make "UNKNOWN" "RUB" "63433" "0" "2240"]])
       ++ [IO.reported HTTPError], Ok tt)
  ∧ (Market.main "token" "fbs" "dbs" "wf" "wd" Examples.fbs_down []).2 = Ok tt
  ∧ Market.main "token" "fbs" "dbs" "wf" "wd" Examples.fbs_down []
    = ([IO.Called IO.DownloadStock; IO.Called (IO.GetOfferIds "fbs" "token")]
       ++ [IO.reported HTTPError], Ok tt)
  ∧ Market.main "token" "fbs" "dbs" "wf" "wd" Examples.fair_market []
    = ([IO.Called IO.DownloadStock; IO.Called (IO.GetOfferIds "fbs" "token");
        IO.Called (IO.UpdateStocks
                     (market_stock "wf" Examples.date
                        <$> [Seller.Stock.Make "63433" 100; Seller.Stock.Make "99999" 0])
                     "fbs" "token");
        IO.Called (IO.GetOfferIds "dbs" "token");
        IO.Called (IO.UpdateStocks
                     (market_stock "wd" Examples.date
                        <$> [Seller.Stock.Make "63433" 100; Seller.Stock.Make "99999" 0])
                     "dbs" "token")], Ok tt)
  ∧ Market.main "token" "fbs" "dbs" "wf" "wd" Examples.no_spreadsheet []
    = ([IO.Called IO.DownloadStock], Err ConnectionError).
Proof.
  destruct main_reports_error_and_stops as (Hseller & Hdownload & Hmarket).
  destruct (Hseller Examples.no_catalog "token" "client") as (_ & Hfetch & _).
  destruct (Hseller Examples.stocks_down "token" "client") as (_ & _ & _ & Hstocks).
  destruct (Hseller Examples.prices_down "token" "client") as (_ & _ & _ & Hprices).
  destruct (Hstocks Examples.catalog [Examples.watch_63433] eq_refl eq_refl)
    as (_ & Hstocks').
  destruct (Hstocks' [Seller.Stock.Make "63433" 100; Seller.Stock.Make "99999" 0]
              ["99999"]
              [[Seller.Stock.Make "63433" 100; Seller.Stock.Make "99999" 0]])
    as (Hstock_fails & _); [by vm_compute | by vm_compute |].
  destruct (Hprices Examples.catalog_twice [Examples.watch_63433] eq_refl eq_refl)
    as (_ & Hprices').
  destruct (Hprices' [Seller.Stock.Make "63433" 100; Seller.Stock.Make "99999" 0;
                      Seller.Stock.Make "63433" 0]
              ["99999"; "63433"]
              [[Seller.Stock.Make "63433" 100; Seller.Stock.Make "99999" 0;
                Seller.Stock.Make "63433" 0]])
    as (_ & Hafter); [by vm_compute | by vm_compute |].
  destruct Hafter as (_ & Hprice_calls).
  { intros i chunk _. reflexivity. }
  destruct (Hprice_calls [Seller.Price.Make "UNKNOWN" "RUB" "63433" "0" "2240"]
              [[Seller.Price.Make "UNKNOWN" "RUB" "63433" "0" "2240"]])
    as (Hprice_fails & _); [by vm_compute | by vm_compute |].
  destruct (Hmarket Examples.fbs_down "token" "fbs" "dbs" "wf" "wd"
              [Examples.watch_63433] eq_refl) as (Hreturns & Hfbs & _).
  destruct (Hmarket Examples.fair_market "token" "fbs" "dbs" "wf" "wd"
              [Examples.watch_63433] eq_refl) as (_ & _ & Hdbs).
  split; [apply Hfetch; reflexivity|].
  split.
  { apply (Hstock_fails 0%nat
             [Seller.Stock.Make "63433" 100; Seller.Stock.Make "99999" 0]).
    - reflexivity.
    - intros i chunk Hi. by destruct i.
    - reflexivity. }
  split.
  { apply (Hprice_fails 0%nat [Seller.Price.Make "UNKNOWN" "RUB" "63433" "0" "2240"]).
    - reflexivity.
    - intros i chunk Hi. by destruct i.
    - reflexivity. }
  split; [exact Hreturns|]. split; [|split].
  - apply Hfbs. vm_compute. reflexivity.
  - eapply (Hdbs _ _ (Ok tt)); vm_compute; reflexivity.
  - apply Hdownload. reflexivity.
Defined.

Section SellerUploads.
Context (w : IO.world Seller.Stock.t Seller.Price.t).
Context (rows : list row) (client_id seller_token : string).
Implicit Types (t : IO.trace Seller.Stock.t Seller.Price.t).

Lemma seller_upload_stocks_run t :
  Seller.upload_stocks rows client_id seller_token w t
  = let t1 := t ++ [IO.Called (IO.GetOfferIds client_id seller_token)] in
    match IO.offer_ids_of w t client_id seller_token with
    | Err e => (t1, Err e)
    | Ok ids =>
        match Seller.create_stocks rows ids with
        | Err e => (t1, Err e)
        | Ok (stocks, _) =>
            match Seller.divide stocks 100 with
            | Err e => (t1, Err e)
            | Ok chunks =>
                match IO.for_ chunks
                        (λ some_stock,
                           IO.update_stocks some_stock client_id seller_token) w t1
                with
                | (t2, Ok _) =>
                    (t2, Ok (filter (λ stock, Seller.Stock.stock stock ≠ 0) stocks,
                             stocks))
                | (t2, Err e) => (t2, Err e)
                end
            end
        end
    end.
Proof.
  unfold Seller.upload_stocks. rewrite io_bind_run.
  unfold IO.get_offer_ids, IO.perform at 1.
  destruct (IO.offer_ids_of w t client_id seller_token) as [ids|e]; [|done].
  rewrite io_bind_run. unfold IO.lift at 1.
  destruct (Seller.create_stocks rows ids) as [[stocks ids']|e]; [|done].
  rewrite io_bind_run. unfold IO.lift at 1.
  destruct (Seller.divide stocks 100) as [chunks|e]; [|done].
  rewrite io_bind_run. simpl.
  by destruct (IO.for_ chunks _ w _) as [t2 [[]|e]].
Qed.

Lemma seller_upload_prices_run t :
  Seller.upload_prices rows client_id seller_token w t
  = let t1 := t ++ [IO.Called (IO.GetOfferIds client_id seller_token)] in
    match IO.offer_ids_of w t client_id seller_token with
    | Err e => (t1, Err e)
    | Ok ids =>
        match Seller.create_prices rows ids with
        | Err e => (t1, Err e)
        | Ok prices =>
            match Seller.divide prices 1000 with
            | Err e => (t1, Err e)
            | Ok chunks =>
                match IO.for_ chunks
                        (λ some_price,
                           IO.update_price some_price client_id seller_token) w t1
                with
                | (t2, Ok _) => (t2, Ok prices)
                | (t2, Err e) => (t2, Err e)
                end
            end
        end
    end.
Proof.
  unfold Seller.upload_prices. rewrite io_bind_run.
  unfold IO.get_offer_ids, IO.perform at 1.
  destruct (IO.offer_ids_of w t client_id seller_token) as [ids|e]; [|done].
  rewrite io_bind_run. unfold IO.lift at 1.
  destruct (Seller.create_prices rows ids) as [prices|e]; [|done].
  rewrite io_bind_run. unfold IO.lift at 1.
  destruct (Seller.divide prices 1000) as [chunks|e]; [|done].
  rewrite io_bind_run. simpl.
  by destruct (IO.for_ chunks _ w _) as [t2 [[]|e]].
Qed.

End SellerUploads.

(** X9.  When the body of [upload_stocks] of seller.py ends normally, it
    has fetched the catalog, made the stock records from it, and sent
    exactly these records, in order, in calls of 1 to 100 records each;
    the world has acknowledged every one of these calls, at the history at
    which it was made; it returns the records and, as [not_empty], those of
    them whose stock is not 0. *)
Theorem seller_upload_stocks_sends_every_record
  (w : IO.world Seller.Stock.t Seller.Price.t) (rows : list row)
  (client_id seller_token : string) (t t' : IO.trace Seller.Stock.t Seller.Price.t)
  (not_empty stocks : list Seller.Stock.t) :
  Seller.upload_stocks rows client_id seller_token w t = (t', Ok (not_empty, stocks)) →
  ∃ ids ids' chunks,
    IO.offer_ids_of w t client_id seller_token = Ok ids
    ∧ Seller.create_stocks rows ids = Ok (stocks, ids')
    ∧ splits 100 stocks chunks
    ∧ t' = t ++ IO.Called (IO.GetOfferIds client_id seller_token)
             :: stock_calls client_id seller_token chunks
    ∧ stocks_acked w client_id seller_token
        (t ++ [IO.Called (IO.GetOfferIds client_id seller_token)]) chunks
    ∧ not_empty = filter (λ stock, Seller.Stock.stock stock ≠ 0) stocks.
Proof.
  rewrite seller_upload_stocks_run. cbv zeta.
  destruct (IO.offer_ids_of w t client_id seller_token) as [ids|e]; [|done].
  destruct (Seller.create_stocks rows ids) as [[stocks0 ids']|e] eqn:Hstocks;
    [|done].
  destruct (Seller.divide stocks0 100) as [chunks|e] eqn:Hchunks; [|done].
  destruct (IO.for_ chunks _ w _) as [t2 [[]|e]] eqn:Hloop; [|done].
  intros [= <- <- <-].
  apply (perform_loop_ok (λ x, IO.UpdateStocks x client_id seller_token)
           (λ w t x, IO.stocks_answer w t x client_id seller_token)) in Hloop
    as [-> Hacks].
  exists ids, ids', chunks. split; [done|]. split; [done|].
  split; [by apply (divide_splits stocks0 100)|].
  split; [unfold stock_calls; by rewrite <- app_assoc|].
  split; [exact Hacks|done].
Qed.

Lemma seller_upload_stocks_sends_every_record_witness :
  ∃ ids ids' chunks,
    IO.offer_ids_of Examples.fair_seller [] "client" "token" = Ok ids
    ∧ Seller.create_stocks [Examples.watch_63433] ids
      = Ok ([Seller.Stock.Make "63433" 100; Seller.Stock.Make "99999" 0], ids')
    ∧ splits 100 [Seller.Stock.Make "63433" 100; Seller.Stock.Make "99999" 0] chunks
    ∧ ([IO.Called (IO.GetOfferIds "client" "token");
        IO.Called (IO.UpdateStocks
                     [Seller.Stock.Make "63433" 100; Seller.Stock.Make "99999" 0]
                     "client" "token")] : IO.trace Seller.Stock.t Seller.Price.t)
      = [] ++ IO.Called (IO.GetOfferIds "client" "token")
             :: stock_calls "client" "token" chunks
    ∧ stocks_acked Examples.fair_seller "client" "token"
        ([] ++ [IO.Called (IO.GetOfferIds "client" "token")]) chunks
    ∧ [Seller.Stock.Make "63433" 100]
      = filter (λ stock, Seller.Stock.stock stock ≠ 0)
          [Seller.Stock.Make "63433" 100; Seller.Stock.Make "99999" 0].
Proof.
  apply (seller_upload_stocks_sends_every_record Examples.fair_seller
           [Examples.watch_63433] "client" "token" []).
  vm_compute. reflexivity.
Defined.

(** X10.  When the body of [upload_stocks] of seller.py raises, one of
    three things has happened.  The catalog fetch failed, and nothing else
    was called.  Or [create_stocks] raised, and no stock update was sent at
    all.  Or a stock update failed: the chunks before it had been sent and
    acknowledged, and no chunk after it is sent. *)
Theorem seller_upload_stocks_stops_at_first_failure
  (w : IO.world Seller.Stock.t Seller.Price.t) (rows : list row)
  (client_id seller_token : string) (t t' : IO.trace Seller.Stock.t Seller.Price.t)
  (e : exn) :
  Seller.upload_stocks rows client_id seller_token w t = (t', Err e) →
  (IO.offer_ids_of w t client_id seller_token = Err e
   ∧ t' = t ++ [IO.Called (IO.GetOfferIds client_id seller_token)])
  ∨ (∃ ids,
       IO.offer_ids_of w t client_id seller_token = Ok ids
       ∧ Seller.create_stocks rows ids = Err e
       ∧ t' = t ++ [IO.Called (IO.GetOfferIds client_id seller_token)])
  ∨ (∃ ids stocks ids' chunks i chunk,
       IO.offer_ids_of w t client_id seller_token = Ok ids
       ∧ Seller.create_stocks rows ids = Ok (stocks, ids')
       ∧ Seller.divide stocks 100 = Ok chunks
       ∧ chunks !! i = Some chunk
       ∧ t' = t ++ IO.Called (IO.GetOfferIds client_id seller_token)
                :: stock_calls client_id seller_token (take (S i) chunks)
       ∧ IO.stocks_answer w
           (t ++ IO.Called (IO.GetOfferIds client_id seller_token)
              :: stock_calls client_id seller_token (take i chunks))
           chunk client_id seller_token = Err e
       ∧ ∀ j earlier, (j < i)%nat → chunks !! j = Some earlier →
           IO.stocks_answer w
             (t ++ IO.Called (IO.GetOfferIds client_id seller_token)
                :: stock_calls client_id seller_token (take j chunks))
             earlier client_id seller_token = Ok tt).
Proof.
  rewrite seller_upload_stocks_run. cbv zeta.
  destruct (IO.offer_ids_of w t client_id seller_token) as [ids|e0].
  2: { intros [= <- <-]. by left. }
  destruct (Seller.create_stocks rows ids) as [[stocks ids']|e0] eqn:Hstocks.
  2: { intros [= <- <-]. right. left. by exists ids. }
  destruct (divide_returns stocks 100) as [chunks Hchunks]; [done|].
  rewrite Hchunks.
  destruct (IO.for_ chunks _ w _) as [t2 [[]|e0]] eqn:Hloop; [done|].
  intros [= <- <-]. right. right.
  apply (perform_loop_err (λ x, IO.UpdateStocks x client_id seller_token)
           (λ w t x, IO.stocks_answer w t x client_id seller_token)) in Hloop
    as (i & chunk & Hi & -> & Herr & Hacks).
  exists ids, stocks, ids', chunks, i, chunk.
  unfold stock_calls. rewrite <- !app_assoc in *. repeat split; try done.
  intros j earlier Hj Hearlier. specialize (Hacks j earlier Hj Hearlier).
  by rewrite <- app_assoc in Hacks.
Qed.

Lemma seller_upload_stocks_stops_at_first_failure_witness :
  (IO.offer_ids_of Examples.stocks_down [] "client" "token" = Err HTTPError
   ∧ ([IO.Called (IO.GetOfferIds "client" "token");
       IO.Called (IO.UpdateStocks
                    [Seller.Stock.Make "63433" 100; Seller.Stock.Make "99999" 0]
                    "client" "token")] : IO.trace Seller.Stock.t Seller.Price.t)
     = [] ++ [IO.Called (IO.GetOfferIds "client" "token")])
  ∨ (∃ ids,
       IO.offer_ids_of Examples.stocks_down [] "client" "token" = Ok ids
       ∧ Seller.create_stocks [Examples.watch_63433] ids = Err HTTPError
       ∧ ([IO.Called (IO.GetOfferIds "client" "token");
           IO.Called (IO.UpdateStocks
                        [Seller.Stock.Make "63433" 100; Seller.Stock.Make "99999" 0]
                        "client" "token")] : IO.trace Seller.Stock.t Seller.Price.t)
         = [] ++ [IO.Called (IO.GetOfferIds "client" "token")])
  ∨ (∃ ids stocks ids' chunks i chunk,
       IO.offer_ids_of Examples.stocks_down [] "client" "token" = Ok ids
       ∧ Seller.create_stocks [Examples.watch_63433] ids = Ok (stocks, ids')
       ∧ Seller.divide stocks 100 = Ok chunks
       ∧ chunks !! i = Some chunk
       ∧ ([IO.Called (IO.GetOfferIds "client" "token");
           IO.Called (IO.UpdateStocks
                        [Seller.Stock.Make "63433" 100; Seller.Stock.Make "99999" 0]
                        "client" "token")] : IO.trace Seller.Stock.t Seller.Price.t)
         = [] ++ IO.Called (IO.GetOfferIds "client" "token")
                :: stock_calls "client" "token" (take (S i) chunks)
       ∧ IO.stocks_answer Examples.stocks_down
           ([] ++ IO.Called (IO.GetOfferIds "client" "token")
               :: stock_calls "client" "token" (take i chunks))
           chunk "client" "token" = Err HTTPError
       ∧ ∀ j earlier, (j < i)%nat → chunks !! j = Some earlier →
           IO.stocks_answer Examples.stocks_down
             ([] ++ IO.Called (IO.GetOfferIds "client" "token")
                 :: stock_calls "client" "token" (take j chunks))
             earlier "client" "token" = Ok tt).
Proof.
  apply (seller_upload_stocks_stops_at_first_failure Examples.stocks_down
           [Examples.watch_63433] "client" "token" []).
  vm_compute. reflexivity.
Defined.

Section MarketUploads.
Context (w : IO.world Market.Stock.t Market.Price.t).
Context (rows : list row) (campaign_id market_token warehouse_id : string).
Implicit Types (t : IO.trace Market.Stock.t Market.Price.t).

Lemma market_upload_prices_run t :
  Market.upload_prices rows campaign_id market_token w t
  = let t1 := t ++ [IO.Called (IO.GetOfferIds campaign_id market_token)] in
    match IO.offer_ids_of w t campaign_id market_token with
    | Err e => (t1, Err e)
    | Ok ids =>
        match Market.create_prices rows ids with
        | Err e => (t1, Err e)
        | Ok prices =>
            match Seller.divide prices 500 with
            | Err e => (t1, Err e)
            | Ok chunks =>
                match IO.for_ chunks
                        (λ some_prices,
                           IO.update_price some_prices campaign_id market_token) w t1
                with
                | (t2, Ok _) => (t2, Ok prices)
                | (t2, Err e) => (t2, Err e)
                end
            end
        end
    end.
Proof.
  unfold Market.upload_prices. rewrite io_bind_run.
  unfold IO.get_offer_ids, IO.perform at 1.
  destruct (IO.offer_ids_of w t campaign_id market_token) as [ids|e]; [|done].
  rewrite io_bind_run. unfold IO.lift at 1.
  destruct (Market.create_prices rows ids) as [prices|e]; [|done].
  rewrite io_bind_run. unfold IO.lift at 1.
  destruct (Seller.divide prices 500) as [chunks|e]; [|done].
  rewrite io_bind_run. simpl.
  by destruct (IO.for_ chunks _ w _) as [t2 [[]|e]].
Qed.

Lemma market_upload_stocks_run t :
  Market.upload_stocks rows campaign_id market_token warehouse_id w t
  = let t1 := t ++ [IO.Called (IO.GetOfferIds campaign_id market_token)] in
    match IO.offer_ids_of w t campaign_id market_token with
    | Err e => (t1, Err e)
    | Ok ids =>
        match Market.create_stocks (IO.utcnow w t1) rows ids warehouse_id with
        | Err e => (t1, Err e)
        | Ok (stocks, _) =>
            match Seller.divide stocks 2000 with
            | Err e => (t1, Err e)
            | Ok chunks =>
                match IO.for_ chunks
                        (λ some_stock,
                           IO.update_stocks some_stock campaign_id market_token) w t1
                with
                | (t2, Ok _) =>
                    match Market.filter_stocks stocks with
                    | Ok not_empty => (t2, Ok (not_empty, stocks))
                    | Err e => (t2, Err e)
                    end
                | (t2, Err e) => (t2, Err e)
                end
            end
        end
    end.
Proof.
  unfold Market.upload_stocks. rewrite io_bind_run.
  unfold IO.get_offer_ids, IO.perform at 1.
  destruct (IO.offer_ids_of w t campaign_id market_token) as [ids|e]; [|done].
  rewrite io_bind_run. unfold IO.now at 1. rewrite io_bind_run.
  unfold IO.lift at 1.
  destruct (Market.create_stocks _ rows ids warehouse_id) as [[stocks ids']|e];
    [|done].
  rewrite io_bind_run. unfold IO.lift at 1.
  destruct (Seller.divide stocks 2000) as [chunks|e]; [|done].
  rewrite io_bind_run. simpl.
  destruct (IO.for_ chunks _ w _) as [t2 [[]|e]]; [|done].
  rewrite io_bind_run. unfold IO.lift at 1.
  by destruct (Market.filter_stocks stocks).
Qed.

(** On records made by [create_stocks] the test of [not_empty] finds its
    item. *)
Lemma filter_stocks_market date (l : list Seller.Stock.t) :
  Market.filter_stocks (market_stock warehouse_id date <$> l)
  = Ok (filter (λ stock, Market.in_stock stock = Ok true)
          (market_stock warehouse_id date <$> l)).
Proof.
  induction l as [|s l IH]; [done|].
  rewrite fmap_cons. simpl Market.filter_stocks. rewrite IH, !bind_ok.
  rewrite filter_cons.
  assert (Hin : Market.in_stock (market_stock warehouse_id date s)
                = Ok (bool_decide (Seller.Stock.stock s ≠ 0))) by done.
  rewrite Hin.
  destruct (decide (Seller.Stock.stock s ≠ 0)) as [Hs|Hs].
  - rewrite bool_decide_eq_true_2 by done. by rewrite decide_True.
  - rewrite bool_decide_eq_false_2 by done. by rewrite decide_False.
Qed.

End MarketUploads.

(** X11.  When the body of [upload_prices] ends normally (it is run when the
    coroutine is awaited), it has fetched the catalog itself, made the price
    records from the whole of it, and sent exactly the records it returns,
    in order, in calls of 1 to 1000 records each in seller.py and of 1 to
    500 in market.py; the world has acknowledged every one of these calls,
    at the history at which it was made. *)
Theorem upload_prices_sends_every_record (rows : list row) (id token : string) :
  (∀ (w : IO.world Seller.Stock.t Seller.Price.t) t t' prices,
     Seller.upload_prices rows id token w t = (t', Ok prices) →
     ∃ ids chunks,
       IO.offer_ids_of w t id token = Ok ids
       ∧ Seller.create_prices rows ids = Ok prices
       ∧ splits 1000 prices chunks
       ∧ t' = t ++ IO.Called (IO.GetOfferIds id token) :: price_calls id token chunks
       ∧ prices_acked w id token (t ++ [IO.Called (IO.GetOfferIds id token)]) chunks)
  ∧ (∀ (w : IO.world Market.Stock.t Market.Price.t) t t' prices,
       Market.upload_prices rows id token w t = (t', Ok prices) →
       ∃ ids chunks,
         IO.offer_ids_of w t id token = Ok ids
         ∧ Market.create_prices rows ids = Ok prices
         ∧ splits 500 prices chunks
         ∧ t' = t ++ IO.Called (IO.GetOfferIds id token) :: price_calls id token chunks
         ∧ prices_acked w id token (t ++ [IO.Called (IO.GetOfferIds id token)]) chunks).
Proof.
  split; intros w t t' prices.
  - rewrite seller_upload_prices_run. cbv zeta.
    destruct (IO.offer_ids_of w t id token) as [ids|e]; [|done].
    destruct (Seller.create_prices rows ids) as [prices0|e] eqn:Hprices; [|done].
    destruct (Seller.divide prices0 1000) as [chunks|e] eqn:Hchunks; [|done].
    destruct (IO.for_ chunks _ w _) as [t2 [[]|e]] eqn:Hloop; [|done].
    intros [= <- <-].
    apply (perform_loop_ok (λ x, IO.UpdatePrice x id token)
             (λ w t x, IO.price_answer w t x id token)) in Hloop as [-> Hacks].
    exists ids, chunks. split; [done|]. split; [done|].
    split; [by apply (divide_splits prices0 1000)|].
    split; [|exact Hacks]. unfold price_calls. by rewrite <- app_assoc.
  - rewrite market_upload_prices_run. cbv zeta.
    destruct (IO.offer_ids_of w t id token) as [ids|e]; [|done].
    destruct (Market.create_prices rows ids) as [prices0|e] eqn:Hprices; [|done].
    destruct (Seller.divide prices0 500) as [chunks|e] eqn:Hchunks; [|done].
    destruct (IO.for_ chunks _ w _) as [t2 [[]|e]] eqn:Hloop; [|done].
    intros [= <- <-].
    apply (perform_loop_ok (λ x, IO.UpdatePrice x id token)
             (λ w t x, IO.price_answer w t x id token)) in Hloop as [-> Hacks].
    exists ids, chunks. split; [done|]. split; [done|].
    split; [by apply (divide_splits prices0 500)|].
    split; [|exact Hacks]. unfold price_calls. by rewrite <- app_assoc.
Qed.

Lemma upload_prices_sends_every_record_witness :
  (∃ ids chunks,
     IO.offer_ids_of Examples.fair_seller [] "client" "token" = Ok ids
     ∧ Seller.create_prices [Examples.watch_63433] ids
       = Ok [Seller.Price.Make "UNKNOWN" "RUB" "63433" "0" "2240"]
     ∧ splits 1000 [Seller.Price.Make "UNKNOWN" "RUB" "63433" "0" "2240"] chunks
     ∧ ([IO.Called (IO.GetOfferIds "client" "token");
         IO.Called (IO.UpdatePrice
                      [Seller.Price.Make "UNKNOWN" "RUB" "63433" "0" "2240"]
                      "client" "token")] : IO.trace Seller.Stock.t Seller.Price.t)
       = [] ++ IO.Called (IO.GetOfferIds "client" "token")
              :: price_calls "client" "token" chunks
     ∧ prices_acked Examples.fair_seller "client" "token"
         ([] ++ [IO.Called (IO.GetOfferIds "client" "token")]) chunks)
  ∧ (∃ ids chunks,
       IO.offer_ids_of Examples.fair_market [] "client" "token" = Ok ids
       ∧ Market.create_prices [Examples.watch_63433] ids
         = Ok [Market.Price.Make "63433" (Market.Value.Make 2240 "RUR")]
       ∧ splits 500 [Market.Price.Make "63433" (Market.Value.Make 2240 "RUR")] chunks
       ∧ ([IO.Called (IO.GetOfferIds "client" "token");
           IO.Called (IO.UpdatePrice
                        [Market.Price.Make "63433" (Market.Value.Make 2240 "RUR")]
                        "client" "token")] : IO.trace Market.Stock.t Market.Price.t)
         = [] ++ IO.Called (IO.GetOfferIds "client" "token")
                :: price_calls "client" "token" chunks
       ∧ prices_acked Examples.fair_market "client" "token"
           ([] ++ [IO.Called (IO.GetOfferIds "client" "token")]) chunks).
Proof.
  destruct (upload_prices_sends_every_record [Examples.watch_63433] "client" "token")
    as [Hseller Hmarket].
  split.
  - apply (Hseller Examples.fair_seller []). vm_compute. reflexivity.
  - apply (Hmarket Examples.fair_market []). vm_compute. reflexivity.
Defined.

(** X12.  The body of [upload_stocks] of market.py, when the catalog fetch
    succeeds, [create_stocks] returns and the stock updates are
    acknowledged, ends normally: the test of [not_empty] finds an item in
    every record, so no [IndexError] is raised.  It has then sent exactly
    the records, in order, in calls of 1 to 2000, and returns them with, as
    [not_empty], those whose count is not 0. *)
Theorem market_upload_stocks_sends_every_record
  (w : IO.world Market.Stock.t Market.Price.t) (rows : list row)
  (campaign_id market_token warehouse_id : string)
  (t : IO.trace Market.Stock.t Market.Price.t) (ids ids' : list string)
  (stocks : list Market.Stock.t) :
  IO.offer_ids_of w t campaign_id market_token = Ok ids →
  Market.create_stocks
    (IO.utcnow w (t ++ [IO.Called (IO.GetOfferIds campaign_id market_token)]))
    rows ids warehouse_id = Ok (stocks, ids') →
  (∀ t' chunk, IO.stocks_answer w t' chunk campaign_id market_token = Ok tt) →
  ∃ chunks,
    splits 2000 stocks chunks
    ∧ Market.upload_stocks rows campaign_id market_token warehouse_id w t
      = (t ++ IO.Called (IO.GetOfferIds campaign_id market_token)
           :: stock_calls campaign_id market_token chunks,
         Ok (filter (λ stock, Market.in_stock stock = Ok true) stocks, stocks)).
Proof.
  intros Hids Hstocks Hack.
  destruct (divide_returns stocks 2000) as [chunks Hchunks]; [done|].
  exists chunks. split; [by apply (divide_splits stocks 2000)|].
  rewrite market_upload_stocks_run. cbv zeta. rewrite Hids, Hstocks, Hchunks.
  rewrite stock_updates_run by done.
  apply market_create_stocks_inv in Hstocks as (stocks0 & _ & ->).
  rewrite filter_stocks_market. unfold stock_calls. by rewrite <- app_assoc.
Qed.

Lemma market_upload_stocks_sends_every_record_witness :
  ∃ chunks,
    splits 2000
      (market_stock "w" Examples.date
         <$> [Seller.Stock.Make "63433" 100; Seller.Stock.Make "99999" 0]) chunks
    ∧ Market.upload_stocks [Examples.watch_63433] "shop" "token" "w"
        Examples.fair_market []
      = ([] ++ IO.Called (IO.GetOfferIds "shop" "token")
            :: stock_calls "shop" "token" chunks,
         Ok (filter (λ stock, Market.in_stock stock = Ok true)
               (market_stock "w" Examples.date
                  <$> [Seller.Stock.Make "63433" 100; Seller.Stock.Make "99999" 0]),
             market_stock "w" Examples.date
               <$> [Seller.Stock.Make "63433" 100; Seller.Stock.Make "99999" 0])).
Proof.
  apply (market_upload_stocks_sends_every_record Examples.fair_market
           [Examples.watch_63433] "shop" "token" "w" [] Examples.catalog ["99999"]).
  - reflexivity.
  - vm_compute. reflexivity.
  - intros t' chunk. reflexivity.
Defined.

(** X13.  A run of [main] of seller.py in which the catalog and the
    spreadsheet arrive.  If [create_stocks] raises (a listed row without a
    numeric quantity), nothing is uploaded: the run is the two fetches and
    the printed line.  If it returns, the catalog is duplicate-free and the
    stock updates are acknowledged, the run is the two fetches followed by
    the stock records, sent in order in calls of 1 to 100, and nothing
    else. *)
Theorem seller_main_uploads_stocks_or_nothing
  (w : IO.world Seller.Stock.t Seller.Price.t) (seller_token client_id : string)
  (rows : list row) (ids : list string) :
  IO.offer_ids_of w [] client_id seller_token = Ok ids →
  IO.stock_file w [IO.Called (IO.GetOfferIds client_id seller_token)] = Ok rows →
  (∀ e, Seller.create_stocks rows ids = Err e →
        Seller.main seller_token client_id w []
        = ([IO.Called (IO.GetOfferIds client_id seller_token);
            IO.Called IO.DownloadStock; IO.reported e], Ok tt))
  ∧ (∀ stocks ids',
       NoDup ids →
       Seller.create_stocks rows ids = Ok (stocks, ids') →
       (∀ t chunk, IO.stocks_answer w t chunk client_id seller_token = Ok tt) →
       ∃ chunks,
         splits 100 stocks chunks
         ∧ Seller.main seller_token client_id w []
           = ([IO.Called (IO.GetOfferIds client_id seller_token);
               IO.Called IO.DownloadStock]
              ++ stock_calls client_id seller_token chunks, Ok tt)).
Proof.
  intros Hids Hrows. split.
  - intros e Hstocks. unfold Seller.main, IO.try_except. rewrite io_bind_run.
    unfold IO.get_offer_ids, IO.perform at 1. rewrite Hids. rewrite io_bind_run.
    unfold IO.download_stock, IO.perform at 1. simpl app. rewrite Hrows.
    rewrite io_bind_run. unfold IO.lift at 1. rewrite Hstocks.
    by rewrite report_run.
  - intros stocks ids' Hnd Hstocks Hack.
    destruct (divide_returns stocks 100) as [chunks Hchunks]; [done|].
    exists chunks. split; [by apply (divide_splits stocks 100)|].
    unfold Seller.main, IO.try_except. rewrite io_bind_run.
    unfold IO.get_offer_ids, IO.perform at 1. rewrite Hids. rewrite io_bind_run.
    unfold IO.download_stock, IO.perform at 1. simpl app. rewrite Hrows.
    rewrite io_bind_run. unfold IO.lift at 1. rewrite Hstocks.
    rewrite io_bind_run. unfold IO.lift at 1. rewrite Hchunks.
    rewrite io_bind_run, stock_updates_run by done.
    rewrite (seller_prices_after_stocks _ _ _ _ Hnd Hstocks).
    done.
Qed.

Lemma seller_main_uploads_stocks_or_nothing_witness :
  Seller.main "token" "client" Examples.bad_quantity []
  = ([IO.Called (IO.GetOfferIds "client" "token"); IO.Called IO.DownloadStock;
      IO.reported ValueError], Ok tt)
  ∧ ∃ chunks,
      splits 100 [Seller.Stock.Make "63433" 100; Seller.Stock.Make "99999" 0] chunks
      ∧ Seller.main "token" "client" Examples.fair_seller []
        = ([IO.Called (IO.GetOfferIds "client" "token"); IO.Called IO.DownloadStock]
           ++ stock_calls "client" "token" chunks, Ok tt).
Proof.
  split.
  - destruct (seller_main_uploads_stocks_or_nothing Examples.bad_quantity
                "token" "client" [Examples.watch_63433; Examples.watch_no_quantity]
                Examples.catalog eq_refl eq_refl) as [Hraise _].
    apply Hraise. vm_compute. reflexivity.
  - destruct (seller_main_uploads_stocks_or_nothing Examples.fair_seller
                "token" "client" [Examples.watch_63433] Examples.catalog
                eq_refl eq_refl) as [_ Hfine].
    apply (Hfine _ ["99999"]).
    + apply (bool_decide_unpack _). vm_compute. exact I.
    + vm_compute. reflexivity.
    + intros t chunk. reflexivity.
Defined.

(** ** The catalog listing of seller.py *)

Section OzonListing.
Context (srv : Seller.listing) (client_id seller_token : string).

Local Abbreviation loop := (Seller.get_offer_ids_loop srv client_id seller_token).

Lemma all_products_cons p (ps : list Seller.Page.t) :
  all_products (p :: ps) = products p ++ all_products ps.
Proof. done. Qed.

Lemma products_items p items : Seller.Page.items p = Some items → products p = items.
Proof. unfold products. by intros ->. Qed.

Lemma ozon_loop_pages (ps : list Seller.Page.t) (last : Seller.Page.t) :
  ∀ fuel log last_id product_list,
    ozon_serves srv client_id seller_token (length log) last_id (ps ++ [last]) →
    ozon_goes_on (length product_list) ps →
    Seller.Page.total last
    = Some (Z.of_nat (length (product_list ++ all_products (ps ++ [last])))) →
    (length ps < fuel)%nat →
    loop fuel log last_id product_list
    = Some (log ++ last_id :: (Seller.Page.last_id <$> ps),
            Ok (product_list ++ all_products (ps ++ [last]))).
Proof.
  induction ps as [|p ps IH]; intros fuel log last_id product_list.
  - rewrite app_nil_l, all_products_cons.
    change (all_products []) with (@nil Seller.Product.t). rewrite app_nil_r.
    intros (Hsrv & [items Hitems] & _) _ Htotal Hfuel.
    rewrite (products_items _ _ Hitems) in *.
    destruct fuel as [|fuel]; [lia|]. cbn [Seller.get_offer_ids_loop].
    rewrite length_app, Nat.add_sub. cbn [length]. rewrite Hsrv, Hitems.
    by rewrite decide_True.
  - rewrite <- app_comm_cons, all_products_cons.
    intros (Hsrv & [items Hitems] & Hrest) [Hgo Hon] Htotal Hfuel.
    rewrite (products_items _ _ Hitems) in *.
    destruct fuel as [|fuel]; [simpl in Hfuel; lia|].
    cbn [Seller.get_offer_ids_loop].
    rewrite length_app, Nat.add_sub. cbn [length]. rewrite Hsrv, Hitems.
    rewrite decide_False by by rewrite length_app.
    rewrite (IH fuel (log ++ [last_id]) (Seller.Page.last_id p)
               (product_list ++ items)).
    + by rewrite fmap_cons, <- !app_assoc.
    + by rewrite length_app, Nat.add_1_r.
    + by rewrite length_app.
    + by rewrite <- app_assoc.
    + simpl in Hfuel. lia.
Qed.

(** What the loop leaves when it stops, and what its last request was
    answered. *)
Lemma ozon_loop_stops fuel : ∀ log0 last_id product_list log r,
  loop fuel log0 last_id product_list = Some (log, r) →
  ∃ before last,
    log = before ++ [last]
    ∧ (∃ rest, log = log0 ++ last_id :: rest)
    ∧ match r with
      | Ok products =>
          ∃ p, srv (length before) last client_id seller_token = Ok (Some p)
               ∧ Seller.Page.total p = Some (Z.of_nat (length products))
      | Err e =>
          srv (length before) last client_id seller_token = Err e
          ∨ (srv (length before) last client_id seller_token = Ok None
             ∧ e = AttributeError)
          ∨ (∃ p, srv (length before) last client_id seller_token = Ok (Some p)
                  ∧ Seller.Page.items p = None ∧ e = TypeError)
      end.
Proof.
  induction fuel as [|fuel IH]; intros log0 last_id product_list log r; [done|].
  cbn [Seller.get_offer_ids_loop]. rewrite length_app, Nat.add_sub. cbn [length].
  destruct (srv (length log0) last_id client_id seller_token)
    as [[some_prod|]|e] eqn:Hsrv.
  - destruct (Seller.Page.items some_prod) as [items|] eqn:Hitems.
    + destruct (decide (Seller.Page.total some_prod
                        = Some (Z.of_nat (length (product_list ++ items)))))
        as [Htotal|Hgo].
      * intros [= <- <-]. exists log0, last_id.
        split; [done|]. split; [by exists []|]. by exists some_prod.
      * intros (before & last & -> & [rest Hrest] & Hres)%IH.
        exists before, last. split; [done|]. split; [|done].
        exists (Seller.Page.last_id some_prod :: rest).
        by rewrite Hrest, <- app_assoc.
    + intros [= <- <-]. exists log0, last_id.
      split; [done|]. split; [by exists []|]. right. right. by exists some_prod.
  - intros [= <- <-]. exists log0, last_id.
    split; [done|]. split; [by exists []|]. right. by left.
  - intros [= <- <-]. exists log0, last_id.
    split; [done|]. split; [by exists []|]. by left.
Qed.

End OzonListing.

(** X14.  [get_offer_ids] of seller.py asks for the first page with the
    [last_id] [""] and for every further page with the ["last_id"] of the
    page before it.  When the pages so served bring the number of products
    to the announced ["total"] for the first time with the page [last], the
    loop stops there, given at least that many requests: one request was
    made per page, and the result is the offer ids of all the pages, in
    page order. *)
Theorem seller_get_offer_ids_reads_every_page
  (srv : Seller.listing) (client_id seller_token : string)
  (pages : list Seller.Page.t) (last : Seller.Page.t) (fuel : nat) :
  ozon_serves srv client_id seller_token 0 "" (pages ++ [last]) →
  ozon_goes_on 0 pages →
  Seller.Page.total last
  = Some (Z.of_nat (length (all_products (pages ++ [last])))) →
  (length pages < fuel)%nat →
  Seller.get_offer_ids srv fuel client_id seller_token
  = Some ("" :: (Seller.Page.last_id <$> pages),
          Ok (Seller.Product.offer_id <$> all_products (pages ++ [last]))).
Proof.
  intros Hserves Hgo Htotal Hfuel. unfold Seller.get_offer_ids.
  by rewrite (ozon_loop_pages srv client_id seller_token pages last fuel [] "" []).
Qed.

Lemma seller_get_offer_ids_reads_every_page_witness :
  Seller.get_offer_ids Examples.ozon 5 "client" "token"
  = Some ("" :: (Seller.Page.last_id <$> [Examples.ozon_page_1]),
          Ok (Seller.Product.offer_id
                <$> all_products ([Examples.ozon_page_1] ++ [Examples.ozon_page_2]))).
Proof.
  apply (seller_get_offer_ids_reads_every_page Examples.ozon "client" "token"
           [Examples.ozon_page_1] Examples.ozon_page_2 5).
  - simpl. repeat split; by eexists.
  - simpl. split; [discriminate | exact I].
  - reflexivity.
  - simpl. lia.
Defined.

(** X15.  When [get_offer_ids] of seller.py stops, it has made at least one
    request, the first with the [last_id] [""].  If it returns, the answer
    to its last request announced as ["total"] exactly the number of ids
    returned.  If it raises, the exception comes from its last request: the
    request failed, or the answer had no ["result"] ([AttributeError]) or
    no ["items"] ([TypeError]); the ids of the pages read before are not
    returned. *)
Theorem seller_get_offer_ids_stops_on_total
  (srv : Seller.listing) (fuel : nat) (client_id seller_token : string)
  (log : list string) (r : result (list string)) :
  Seller.get_offer_ids srv fuel client_id seller_token = Some (log, r) →
  ∃ before last,
    log = before ++ [last]
    ∧ head log = Some EmptyString
    ∧ match r with
      | Ok ids =>
          ∃ p, srv (length before) last client_id seller_token = Ok (Some p)
               ∧ Seller.Page.total p = Some (Z.of_nat (length ids))
      | Err e =>
          srv (length before) last client_id seller_token = Err e
          ∨ (srv (length before) last client_id seller_token = Ok None
             ∧ e = AttributeError)
          ∨ (∃ p, srv (length before) last client_id seller_token = Ok (Some p)
                  ∧ Seller.Page.items p = None ∧ e = TypeError)
      end.
Proof.
  unfold Seller.get_offer_ids.
  destruct (Seller.get_offer_ids_loop _ _ _ _ _ _ _) as [[log0 r0]|] eqn:Hloop;
    [|done].
  apply ozon_loop_stops in Hloop as (before & last & -> & [rest Hrest] & Hres).
  destruct r0 as [products|e]; intros [= <- <-]; exists before, last.
  - split; [done|]. split; [by rewrite Hrest|].
    destruct Hres as (p & Hp & Htotal). exists p. by rewrite length_fmap.
  - split; [done|]. split; [by rewrite Hrest|]. done.
Qed.

Lemma seller_get_offer_ids_stops_on_total_witness :
  ∃ before last,
    ["";  "bnVsbA=="] = before ++ [last]
    ∧ head ["";  "bnVsbA=="] = Some EmptyString
    ∧ (Examples.ozon_broken (length before) last "client" "token" = Err TypeError
       ∨ (Examples.ozon_broken (length before) last "client" "token" = Ok None
          ∧ TypeError = AttributeError)
       ∨ (∃ p, Examples.ozon_broken (length before) last "client" "token"
               = Ok (Some p)
               ∧ Seller.Page.items p = None ∧ TypeError = TypeError)).
Proof.
  apply (seller_get_offer_ids_stops_on_total Examples.ozon_broken 5 "client" "token"
           ["";  "bnVsbA=="] (Err TypeError)).
  vm_compute. reflexivity.
Defined.

(** ** The catalog listing of market.py *)

Section YandexListing.
Context (srv : Market.listing) (campaign_id market_token : string).

Local Abbreviation loop := (Market.get_offer_ids_loop srv campaign_id market_token).

Lemma all_entries_cons p (ps : list Market.Page.t) :
  all_entries (p :: ps) = entries p ++ all_entries ps.
Proof. done. Qed.

Lemma entries_some p l :
  Market.Page.offerMappingEntries p = Some l → entries p = l.
Proof. unfold entries. by intros ->. Qed.

Lemma no_token_is_last p page :
  Market.Page.paging p = Some page → Market.no_token page = true ↔ is_last p.
Proof.
  intros Hp. unfold is_last. rewrite Hp. destruct page as [token|]; simpl.
  - rewrite bool_decide_eq_true. split.
    + intros ->. by right.
    + intros [?|[= ->]]; done.
  - split; [by left | done].
Qed.

Lemma has_next_token p :
  has_next p →
  ∃ token, Market.Page.paging p = Some (Some token)
           ∧ Market.no_token (Some token) = false ∧ next_token p = token.
Proof.
  intros (token & Hp & Hne). exists token. split; [done|]. split.
  - simpl. by apply bool_decide_eq_false.
  - unfold next_token. by rewrite Hp.
Qed.

Lemma yandex_loop_pages (ps : list Market.Page.t) (last : Market.Page.t) :
  ∀ fuel log page product_list,
    yandex_serves srv campaign_id market_token (length log) page (ps ++ [last]) →
    Forall has_next ps →
    is_last last →
    (length ps < fuel)%nat →
    loop fuel log page product_list
    = Some (log ++ page :: (next_token <$> ps),
            Ok (product_list ++ all_entries (ps ++ [last]))).
Proof.
  induction ps as [|p ps IH]; intros fuel log page product_list.
  - rewrite app_nil_l, all_entries_cons.
    change (all_entries []) with (@nil Market.Entry.t). rewrite app_nil_r.
    intros (Hsrv & [l Hl] & _) _ Hlast Hfuel.
    rewrite (entries_some _ _ Hl).
    destruct fuel as [|fuel]; [lia|]. cbn [Market.get_offer_ids_loop].
    rewrite length_app, Nat.add_sub. cbn [length]. rewrite Hsrv, Hl.
    destruct (Market.Page.paging last) as [token|] eqn:Hpaging.
    + by rewrite (proj2 (no_token_is_last _ _ Hpaging) Hlast).
    + unfold is_last in Hlast. rewrite Hpaging in Hlast. by destruct Hlast.
  - rewrite <- app_comm_cons, all_entries_cons.
    intros (Hsrv & [l Hl] & Hrest) [Hnext Hmore]%Forall_cons Hlast Hfuel.
    rewrite (entries_some _ _ Hl).
    destruct (has_next_token p Hnext) as (token & Hpaging & Htoken & Hnt).
    destruct fuel as [|fuel]; [simpl in Hfuel; lia|].
    cbn [Market.get_offer_ids_loop].
    rewrite length_app, Nat.add_sub. cbn [length].
    rewrite Hsrv, Hl, Hpaging, Htoken.
    change (default EmptyString (Some token)) with token.
    rewrite (IH fuel (log ++ [page]) token (product_list ++ l)).
    + by rewrite fmap_cons, Hnt, <- !app_assoc.
    + by rewrite length_app, Nat.add_1_r, <- Hnt.
    + done.
    + done.
    + simpl in Hfuel. lia.
Qed.

Lemma entries_read_cons n page (log : list string) p :
  srv n page campaign_id market_token = Ok (Some p) →
  entries_read srv campaign_id market_token n (page :: log)
  = entries p ++ entries_read srv campaign_id market_token (S n) log.
Proof. intros H. simpl. by rewrite H. Qed.

Lemma yandex_loop_stops fuel : ∀ log0 page product_list log r,
  loop fuel log0 page product_list = Some (log, r) →
  ∃ before last rest,
    log = before ++ [last]
    ∧ log = log0 ++ page :: rest
    ∧ Forall (λ token, token ≠ EmptyString) rest
    ∧ match r with
      | Ok product_list' =>
          (∃ p, srv (length before) last campaign_id market_token = Ok (Some p)
                ∧ is_last p)
          ∧ product_list'
            = product_list
              ++ entries_read srv campaign_id market_token (length log0) (page :: rest)
      | Err e =>
          srv (length before) last campaign_id market_token = Err e
          ∨ (srv (length before) last campaign_id market_token = Ok None
             ∧ e = AttributeError)
          ∨ (∃ p, srv (length before) last campaign_id market_token = Ok (Some p)
                  ∧ Market.Page.offerMappingEntries p = None ∧ e = TypeError)
          ∨ (∃ p, srv (length before) last campaign_id market_token = Ok (Some p)
                  ∧ Market.Page.paging p = None ∧ e = AttributeError)
      end.
Proof.
  induction fuel as [|fuel IH]; intros log0 page product_list log r; [done|].
  cbn [Market.get_offer_ids_loop]. rewrite length_app, Nat.add_sub. cbn [length].
  destruct (srv (length log0) page campaign_id market_token)
    as [[some_prod|]|e] eqn:Hsrv.
  - destruct (Market.Page.offerMappingEntries some_prod) as [l|] eqn:Hl.
    + destruct (Market.Page.paging some_prod) as [next|] eqn:Hpaging.
      * destruct (Market.no_token next) eqn:Hnext.
        -- intros [= <- <-]. exists log0, page, [].
           split; [done|]. split; [done|]. split; [done|]. split.
           ++ exists some_prod. split; [done|]. by apply (no_token_is_last _ next).
           ++ rewrite (entries_read_cons _ _ _ _ Hsrv), (entries_some _ _ Hl).
              simpl. by rewrite app_nil_r.
        -- intros (before & last & rest & -> & Hrest & Hall & Hres)%IH.
           exists before, last, (default EmptyString next :: rest).
           split; [done|]. rewrite Hrest, <- app_assoc. split; [done|].
           split.
           { constructor; [|done]. destruct next as [token|]; [|done].
             simpl in *. by apply bool_decide_eq_false in Hnext. }
           destruct r as [product_list'|e]; [|done].
           destruct Hres as [Hlast ->]. split; [done|].
           rewrite (entries_read_cons _ _ _ _ Hsrv), (entries_some _ _ Hl).
           by rewrite length_app, Nat.add_1_r, <- app_assoc.
      * intros [= <- <-]. exists log0, page, [].
        split; [done|]. split; [done|]. split; [done|].
        right. right. right. by exists some_prod.
    + intros [= <- <-]. exists log0, page, [].
      split; [done|]. split; [done|]. split; [done|].
      right. right. left. by exists some_prod.
  - intros [= <- <-]. exists log0, page, [].
    split; [done|]. split; [done|]. split; [done|]. right. by left.
  - intros [= <- <-]. exists log0, page, [].
    split; [done|]. split; [done|]. split; [done|]. by left.
Qed.

Lemma skus_of_cons product (product_list : list Market.Entry.t) :
  skus_of (product :: product_list)
  = match Market.Entry.offer product with
    | Some offer => cons (Market.Offer.shopSku offer) <$> skus_of product_list
    | None => Err AttributeError
    end.
Proof.
  unfold skus_of.
  change (mapM sku_of (product :: product_list))
    with (y ← sku_of product; k ← mapM sku_of product_list; mret (y :: k)).
  assert (Hsku : sku_of product
                 = Market.Offer.shopSku <$> Market.Entry.offer product) by done.
  rewrite Hsku.
  destruct (Market.Entry.offer product) as [offer|]; [|done]. simpl.
  by destruct (mapM sku_of product_list).
Qed.

Lemma append_shop_sku_run product (offer_ids : list string) :
  Market.append_shop_sku product offer_ids
  = match Market.Entry.offer product with
    | Some offer => Ok (offer_ids ++ [Market.Offer.shopSku offer])
    | None => Err AttributeError
    end.
Proof. done. Qed.

(** The second loop of [get_offer_ids]. *)
Lemma append_shop_skus (product_list : list Market.Entry.t) : ∀ offer_ids,
  for_each Market.append_shop_sku product_list offer_ids
  = (λ skus, offer_ids ++ skus) <$> skus_of product_list.
Proof.
  induction product_list as [|product product_list IH]; intros offer_ids.
  { simpl. by rewrite app_nil_r. }
  rewrite for_each_cons, skus_of_cons, append_shop_sku_run.
  destruct (Market.Entry.offer product) as [offer|]; [|done].
  rewrite bind_ok, IH.
  destruct (skus_of product_list) as [skus|e]; [|done].
  simpl. by rewrite <- app_assoc.
Qed.

Lemma skus_of_run (product_list : list Market.Entry.t) :
  for_each Market.append_shop_sku product_list [] = skus_of product_list.
Proof. rewrite append_shop_skus. by destruct (skus_of product_list). Qed.

Lemma skus_of_raises (product_list : list Market.Entry.t) e :
  skus_of product_list = Err e →
  e = AttributeError
  ∧ Exists (λ product, Market.Entry.offer product = None) product_list.
Proof.
  induction product_list as [|product product_list IH]; [done|].
  rewrite skus_of_cons.
  destruct (Market.Entry.offer product) as [offer|] eqn:Hoffer.
  - destruct (skus_of product_list) as [skus|e']; [done|].
    intros [= <-]. destruct (IH eq_refl) as [-> Hex].
    split; [done|]. by apply Exists_cons_tl.
  - intros [= <-]. split; [done|]. by apply Exists_cons_hd.
Qed.

End YandexListing.

(** X16.  [get_offer_ids] of market.py asks for the first page with the
    token [""] and for every further page with the ["nextPageToken"] of the
    page before it.  When the pages so served name a next page up to the
    page [last], which names none, the loop stops there, given at least that
    many requests: one request was made per page, and the result is the
    ["shopSku"] of all the entries, in page order, unless an entry has no
    ["offer"]: then the call raises [AttributeError]. *)
Theorem market_get_offer_ids_reads_every_page
  (srv : Market.listing) (campaign_id market_token : string)
  (pages : list Market.Page.t) (last : Market.Page.t) (fuel : nat) :
  yandex_serves srv campaign_id market_token 0 "" (pages ++ [last]) →
  Forall has_next pages →
  is_last last →
  (length pages < fuel)%nat →
  Market.get_offer_ids srv fuel campaign_id market_token
  = Some ("" :: (next_token <$> pages), skus_of (all_entries (pages ++ [last]))).
Proof.
  intros Hserves Hnext Hlast Hfuel. unfold Market.get_offer_ids.
  rewrite (yandex_loop_pages srv campaign_id market_token pages last fuel [] "" [])
    by done.
  by rewrite app_nil_l, skus_of_run.
Qed.

Lemma market_get_offer_ids_reads_every_page_witness :
  Market.get_offer_ids Examples.yandex 5 "shop" "token"
  = Some ("" :: (next_token <$> [Examples.yandex_page_1]),
          skus_of (all_entries ([Examples.yandex_page_1] ++ [Examples.yandex_page_2])))
  ∧ skus_of (all_entries ([Examples.yandex_page_1] ++ [Examples.yandex_page_2]))
    = Ok ["63433"; "99999"; "77777"].
Proof.
  split; [|reflexivity].
  apply (market_get_offer_ids_reads_every_page Examples.yandex "shop" "token"
           [Examples.yandex_page_1] Examples.yandex_page_2 5).
  - simpl. repeat split; by eexists.
  - constructor; [|constructor]. by exists "eyJuZXh0".
  - by left.
  - simpl. lia.
Defined.

(** X17.  When [get_offer_ids] of market.py stops, it has made at least one
    request, the first with the token [""], and no later request carries an
    empty token.  If it returns, the answer to its last request named no
    next page, and the result is the ["shopSku"] of the entries of all the
    answers, in order.  If it raises, either the exception comes from its
    last request: the request failed, or the answer had no ["result"]
    ([AttributeError]), no ["offerMappingEntries"] ([TypeError]) or no
    ["paging"] ([AttributeError]); or the last answer named no next page
    and one of the entries read has no ["offer"] ([AttributeError]).  In
    both cases the entries read are not returned. *)
Theorem market_get_offer_ids_stops_without_token
  (srv : Market.listing) (fuel : nat) (campaign_id market_token : string)
  (log : list string) (r : result (list string)) :
  Market.get_offer_ids srv fuel campaign_id market_token = Some (log, r) →
  ∃ before last rest,
    log = before ++ [last]
    ∧ log = EmptyString :: rest
    ∧ Forall (λ token, token ≠ EmptyString) rest
    ∧ match r with
      | Ok offer_ids =>
          (∃ p, srv (length before) last campaign_id market_token = Ok (Some p)
                ∧ is_last p)
          ∧ mapM sku_of (entries_read srv campaign_id market_token 0 log)
            = Some offer_ids
      | Err e =>
          srv (length before) last campaign_id market_token = Err e
          ∨ (srv (length before) last campaign_id market_token = Ok None
             ∧ e = AttributeError)
          ∨ (∃ p, srv (length before) last campaign_id market_token = Ok (Some p)
                  ∧ Market.Page.offerMappingEntries p = None ∧ e = TypeError)
          ∨ (∃ p, srv (length before) last campaign_id market_token = Ok (Some p)
                  ∧ Market.Page.paging p = None ∧ e = AttributeError)
          ∨ ((∃ p, srv (length before) last campaign_id market_token = Ok (Some p)
                   ∧ is_last p)
             ∧ Exists (λ product, Market.Entry.offer product = None)
                 (entries_read srv campaign_id market_token 0 log)
             ∧ e = AttributeError)
      end.
Proof.
  unfold Market.get_offer_ids.
  destruct (Market.get_offer_ids_loop _ _ _ _ _ _ _) as [[log0 r0]|] eqn:Hloop;
    [|done].
  apply yandex_loop_stops in Hloop
    as (before & last & rest & -> & Hrest & Hall & Hres).
  simpl in Hrest.
  destruct r0 as [product_list|e].
  - destruct Hres as [Hlast ->]. rewrite app_nil_l, skus_of_run.
    intros [= <- <-]. exists before, last, rest.
    split; [done|]. split; [done|]. split; [done|].
    simpl length. rewrite Hrest.
    destruct (skus_of _) as [offer_ids|e] eqn:Hskus.
    + split; [done|]. unfold skus_of in Hskus.
      destruct (mapM sku_of _) as [skus|]; [|done]. by injection Hskus as ->.
    + apply skus_of_raises in Hskus as [-> Hex]. by do 4 right.
  - intros [= <- <-]. exists before, last, rest.
    split; [done|]. split; [done|]. split; [done|].
    destruct Hres as [?|[?|[?|?]]]; auto.
Qed.

Lemma market_get_offer_ids_stops_without_token_witness :
  ∃ before last rest,
    [EmptyString] = before ++ [last]
    ∧ [EmptyString] = EmptyString :: rest
    ∧ Forall (λ token, token ≠ EmptyString) rest
    ∧ (Examples.yandex_no_offer (length before) last "shop" "token"
       = Err AttributeError
       ∨ (Examples.yandex_no_offer (length before) last "shop" "token" = Ok None
          ∧ AttributeError = AttributeError)
       ∨ (∃ p, Examples.yandex_no_offer (length before) last "shop" "token"
               = Ok (Some p)
               ∧ Market.Page.offerMappingEntries p = None
               ∧ AttributeError = TypeError)
       ∨ (∃ p, Examples.yandex_no_offer (length before) last "shop" "token"
               = Ok (Some p)
               ∧ Market.Page.paging p = None ∧ AttributeError = AttributeError)
       ∨ ((∃ p, Examples.yandex_no_offer (length before) last "shop" "token"
                = Ok (Some p)
                ∧ is_last p)
          ∧ Exists (λ product, Market.Entry.offer product = None)
              (entries_read Examples.yandex_no_offer "shop" "token" 0 [EmptyString])
          ∧ AttributeError = AttributeError)).
Proof.
  apply (market_get_offer_ids_stops_without_token Examples.yandex_no_offer 5
           "shop" "token" [EmptyString] (Err AttributeError)).
  vm_compute. reflexivity.
Defined.
